(** * thunderdome: an object-graph mapper over a remote Gremlin service

    A shallow embedding of the parts of [thunderdome/models.py],
    [thunderdome/connection.py], [thunderdome/groovy.py] and
    [thunderdome/gremlin.py] that declare model classes, talk to the query
    boundary and bind Groovy functions, followed by the properties proved
    about them.

    Conventions.
    - Python values that cross the query boundary are JSON values ([json]);
      Python's [None] is [JNull].
    - A raised exception is the left summand of [result]; code that calls
      [execute_query] lives in the state-and-error monad [M] over [world],
      which records every script handed to the boundary.
    - The two module-level dictionaries [vertex_types] and [edge_types] and
      the mutable column objects form the [runtime] that class declarations
      thread through. *)

From Stdlib Require Import String Ascii ZArith List Bool Lia.
From stdpp Require Import base option functions gmap strings list.

Set Warnings "-register-all,-clear-no-such-hyp".
Open Scope string_scope.
Open Scope list_scope.

(* ===================================================================== *)
(** * Values                                                              *)
(* ===================================================================== *)

Inductive json :=
| JNull
| JBool (b : bool)
| JNum (n : Z)
| JStr (s : string)
| JList (l : list json)
| JObj (m : gmap string json).

(** Python truth value, as used by [filter(None, ...)] and [if not results]. *)
Definition truthy (v : json) : bool :=
  match v with
  | JNull => false
  | JBool b => b
  | JNum n => negb (n =? 0)%Z
  | JStr s => negb (String.eqb s "")
  | JList l => negb (Nat.eqb (length l) 0)
  | JObj m => negb (Nat.eqb (size m) 0)
  end.

Definition is_None (v : json) : bool :=
  match v with JNull => true | _ => false end.

(** [isinstance(v, (int, long))]; [bool] is a subclass of [int]. *)
Definition is_int (v : json) : bool :=
  match v with JNum _ | JBool _ => true | _ => false end.

Definition nl : string := String (ascii_of_nat 10) EmptyString.

(** ['\n'.join(qs)] *)
Fixpoint join_lines (qs : list string) : string :=
  match qs with
  | [] => ""
  | [q] => q
  | q :: rest => q +:+ nl +:+ join_lines rest
  end.

(** ["{}".format(v)] for a string-or-None. *)
Definition format_opt (o : option string) : string :=
  match o with Some s => s | None => "None" end.

(* ===================================================================== *)
(** * Exceptions                                                          *)
(* ===================================================================== *)

(** The [TypeError]s of the program, with their formatted parts kept apart. *)
Inductive type_error :=
| TakesArgs (attr_name : option string) (expected given : nat)
| MultipleValues (attr_name : option string) (k : string)
| UnexpectedKeyword (attr_name : option string) (k : string)
| CantDeserialize (dtype : option json)
| Unhashable
| WrongArgumentCount
| NoneConcat.

Inductive exn :=
| ModelException (cls_name : string) (wire : option string)
| ElementDefinitionException (discriminator : string)
| ThunderdomeQueryError (msg : string)
| ValidationError (msg : string)
| ThunderdomeGremlinException (msg : string)
| DoesNotExist
| MultipleObjectsReturned
| TypeError (e : type_error)
| KeyError (key : json)
| IndexError
| AttributeError
| AssertionError.

Definition result (A : Type) : Type := exn + A.

Definition ST (S A : Type) : Type := S -> result A * S.

Class Monad (m : Type -> Type) := {
  ret : forall {A}, A -> m A;
  bind : forall {A B}, m A -> (A -> m B) -> m B
}.

#[export] Instance result_monad : Monad result := {
  ret := fun A a => inr a;
  bind := fun A B m k => match m with inl e => inl e | inr a => k a end
}.

#[export] Instance ST_monad (S : Type) : Monad (ST S) := {
  ret := fun A a s => (inr a, s);
  bind := fun A B m k s =>
    match m s with
    | (inl e, s') => (inl e, s')
    | (inr a, s') => k a s'
    end
}.

Declare Scope py_scope.
Delimit Scope py_scope with py.
Notation "x <- m ;; k" := (bind m (fun x => k))
  (at level 100, m at next level, right associativity) : py_scope.
Notation "m ;;; k" := (bind m (fun _ => k))
  (at level 100, right associativity) : py_scope.
Open Scope py_scope.

Definition raise {A} (e : exn) : result A := inl e.
Definition raiseST {S A} (e : exn) : ST S A := fun s => (inl e, s).
Definition lift {S A} (r : result A) : ST S A := fun s => (r, s).

(** [try: body except: handler] where the handler re-raises what it does
    not catch. *)
Definition try_except {S A} (body : ST S A) (handler : exn -> ST S A) : ST S A :=
  fun s => match body s with
           | (inl e, s') => handler e s'
           | (inr a, s') => (inr a, s')
           end.

(** A [for] loop that collects one result per item and stops at the first
    exception. *)
Fixpoint for_each {m} `{Monad m} {A B} (f : A -> m B) (l : list A) : m (list B) :=
  match l with
  | [] => ret []
  | x :: rest => y <- f x ;; ys <- for_each f rest ;; ret (y :: ys)
  end.

(* ===================================================================== *)
(** * connection.py: the query boundary                                   *)
(* ===================================================================== *)

Module connection.

Definition call : Type := string * gmap string json.

(** What the remote service answers: status 200 with [results], or another
    status with an [error] message. *)
Inductive response :=
| Status200 (results : list json)
| StatusError (error : string).

(** The state behind [execute_query]: the remote service, which answers a
    script knowing the scripts it got before, and the scripts posted so
    far. *)
Record world := {
  remote : list call -> call -> response;
  calls : list call
}.

Definition M (A : Type) : Type := ST world A.

Definition execute_query (query : string) (params : gmap string json)
    (transaction : bool) : M (list json) :=
  fun w =>
    let query := if transaction then "g.stopTransaction(FAILURE)" +:+ nl +:+ query
                 else query in
    let c : call := (query, params) in
    let w' := {| remote := remote w; calls := calls w ++ [c] |} in
    match remote w (calls w) c with
    | Status200 results => (inr results, w')
    | StatusError error => (inl (ThunderdomeQueryError error), w')
    end.

(** [name in existing], for a string and the rows the service returned. *)
Definition is_str (name : string) (v : json) : bool :=
  match v with JStr s => String.eqb s name | _ => false end.

Definition create_key_index (name : string) : M unit :=
  existing <- execute_query "g.getIndexedKeys(Vertex.class)" ∅ true ;;
  if negb (existsb (is_str name) existing) then
    (execute_query "g.createKeyIndex(keyname, Vertex.class); g.stopTransaction(SUCCESS)"
                   {[ "keyname" := JStr name ]} false ;;;
     ret tt)
  else ret tt.

(** ** The host list of [setup] *)

(** [Host(name, port)]: the port is the number 8182 or the text after the
    colon. *)
Inductive Host :=
| Host_ (name : string) (port : json).

(** The characters [str.strip()] removes. *)
Definition is_space (c : ascii) : bool :=
  let n := nat_of_ascii c in
  ((n =? 32) || ((9 <=? n) && (n <=? 13)))%nat.

Fixpoint lstrip (s : string) : string :=
  match s with
  | String c rest => if is_space c then lstrip rest else s
  | EmptyString => s
  end.

Fixpoint rstrip (s : string) : string :=
  match s with
  | EmptyString => EmptyString
  | String c rest =>
      match rstrip rest with
      | EmptyString => if is_space c then EmptyString else String c EmptyString
      | r => String c r
      end
  end.

Definition strip (s : string) : string := rstrip (lstrip s).

(** [s.split(sep)] for a one-character separator. *)
Fixpoint split (sep : ascii) (s : string) : list string :=
  match s with
  | EmptyString => [EmptyString]
  | String c rest =>
      if Ascii.eqb c sep then EmptyString :: split sep rest
      else match split sep rest with
           | l :: ls => String c l :: ls
           | [] => [String c EmptyString]
           end
  end.

(** [''.join(parts)] *)
Definition join_parts (parts : list string) : string :=
  fold_right String.append EmptyString parts.

(** The first part of [setup]: the loop that appends to the module-level
    list [_hosts], and the test that follows it.  The result is the message
    of the [ThunderdomeConnectionError] raised, if one is, and [_hosts] as
    the loop left it. *)
Fixpoint add_hosts (hosts : list string) (_hosts : list Host)
    : option string * list Host :=
  match hosts with
  | [] => (None, _hosts)
  | host :: rest =>
      let host := strip host in
      let host := split ":" host in
      match host with
      | [h] => add_hosts rest (_hosts ++ [Host_ h (JNum 8182)])
      | [h; p] => add_hosts rest (_hosts ++ [Host_ h (JStr p)])
      | _ => (Some ("Can't parse " +:+ join_parts host), _hosts)
      end
  end.

Definition setup_hosts (hosts : list string) (_hosts : list Host)
    : option string * list Host :=
  match add_hosts hosts _hosts with
  | (Some msg, _hosts) => (Some msg, _hosts)
  | (None, []) => (Some "At least one host required", [])
  | (None, _hosts) => (None, _hosts)
  end.

End connection.
Import connection.

(* ===================================================================== *)
(** * columns: field descriptors                                          *)
(* ===================================================================== *)

(** Modelled from the spec: the module [thunderdome.columns] is not among
    the sources, only its uses are.  A field descriptor carries its wire
    name override ([db_field]), the attribute name it was declared under
    ([column_name], set by [set_column_name]), its ordinal [position], the
    deletability flag and its three conversions, each of which may raise.
    The wire name is the override when one is given and the attribute name
    otherwise, as the test
    [test_attempting_to_make_duplicate_column_names_fails] relies on.  The
    value manager a column creates per instance is represented by the
    value it holds. *)
Module columns.

Record Column := {
  db_field : option string;
  column_name : option string;
  position : nat;
  can_delete : bool;
  to_python : json -> result json;
  to_database : json -> result json;
  validate : json -> result json
}.

Definition set_column_name (c : Column) (name : string) : Column :=
  {| db_field := db_field c; column_name := Some name;
     position := position c; can_delete := can_delete c;
     to_python := to_python c; to_database := to_database c;
     validate := validate c |}.

(** [self.db_field or self.column_name] *)
Definition db_field_name (c : Column) : option string :=
  match db_field c with
  | Some s => if String.eqb s "" then column_name c else Some s
  | None => column_name c
  end.

End columns.
Import columns.

(* ===================================================================== *)
(** * models.py: class declaration                                        *)
(* ===================================================================== *)

Module models.

(** Column objects are mutable and may be shared between a class and its
    bases, or between two attributes of one class, so classes hold
    references into a heap of column objects. *)
Abbreviation loc := nat (only parsing).

(** A value of the [attrs] dictionary of a class statement. *)
Inductive attr :=
| AColumn (c : loc)
| AGremlinMethod (is_classmethod : bool)
| AOther (v : json).

(** What the rest of the program reads off a class object.  [manual_name]
    is the class attribute [element_type] (for a vertex class) or [label]
    (for an edge class) as attribute lookup on the class resolves it, own
    or inherited; it is [None] unless some class on the way sets it. *)
Record klass := {
  __name__ : string;
  manual_name : option string;
  _columns : list (string * loc);
  _db_map : gmap (option string) string;
  _gremlin_methods : list (string * bool)
}.

Record runtime := {
  heap : loc -> Column;
  vertex_types : gmap string klass;
  edge_types : gmap string klass
}.

Definition set_heap (rt : runtime) (h : loc -> Column) : runtime :=
  {| heap := h; vertex_types := vertex_types rt; edge_types := edge_types rt |}.

Definition set_vertex_types (rt : runtime) (r : gmap string klass) : runtime :=
  {| heap := heap rt; vertex_types := r; edge_types := edge_types rt |}.

Definition set_edge_types (rt : runtime) (r : gmap string klass) : runtime :=
  {| heap := heap rt; vertex_types := vertex_types rt; edge_types := r |}.

(** ** OrderedDict *)

Fixpoint od_get {V} (d : list (string * V)) (k : string) : option V :=
  match d with
  | [] => None
  | (k', v) :: rest => if String.eqb k' k then Some v else od_get rest k
  end.

(** [d[k] = v]: an existing key keeps its place. *)
Fixpoint od_set {V} (d : list (string * V)) (k : string) (v : V) : list (string * V) :=
  match d with
  | [] => [(k, v)]
  | (k', v') :: rest =>
      if String.eqb k' k then (k, v) :: rest else (k', v') :: od_set rest k v
  end.

Definition od_setdefault {V} (d : list (string * V)) (k : string) (v : V)
    : list (string * V) :=
  match od_get d k with
  | Some _ => d
  | None => d ++ [(k, v)]
  end.

(** [for base in bases: for k,v in getattr(base, attr, {}).items():
      d.setdefault(k, v)] *)
Definition inherit {V} (member : klass -> list (string * V)) (bases : list klass)
    : list (string * V) :=
  fold_left
    (fun d base => fold_left (fun d kv => od_setdefault d kv.1 kv.2) (member base) d)
    bases [].

(** ** _type_name *)

Definition is_lower (c : ascii) : bool :=
  let n := nat_of_ascii c in ((97 <=? n) && (n <=? 122))%nat.

Definition is_upper (c : ascii) : bool :=
  let n := nat_of_ascii c in ((65 <=? n) && (n <=? 90))%nat.

Definition lower_char (c : ascii) : ascii :=
  if is_upper c then ascii_of_nat (nat_of_ascii c + 32) else c.

(** [str.lower] *)
Fixpoint lower (s : string) : string :=
  match s with
  | EmptyString => EmptyString
  | String c rest => String (lower_char c) (lower rest)
  end.

(** [camelcase.sub(lambda v: '{}_{}'.format(v.group(1), v.group(2).lower()), s)]
    for [camelcase = ([a-z])([A-Z])]: matches are found left to right and do
    not overlap. *)
Fixpoint ccase (s : string) : string :=
  match s with
  | String a (String b rest as t) =>
      if is_lower a && is_upper b
      then String a (String "_" (String (lower_char b) (ccase rest)))
      else String a (ccase t)
  | _ => s
  end.

Definition _type_name (cls : klass) (manual : option string) : string :=
  match manual with
  | Some m => if String.eqb m "" then lower (ccase (__name__ cls)) else lower m
  | None => lower (ccase (__name__ cls))
  end.

(** ** ElementMetaClass.__new__ *)

(** [sorted(column_definitions, cmp on position)]; the sort is stable. *)
Fixpoint insert_by_position (h : loc -> Column) (x : string * loc)
    (l : list (string * loc)) : list (string * loc) :=
  match l with
  | [] => [x]
  | y :: rest =>
      if (position (h x.2) <=? position (h y.2))%nat then x :: y :: rest
      else y :: insert_by_position h x rest
  end.

Definition sort_by_position (h : loc -> Column) (l : list (string * loc))
    : list (string * loc) :=
  fold_right (insert_by_position h) [] l.

Definition column_definitions (h : loc -> Column) (attrs : list (string * attr))
    : list (string * loc) :=
  sort_by_position h
    (omap (fun kv => match kv.2 with AColumn c => Some (kv.1, c) | _ => None end) attrs).

(** [_transform_column]: stores the column under its attribute name and
    tells the column object its name.  (It also replaces the attribute by a
    property, which nothing below looks at.) *)
Definition _transform_column (st : (loc -> Column) * list (string * loc))
    (kv : string * loc) : (loc -> Column) * list (string * loc) :=
  let '(h, column_dict) := st in
  let '(col_name, col_obj) := kv in
  (<[col_obj := set_column_name (h col_obj) col_name]> h,
   od_set column_dict col_name col_obj).

(** The effective field set of a class statement: the heap after the new
    columns were named, and the ordered field dictionary. *)
Definition effective_columns (h : loc -> Column) (bases : list klass)
    (attrs : list (string * attr)) : (loc -> Column) * list (string * loc) :=
  fold_left _transform_column (column_definitions h attrs) (h, inherit _columns bases).

(** The duplicate check over [column_dict.values()]. *)
Fixpoint check_duplicates (h : loc -> Column) (name : string) (vs : list loc)
    (col_names : gset (option string)) : result unit :=
  match vs with
  | [] => ret tt
  | v :: rest =>
      let n := db_field_name (h v) in
      if bool_decide (n ∈ col_names) then raise (ModelException name n)
      else check_duplicates h name rest ({[ n ]} ∪ col_names)
  end.

Definition build_db_map (h : loc -> Column) (column_dict : list (string * loc))
    : gmap (option string) string :=
  fold_left (fun m kv => <[db_field_name (h kv.2) := kv.1]> m) column_dict ∅.

Definition own_gremlin_methods (attrs : list (string * attr))
    (inherited : list (string * bool)) : list (string * bool) :=
  fold_left
    (fun d kv => match kv.2 with AGremlinMethod b => od_set d kv.1 b | _ => d end)
    attrs inherited.

(** [gremlin.py] declares [configure_method(self, klass, attr_name)] and the
    metaclass calls it with [(klass, name, gremlin_path)]: the first gremlin
    method of a class makes the call fail. *)
Definition configure_methods (gremlin_methods : list (string * bool)) : result unit :=
  match gremlin_methods with
  | [] => ret tt
  | _ :: _ => raise (TypeError WrongArgumentCount)
  end.

Definition ElementMetaClass_new (name : string) (bases : list klass)
    (attrs : list (string * attr)) (manual : option string) : ST runtime klass :=
  fun rt =>
    let '(h, column_dict) := effective_columns (heap rt) bases attrs in
    let rt' := set_heap rt h in
    match check_duplicates h name (column_dict.*2) ∅ with
    | inl e => (inl e, rt')
    | inr _ =>
        let gremlin_methods := own_gremlin_methods attrs (inherit _gremlin_methods bases) in
        let cls := {| __name__ := name; manual_name := manual;
                      _columns := column_dict;
                      _db_map := build_db_map h column_dict;
                      _gremlin_methods := gremlin_methods |} in
        match configure_methods gremlin_methods with
        | inl e => (inl e, rt')
        | inr _ => (inr cls, rt')
        end
    end.

(** ** VertexMetaClass.__new__ and EdgeMetaClass.__new__ *)

Definition get_element_type (cls : klass) : string := _type_name cls (manual_name cls).
Definition get_label (cls : klass) : string := _type_name cls (manual_name cls).

Definition VertexMetaClass_new (name : string) (bases : list klass)
    (attrs : list (string * attr)) (element_type : option string) : ST runtime klass :=
  cls <- ElementMetaClass_new name bases attrs element_type ;;
  (fun rt =>
     let element_type := get_element_type cls in
     match vertex_types rt !! element_type with
     | Some _ => (inl (ElementDefinitionException element_type), rt)
     | None => (inr cls, set_vertex_types rt (<[element_type := cls]> (vertex_types rt)))
     end).

Definition EdgeMetaClass_new (name : string) (bases : list klass)
    (attrs : list (string * attr)) (label : option string) : ST runtime klass :=
  cls <- ElementMetaClass_new name bases attrs label ;;
  (fun rt =>
     let label := get_label cls in
     match edge_types rt !! label with
     | Some _ => (inl (ElementDefinitionException label), rt)
     | None => (inr cls, set_edge_types rt (<[get_label cls := cls]> (edge_types rt)))
     end).

(** A class statement, and a program's sequence of them. *)
Inductive declaration :=
| DeclareVertex (name : string) (bases : list klass) (attrs : list (string * attr))
    (element_type : option string)
| DeclareEdge (name : string) (bases : list klass) (attrs : list (string * attr))
    (label : option string).

Definition declare (d : declaration) : ST runtime klass :=
  match d with
  | DeclareVertex name bases attrs m => VertexMetaClass_new name bases attrs m
  | DeclareEdge name bases attrs m => EdgeMetaClass_new name bases attrs m
  end.


End models.
Import models.

(* ===================================================================== *)
(** * models.py: instances and queries                                    *)
(* ===================================================================== *)

Definition dq : string := String (ascii_of_nat 34) EmptyString.

(** A model instance.  [_values] holds, per field name, the value its value
    manager holds.  An edge carries its two endpoints, each of which is
    whatever was last stored there: a plain value (an identifier, or
    [None]), a resolved element, or the list a traversal returned. *)
Inductive element :=
| VertexObj (cls : klass) (eid : json) (_values : gmap string json)
| EdgeObj (cls : klass) (eid : json) (_values : gmap string json)
    (_inV _outV : endpoint)
with endpoint :=
| EpVal (v : json)
| EpObj (e : element)
| EpList (l : list element).

Definition element_cls (e : element) : klass :=
  match e with VertexObj c _ _ | EdgeObj c _ _ _ _ => c end.

Definition element_eid (e : element) : json :=
  match e with VertexObj _ i _ | EdgeObj _ i _ _ _ => i end.

Definition element_values (e : element) : gmap string json :=
  match e with VertexObj _ _ v | EdgeObj _ _ v _ _ => v end.

Definition set_values (e : element) (v : gmap string json) : element :=
  match e with
  | VertexObj c i _ => VertexObj c i v
  | EdgeObj c i _ a b => EdgeObj c i v a b
  end.

Definition set_eid (e : element) (i : json) : element :=
  match e with
  | VertexObj c _ v => VertexObj c i v
  | EdgeObj c _ v a b => EdgeObj c i v a b
  end.

Definition ep_is_None (p : endpoint) : bool :=
  match p with EpVal v => is_None v | _ => false end.

(** [p.eid] for whatever an endpoint property returned. *)
Definition endpoint_eid (p : endpoint) : result json :=
  match p with
  | EpObj e => ret (element_eid e)
  | _ => raise AttributeError
  end.

(** [d[k]] on a row. *)
Definition getitem (d : gmap string json) (k : string) : result json :=
  match d !! k with
  | Some v => ret v
  | None => raise (KeyError (JStr k))
  end.

(** [d.get(k)] *)
Definition dict_get (d : gmap string json) (k : string) : json :=
  default JNull (d !! k).

(** [registry[key]] where the registry's keys are strings. *)
Definition registry_getitem (reg : gmap string klass) (key : json) : result klass :=
  match key with
  | JStr s => match reg !! s with
              | Some c => ret c
              | None => raise (KeyError key)
              end
  | JList _ | JObj _ => raise (TypeError Unhashable)
  | _ => raise (KeyError key)
  end.

Module BaseElement.

(** The loop of [__init__] over [self._columns.items()]. *)
Fixpoint init_values (h : loc -> Column) (values : gmap string json)
    (cols : list (string * loc)) (acc : gmap string json)
    : result (gmap string json) :=
  match cols with
  | [] => ret acc
  | (name, column) :: rest =>
      let value := dict_get values name in
      value <- (if is_None value then ret value else to_python (h column) value) ;;
      init_values h values rest (<[name := value]> acc)
  end.

(** [__init__] with the row as keyword arguments; a row key named like a
    parameter clashes with it. *)
Definition init (rt : runtime) (cls : klass) (values : gmap string json)
    : result (json * gmap string json) :=
  match values !! "self" with
  | Some _ => raise (TypeError (MultipleValues (Some "__init__") "self"))
  | None =>
      vals <- init_values (heap rt) values (_columns cls) ∅ ;;
      ret (dict_get values "_id", vals)
  end.

(** [self._values[name].getval()] *)
Definition getattr (vals : gmap string json) (name : string) : result json :=
  getitem vals name.

Fixpoint validate_loop (h : loc -> Column) (cols : list (string * loc))
    (vals : gmap string json) : result (gmap string json) :=
  match cols with
  | [] => ret vals
  | (name, col) :: rest =>
      cur <- getattr vals name ;;
      val <- columns.validate (h col) cur ;;
      validate_loop h rest (<[name := val]> vals)
  end.

Definition validate (rt : runtime) (self : element) : result element :=
  vals <- validate_loop (heap rt) (_columns (element_cls self)) (element_values self) ;;
  ret (set_values self vals).

Fixpoint as_dict_loop (h : loc -> Column) (cols : list (string * loc))
    (vals values : gmap string json) : result (gmap string json) :=
  match cols with
  | [] => ret values
  | (name, col) :: rest =>
      cur <- getattr vals name ;;
      v <- to_database (h col) cur ;;
      as_dict_loop h rest vals (<[name := v]> values)
  end.

Definition as_dict (rt : runtime) (self : element) : result (gmap string json) :=
  as_dict_loop (heap rt) (_columns (element_cls self)) (element_values self) ∅.

End BaseElement.

Module Element.

(** Calling a registered vertex class with the row as keyword arguments. *)
Definition new_vertex (rt : runtime) (cls : klass) (data : gmap string json)
    : result element :=
  p <- BaseElement.init rt cls data ;;
  ret (VertexObj cls p.1 p.2).

(** Calling a registered edge class with the row's two endpoints and the
    row as keyword arguments: [Edge.__init__(self, inV, outV, ...)]. *)
Definition new_edge (rt : runtime) (cls : klass) (inV outV : json)
    (data : gmap string json) : result element :=
  match data !! "inV", data !! "outV" with
  | None, None =>
      p <- BaseElement.init rt cls data ;;
      ret (EdgeObj cls p.1 p.2 (EpVal inV) (EpVal outV))
  | Some _, _ => raise (TypeError (MultipleValues (Some "__init__") "inV"))
  | None, Some _ => raise (TypeError (MultipleValues (Some "__init__") "outV"))
  end.

Definition deserialize (rt : runtime) (data : json) : result element :=
  match data with
  | JObj data =>
      let dtype := data !! "_type" in
      match dtype with
      | Some (JStr t) =>
          if String.eqb t "vertex" then
            vertex_type <- getitem data "element_type" ;;
            cls <- registry_getitem (vertex_types rt) vertex_type ;;
            new_vertex rt cls data
          else if String.eqb t "edge" then
            edge_type <- getitem data "_label" ;;
            cls <- registry_getitem (edge_types rt) edge_type ;;
            inV <- getitem data "_inV" ;;
            outV <- getitem data "_outV" ;;
            new_edge rt cls inV outV data
          else raise (TypeError (CantDeserialize dtype))
      | _ => raise (TypeError (CantDeserialize dtype))
      end
  | _ => raise AttributeError
  end.

End Element.

Module Vertex.

(** The body of the [try] in the loop of [all]: on [KeyError] the handler
    formats its message with ['...{}...'.format()], which has no argument
    for the field and raises [IndexError] itself. *)
Definition deserialize_row (rt : runtime) (r : json) : result element :=
  match Element.deserialize rt r with
  | inl (KeyError _) => raise IndexError
  | other => other
  end.

(** [all(vids)] with [as_dict] left at its default.  [vids] is [None] for
    an argument that is neither a list nor a tuple; an identifier is given
    by its [str()]. *)
Definition all (rt : runtime) (vids : option (list string)) : M (list element) :=
  match vids with
  | None => raiseST (ThunderdomeQueryError "vids must be of type list or tuple")
  | Some vids =>
      let strvids := vids in
      let qs := ["vids.collect{g.V(" +:+ dq +:+ "vid" +:+ dq +:+ ", it).toList()[0]}"] in
      results <- execute_query (join_lines qs) {[ "vids" := JList (JStr <$> strvids) ]} true ;;
      let results := List.filter truthy results in
      if negb (length results =? length vids)%nat then
        raiseST (ThunderdomeQueryError
                   "the number of results don't match the number of vids requested")
      else
        for_each (fun r => lift (deserialize_row rt r)) results
  end.

(** [get(vid)].  The handler catches [ThunderdomeQueryError] only. *)
Definition get (rt : runtime) (vid : string) : M element :=
  try_except
    (results <- all rt (Some [vid]) ;;
     if (1 <? length results)%nat then raiseST MultipleObjectsReturned
     else match results with
          | r :: _ => ret r
          | [] => raiseST IndexError
          end)
    (fun e => match e with
              | ThunderdomeQueryError _ => raiseST DoesNotExist
              | _ => raiseST e
              end).

Definition get_by_eid (rt : runtime) (eid : json) : M element :=
  results <- execute_query "g.v(eid)" {[ "eid" := eid ]} true ;;
  match results with
  | [] => raiseST DoesNotExist
  | r :: _ => lift (Element.deserialize rt r)
  end.

Definition delete_query : string :=
  nl +:+ "        g.removeVertex(g.v(eid))" +:+ nl +:+
  "        g.stopTransaction(SUCCESS)" +:+ nl +:+ "        ".

Definition delete (self : element) : M unit :=
  if is_None (element_eid self) then
    raiseST (ThunderdomeQueryError "Can't delete vertices that haven't been saved")
  else
    results <- execute_query delete_query {[ "eid" := element_eid self ]} true ;;
    ret tt.

(** The loop of [save] over the columns. *)
Definition save_fields (h : loc -> Column) (values : gmap string json)
    (cols : list (string * loc)) (qs : list string) (params : gmap string json)
    : list string * gmap string json :=
  fold_left
    (fun (st : list string * gmap string json) kv =>
       let '(name, col) := kv in
       let val := dict_get values name in
       let valname := name +:+ "_val" in
       ((st.1 ++ ["v.setProperty(" +:+ dq +:+ format_opt (db_field_name (h col)) +:+ dq
                  +:+ ", " +:+ valname +:+ ")"])%list,
        <[valname := val]> st.2))
    cols (qs, params).

(** The start of the script of [save]: a new vertex is added, a saved one
    is addressed by identifier. *)
Definition save_head (self : element) : list string * gmap string json :=
  if is_None (element_eid self) then (["v = g.addVertex()"], ∅)
  else (["v = g.v(eid)"], {[ "eid" := element_eid self ]}).

(** The script and the parameters [save] hands to [execute_query], given
    the field values [as_dict] returned. *)
Definition save_query (rt : runtime) (self : element) (values : gmap string json)
    : list string * gmap string json :=
  let '(qs, params) := save_head self in
  let qs := qs ++ ["v.setProperty(" +:+ dq +:+ "element_type" +:+ dq +:+ ", element_type)"] in
  let params := <["element_type" := JStr (get_element_type (element_cls self))]> params in
  let '(qs, params) :=
    save_fields (heap rt) values (_columns (element_cls self)) qs params in
  let qs := qs ++ ["g.stopTransaction(SUCCESS)"] in
  let qs := qs ++ ["g.getVertex(v)"] in
  (qs, params).

Definition save (rt : runtime) (self : element) : M element :=
  self <- lift (BaseElement.validate rt self) ;;
  values <- lift (BaseElement.as_dict rt self) ;;
  let '(qs, params) := save_query rt self values in
  results <- execute_query (join_lines qs) params true ;;
  match results with
  | [r] =>
      match r with
      | JObj d => ret (set_eid self (dict_get d "_id"))
      | _ => raiseST AttributeError
      end
  | _ => raiseST AssertionError
  end.

(** [cls.create(...)]: the constructor with the keyword arguments, then
    [save]. *)
Definition create (rt : runtime) (cls : klass) (values : gmap string json) : M element :=
  self <- lift (Element.new_vertex rt cls values) ;;
  save rt self.

Definition _simple_traversal (rt : runtime) (self : element) (operation : string)
    (label : json) : M (list element) :=
  results <-
    (if truthy label then
       execute_query ("g.v(eid)." +:+ operation +:+ "(lbl)")
                     (<["lbl" := label]> {[ "eid" := element_eid self ]}) true
     else
       execute_query ("g.v(eid)." +:+ operation +:+ "()")
                     {[ "eid" := element_eid self ]} true) ;;
  for_each (fun r => lift (Element.deserialize rt r)) results.

Definition outV (rt : runtime) (self : element) (label : json) : M (list element) :=
  _simple_traversal rt self "out" label.

Definition inV (rt : runtime) (self : element) (label : json) : M (list element) :=
  _simple_traversal rt self "in" label.

Definition outE (rt : runtime) (self : element) (label : json) : M (list element) :=
  _simple_traversal rt self "outE" label.

Definition inE (rt : runtime) (self : element) (label : json) : M (list element) :=
  _simple_traversal rt self "inE" label.

End Vertex.

Module Edge.

Definition validate (rt : runtime) (self : element) : result element :=
  match self with
  | VertexObj _ _ _ => raise AttributeError
  | EdgeObj _ eid _ _inV _outV =>
      (if is_None eid then
         if ep_is_None _inV then
           raise (ValidationError "in vertex must be set before saving new edges")
         else if ep_is_None _outV then
           raise (ValidationError "out vertex must be set before saving new edges")
         else ret tt
       else ret tt) ;;;
      BaseElement.validate rt self
  end.

Definition _simple_traversal (rt : runtime) (self : element) (operation : string)
    : M (list element) :=
  results <- execute_query ("g.e(eid)." +:+ operation +:+ "()")
                           {[ "eid" := element_eid self ]} true ;;
  for_each (fun r => lift (Element.deserialize rt r)) results.

(** The property [inV]: what it returns, and [self] with what it stored in
    [self._inV]. *)
Definition inV (rt : runtime) (self : element) : M (endpoint * element) :=
  match self with
  | VertexObj _ _ _ => raiseST AttributeError
  | EdgeObj cls eid vals _inV _outV =>
      match _inV with
      | EpVal v =>
          if is_None v then
            l <- _simple_traversal rt self "inV" ;;
            ret (EpList l, EdgeObj cls eid vals (EpList l) _outV)
          else if is_int v then
            e <- Vertex.get_by_eid rt v ;;
            ret (EpObj e, EdgeObj cls eid vals (EpObj e) _outV)
          else ret (_inV, self)
      | _ => ret (_inV, self)
      end
  end.

Definition outV (rt : runtime) (self : element) : M (endpoint * element) :=
  match self with
  | VertexObj _ _ _ => raiseST AttributeError
  | EdgeObj cls eid vals _inV _outV =>
      match _outV with
      | EpVal v =>
          if is_None v then
            l <- _simple_traversal rt self "outV" ;;
            ret (EpList l, EdgeObj cls eid vals _inV (EpList l))
          else if is_int v then
            e <- Vertex.get_by_eid rt v ;;
            ret (EpObj e, EdgeObj cls eid vals _inV (EpObj e))
          else ret (_outV, self)
      | _ => ret (_outV, self)
      end
  end.

(** The part of [save] that starts the script: a new edge is created
    between its two endpoints, a saved one is addressed by identifier. *)
Definition save_head (rt : runtime) (self : element)
    : M (list string * gmap string json * element) :=
  let params : gmap string json := {[ "label" := JStr (get_label (element_cls self)) ]} in
  if is_None (element_eid self) then
    let qs := ["v1 = g.v(v1eid)"; "v2 = g.v(v2eid)"; "e = g.addEdge(v1, v2, label)"] in
    p1 <- inV rt self ;;
    v1eid <- lift (endpoint_eid p1.1) ;;
    let params := <["v1eid" := v1eid]> params in
    p2 <- outV rt p1.2 ;;
    v2eid <- lift (endpoint_eid p2.1) ;;
    let params := <["v2eid" := v2eid]> params in
    ret (qs, params, p2.2)
  else
    ret (["e = g.e(eid)"], <["eid" := element_eid self]> params, self).

(** The loop of [save] over the columns: one [setProperty] line and one
    bound parameter per field. *)
Definition save_fields (h : loc -> Column) (values : gmap string json)
    (cols : list (string * loc)) (qs : list string) (params : gmap string json)
    : list string * gmap string json :=
  fold_left
    (fun (st : list string * gmap string json) kv =>
       let '(name, col) := kv in
       let val := dict_get values name in
       let valname := name +:+ "_val" in
       ((st.1 ++ ["e.setProperty(" +:+ dq +:+ format_opt (db_field_name (h col)) +:+ dq
                  +:+ ", " +:+ valname +:+ ")"])%list,
        <[valname := val]> st.2))
    cols (qs, params).

Definition save (rt : runtime) (self : element) : M element :=
  self <- lift (validate rt self) ;;
  head <- save_head rt self ;;
  let '(qs, params, self) := head in
  values <- lift (BaseElement.as_dict rt self) ;;
  let '(qs, params) :=
    save_fields (heap rt) values (_columns (element_cls self)) qs params in
  let qs := (qs ++ ["g.stopTransaction(SUCCESS)"])%list in
  let qs := (qs ++ ["g.e(e.id)"])%list in
  results <- execute_query (join_lines qs) params true ;;
  match results with
  | [r] =>
      match r with
      | JObj d => ret (set_eid self (dict_get d "_id"))
      | _ => raiseST AttributeError
      end
  | _ => raiseST AssertionError
  end.

Definition delete_query : string :=
  nl +:+ "        g.removeEdge(g.e(eid))" +:+ nl +:+
  "        g.stopTransaction(SUCCESS)" +:+ nl +:+ "        ".

Definition delete (self : element) : M unit :=
  if is_None (element_eid self) then
    raiseST (ThunderdomeQueryError "Can't delete vertices that haven't been saved")
  else
    results <- execute_query delete_query {[ "eid" := element_eid self ]} true ;;
    ret tt.

End Edge.

(* ===================================================================== *)
(** * groovy.py: scanning a source file for function definitions          *)
(* ===================================================================== *)

Module groovy.

Definition is_newline (c : ascii) : bool := (nat_of_ascii c =? 10)%nat.

(** [data.split("\n")] *)
Fixpoint split_lines (data : string) : list string :=
  match data with
  | EmptyString => [EmptyString]
  | String c rest =>
      if is_newline c then EmptyString :: split_lines rest
      else match split_lines rest with
           | l :: ls => String c l :: ls
           | [] => [String c EmptyString]
           end
  end.

Fixpoint contains_char (c : ascii) (s : string) : bool :=
  match s with
  | EmptyString => false
  | String c' rest => Ascii.eqb c c' || contains_char c rest
  end.

Fixpoint strip_prefix (p s : string) : option string :=
  match p, s with
  | EmptyString, _ => Some s
  | String a p', String b s' => if Ascii.eqb a b then strip_prefix p' s' else None
  | String _ _, EmptyString => None
  end.

(** [re.match(r'^def.*\{', line)] on a line without newline. *)
Definition FuncDefnRegexp (line : string) : bool :=
  match strip_prefix "def" line with
  | Some rest => contains_char "{" rest
  | None => false
  end.

(** [re.match(r'^\}$', line)] on a line without newline. *)
Definition FuncEndRegexp (line : string) : bool := String.eqb line "}".

(** The loop over [file_lines]. *)
Fixpoint scan (file_lines : list string) (fn_lines : string) (all_fns : list string)
    : list string :=
  match file_lines with
  | [] => all_fns
  | line :: rest =>
      if (0 <? String.length fn_lines)%nat then
        if FuncEndRegexp line then
          scan rest EmptyString (all_fns ++ [fn_lines +:+ line +:+ nl])%list
        else scan rest (fn_lines +:+ line +:+ nl) all_fns
      else if FuncDefnRegexp line then scan rest (fn_lines +:+ line +:+ nl) all_fns
      else scan rest fn_lines all_fns
  end.

(** ** The grammar [FuncDefn]

    Modelled from the documented behaviour of the parsing library: every
    token is matched after skipping blanks, tabs, newlines and carriage
    returns; a keyword must not be followed by an identifier character
    (letter, digit, [_] or [$]); a delimited list needs one element at
    least and drops its commas; matching a prefix of the input is enough. *)

Definition is_ws (c : ascii) : bool :=
  let n := nat_of_ascii c in
  ((n =? 32) || (n =? 10) || (n =? 9) || (n =? 13))%nat.

Definition is_digit (c : ascii) : bool :=
  let n := nat_of_ascii c in ((48 <=? n) && (n <=? 57))%nat.

Definition is_alnum (c : ascii) : bool := is_lower c || is_upper c || is_digit c.

(** [\w] *)
Definition is_word (c : ascii) : bool := is_alnum c || Ascii.eqb c "_".

Definition is_ident_char (c : ascii) : bool := is_word c || Ascii.eqb c "$".

Fixpoint skip_ws (s : string) : string :=
  match s with
  | String c rest => if is_ws c then skip_ws rest else s
  | EmptyString => s
  end.

Fixpoint span_word (s : string) : string * string :=
  match s with
  | String c rest =>
      if is_word c then let '(w, r) := span_word rest in (String c w, r)
      else (EmptyString, s)
  | EmptyString => (EmptyString, EmptyString)
  end.

Definition KeywordDef (s : string) : option string :=
  match strip_prefix "def" (skip_ws s) with
  | Some (String c _ as rest) => if is_ident_char c then None else Some rest
  | Some EmptyString => Some EmptyString
  | None => None
  end.

(** [Regex(r'[A-Za-z0-9]\w*')] *)
Definition VarName (s : string) : option (string * string) :=
  match skip_ws s with
  | String c rest =>
      if is_alnum c then let '(w, r) := span_word rest in Some (String c w, r)
      else None
  | EmptyString => None
  end.

Definition Literal (lit : string) (s : string) : option string :=
  strip_prefix lit (skip_ws s).

(** [ZeroOrMore(Suppress(",") + VarName)]: stops, without consuming, at the
    first repetition that does not match. *)
Fixpoint more_names (fuel : nat) (s : string) : list string * string :=
  match fuel with
  | O => ([], s)
  | S fuel =>
      match Literal "," s with
      | Some s1 =>
          match VarName s1 with
          | Some (a, s2) => let '(l, r) := more_names fuel s2 in (a :: l, r)
          | None => ([], s)
          end
      | None => ([], s)
      end
  end.

Definition delimitedList (s : string) : option (list string * string) :=
  match VarName s with
  | Some (a, s1) => let '(l, r) := more_names (String.length s1) s1 in Some (a :: l, r)
  | None => None
  end.

(** [FuncDefn.parseString(data)]: the function name and the parameter
    names, or [None] when the parser raises. *)
Definition FuncDefn (data : string) : option (string * list string) :=
  s ← KeywordDef data;
  p ← VarName s;
  s ← Literal "(" p.2;
  a ← delimitedList s;
  s ← Literal ")" a.2;
  _ ← Literal "{" s;
  Some (p.1, a.1).

(** [re.sub(r'[^\{]+\{', '', data)]: [run] is the run of characters other
    than an opening brace read since the last match or brace. *)
Fixpoint strip_heads (data : string) (run : string) : string :=
  match data with
  | EmptyString => run
  | String c rest =>
      if Ascii.eqb c "{" then
        match run with
        | EmptyString => String c (strip_heads rest EmptyString)
        | _ => strip_heads rest EmptyString
        end
      else strip_heads rest (run +:+ String c EmptyString)
  end.

(** [re.sub(r'\}$', '', s)]: [$] matches at the end and before a final
    newline. *)
Fixpoint strip_closing (s : string) : string :=
  match s with
  | EmptyString => EmptyString
  | String c rest =>
      if Ascii.eqb c "}" && (String.eqb rest EmptyString || String.eqb rest nl)
      then rest
      else String c (strip_closing rest)
  end.

Record GroovyFunction := {
  name : string;
  args : list string;
  body : string;
  defn : string
}.

(** What [GroovyFunctionParser.parse] returns: the named tuple, or the
    empty dictionary of its [except] branch. *)
Inductive parsed :=
| Function (f : GroovyFunction)
| EmptyDict.

Module GroovyFunctionParser.

Definition parse (data : string) : parsed :=
  match FuncDefn data with
  | Some (fname, fargs) =>
      let fn_body := strip_closing (strip_heads data EmptyString) in
      Function {| name := fname; args := fargs; body := fn_body; defn := data |}
  | None => EmptyDict
  end.

End GroovyFunctionParser.

(** [parse(file)], given what [f.read()] returned. *)
Definition parse (data : string) : list parsed :=
  let file_lines := split_lines data in
  let all_fns := scan file_lines EmptyString [] in
  fold_left (fun func_results fn => func_results ++ [GroovyFunctionParser.parse fn])%list
            all_fns [].

End groovy.
Import groovy.

(* ===================================================================== *)
(** * gremlin.py: bound Groovy functions                                  *)
(* ===================================================================== *)

Module gremlin.

Record BaseGremlinMethod := {
  is_configured : bool;
  method_name : option string;
  classmethod : bool;
  default_args : gmap string json;
  attr_name : option string;
  arg_list : list string;
  function_body : option string;
  function_def : option string
}.

(** [self.method_name or self.attr_name] *)
Definition method_name_or (self : BaseGremlinMethod) (attr_name : string) : string :=
  match method_name self with
  | Some m => if String.eqb m "" then attr_name else m
  | None => attr_name
  end.

(** The search loop of [configure_method]: it reads [.name] off every entry
    up to the one it looks for. *)
Fixpoint find_method (entries : list parsed) (method_name : string)
    : result (option GroovyFunction) :=
  match entries with
  | [] => ret None
  | EmptyDict :: _ => raise AttributeError
  | Function grem_obj :: rest =>
      if String.eqb (name grem_obj) method_name then ret (Some grem_obj)
      else find_method rest method_name
  end.

(** [for arg in gremlin_obj.args: ...; self.arg_list.append(arg)] *)
Fixpoint append_args (fargs : list string) : ST BaseGremlinMethod unit :=
  match fargs with
  | [] => ret tt
  | arg :: rest =>
      fun self =>
        if bool_decide (arg ∈ arg_list self) then
          (inl (ThunderdomeGremlinException
                  ("'" +:+ arg +:+ "' defined more than once in gremlin method arguments")),
           self)
        else
          append_args rest
            {| is_configured := is_configured self; method_name := method_name self;
               classmethod := classmethod self; default_args := default_args self;
               attr_name := attr_name self; arg_list := arg_list self ++ [arg];
               function_body := function_body self; function_def := function_def self |}
  end.

(** [configure_method(klass, attr_name)], given the resolved [path] and the
    text of the file found there. *)
Definition configure_method (path source : string) (attr : string)
    : ST BaseGremlinMethod unit :=
  fun self =>
    let mname := method_name_or self attr in
    let self := {| is_configured := is_configured self; method_name := Some mname;
                   classmethod := classmethod self; default_args := default_args self;
                   attr_name := Some attr; arg_list := arg_list self;
                   function_body := function_body self;
                   function_def := function_def self |} in
    if is_configured self then (inr tt, self)
    else
      match find_method (groovy.parse source) mname with
      | inl e => (inl e, self)
      | inr None =>
          (inl (ThunderdomeGremlinException
                  ("The method'" +:+ mname +:+ "' wasnt found in " +:+ path)), self)
      | inr (Some gremlin_obj) =>
          match append_args (args gremlin_obj) self with
          | (inl e, self) => (inl e, self)
          | (inr _, self) =>
              (inr tt,
               {| is_configured := is_configured self; method_name := method_name self;
                  classmethod := classmethod self; default_args := default_args self;
                  attr_name := attr_name self; arg_list := arg_list self;
                  function_body := Some (body gremlin_obj);
                  function_def := Some (defn gremlin_obj) |})
          end
      end.

(** [for arg in args: params[arglist.pop(0)] = arg] *)
Fixpoint bind_positional (args : list json) (arglist : list string)
    (params : gmap string json) : result (list string * gmap string json) :=
  match args with
  | [] => ret (arglist, params)
  | arg :: rest =>
      match arglist with
      | [] => raise IndexError
      | a :: arglist => bind_positional rest arglist (<[a := arg]> params)
      end
  end.

(** [arglist.pop(arglist.index(k))] for a [k] that is in the list. *)
Fixpoint pop_name (k : string) (arglist : list string) : list string :=
  match arglist with
  | [] => []
  | a :: rest => if String.eqb a k then rest else a :: pop_name k rest
  end.

(** [for k,v in kwargs.items(): ...] *)
Fixpoint bind_keywords (an : option string) (kwargs : list (string * json))
    (arglist : list string) (params : gmap string json)
    : result (gmap string json) :=
  match kwargs with
  | [] => ret params
  | (k, v) :: rest =>
      if bool_decide (k ∈ arglist) then
        bind_keywords an rest (pop_name k arglist) (<[k := v]> params)
      else if bool_decide (is_Some (params !! k)) then
        raise (TypeError (MultipleValues an k))
      else raise (TypeError (UnexpectedKeyword an k))
  end.

(** The argument checks of [__call__], up to the parameter map it hands to
    the query engine.  [eid] is [instance.eid]; [kwargs] lists the keyword
    arguments in the order the dictionary yields them. *)
Definition bind_arguments (self : BaseGremlinMethod) (eid : json)
    (args : list json) (kwargs : list (string * json))
    : result (gmap string json) :=
  let args := if classmethod self then args else eid :: args in
  let params := default_args self in
  if (length (arg_list self) <? length (args ++ kwargs.*2))%nat then
    raise (TypeError (TakesArgs (attr_name self) (length (arg_list self)) (length args)))
  else
    p <- bind_positional args (arg_list self) params ;;
    bind_keywords (attr_name self) kwargs p.1 p.2.

Definition __call__ (self : BaseGremlinMethod) (eid : json)
    (args : list json) (kwargs : list (string * json)) : M (list json) :=
  params <- lift (bind_arguments self eid args kwargs) ;;
  match function_body self with
  | Some function_body => execute_query function_body params true
  | None => raiseST (TypeError NoneConcat)
  end.

(** [GremlinMethod.__call__]: the rows of the base method, deserialized. *)
Definition GremlinMethod_call (rt : runtime) (self : BaseGremlinMethod) (eid : json)
    (args : list json) (kwargs : list (string * json)) : M (list element) :=
  results <- __call__ self eid args kwargs ;;
  for_each (fun r => lift (Element.deserialize rt r)) results.

End gremlin.

Import gremlin.

(* ===================================================================== *)
(** * spec.py: parsing a type specification                               *)
(* ===================================================================== *)

Module spec.

(** The [ValueError]s of the parser, with their formatted parts. *)
Inductive value_error :=
| AlreadyProperty (name : json)
| InvalidType (type : json)
| MissingPrimaryKey (primary_key label : json).

(** The exceptions the parser ends in; the message of a [TypeError] or a
    [KeyError] other than the key is not kept. *)
Inductive error :=
| SpecTypeError
| SpecKeyError (key : string)
| SpecValueError (e : value_error).

Definition res (A : Type) : Type := error + A.

#[export] Instance res_monad : Monad res := {
  ret := fun A a => inr a;
  bind := fun A B m k => match m with inl e => inl e | inr a => k a end
}.

(** A value as a dictionary key: [True] and [1] are the same key, a list or
    a mapping is none. *)
Inductive key :=
| KNone
| KInt (n : Z)
| KStr (s : string).

#[export] Instance key_eq_dec : EqDecision key.
Proof. solve_decision. Defined.

Definition key_of (v : json) : option key :=
  match v with
  | JNull => Some KNone
  | JBool b => Some (KInt (if b then 1 else 0))
  | JNum n => Some (KInt n)
  | JStr s => Some (KStr s)
  | JList _ | JObj _ => None
  end.

Record Property := {
  name : json;
  data_type : json;
  functional : json
}.

Record Edge := {
  label : json;
  primary_key : json
}.

Inductive statement :=
| PropertyStmt (p : Property)
| EdgeStmt (e : Edge).

(** [stmt[k]] *)
Definition item (stmt : gmap string json) (k : string) : res json :=
  match stmt !! k with
  | Some v => inr v
  | None => inl (SpecKeyError k)
  end.

(** [parse_property]; [_properties] is the key set of [self._properties],
    which the method extends when it succeeds. *)
Definition parse_property (stmt : gmap string json) (_properties : list key)
    : res (Property * list key) :=
  n <- item stmt "name" ;;
  match key_of n with
  | None => inl SpecTypeError
  | Some k =>
      if bool_decide (k ∈ _properties) then inl (SpecValueError (AlreadyProperty n))
      else
        dt <- item stmt "data_type" ;;
        let prop := {| name := n; data_type := dt;
                       functional := default (JBool false) (stmt !! "functional") |} in
        ret (prop, k :: _properties)
  end.

Definition parse_edge (stmt : gmap string json) : res Edge :=
  l <- item stmt "label" ;;
  ret {| label := l; primary_key := dict_get stmt "primary_key" |}.

(** [parse_statement]; a statement that is not a mapping ends in a
    [TypeError], from the test for ['type'] or from the subscript after
    it. *)
Definition parse_statement (stmt : json) (_properties : list key)
    : res (statement * list key) :=
  match stmt with
  | JObj stmt =>
      match stmt !! "type" with
      | None => inl SpecTypeError
      | Some t =>
          if is_str "property" t then
            p <- parse_property stmt _properties ;;
            ret (PropertyStmt p.1, p.2)
          else if is_str "edge" t then
            e <- parse_edge stmt ;;
            ret (EdgeStmt e, _properties)
          else inl (SpecValueError (InvalidType t))
      end
  | _ => inl SpecTypeError
  end.

(** [[self.parse_statement(x) for x in self._specs]] *)
Fixpoint parse_statements (specs : list json) (_properties : list key)
    : res (list statement) :=
  match specs with
  | [] => ret []
  | x :: rest =>
      p <- parse_statement x _properties ;;
      l <- parse_statements rest p.2 ;;
      ret (p.1 :: l)
  end.

(** The keys of the dictionary [props] of [validate]. *)
Fixpoint property_keys (results : list statement) : res (list key) :=
  match results with
  | [] => ret []
  | PropertyStmt p :: rest =>
      match key_of (name p) with
      | None => inl SpecTypeError
      | Some k => l <- property_keys rest ;; ret (k :: l)
      end
  | EdgeStmt _ :: rest => property_keys rest
  end.

Definition edges (results : list statement) : list Edge :=
  omap (fun x => match x with EdgeStmt e => Some e | PropertyStmt _ => None end) results.

Definition check_edge (props : list key) (e : Edge) : res unit :=
  if truthy (primary_key e) then
    match key_of (primary_key e) with
    | None => inl SpecTypeError
    | Some k =>
        if bool_decide (k ∈ props) then ret tt
        else inl (SpecValueError (MissingPrimaryKey (primary_key e) (label e)))
    end
  else ret tt.

Fixpoint check_edges (props : list key) (es : list Edge) : res unit :=
  match es with
  | [] => ret tt
  | e :: rest => check_edge props e ;;; check_edges props rest
  end.

Definition validate (results : list statement) : res unit :=
  let es := edges results in
  props <- property_keys results ;;
  check_edges props es.

(** [parse()], for the statements [_load_spec] read. *)
Definition parse (specs : list json) : res (list statement) :=
  results <- parse_statements specs [] ;;
  validate results ;;;
  ret results.

End spec.

(* ===================================================================== *)
(** * Vocabulary of the properties                                        *)
(* ===================================================================== *)

(** The wire names of an ordered field dictionary, in its order. *)
Definition wire_names (h : loc -> Column) (column_dict : list (string * loc))
    : list (option string) :=
  (fun kv => db_field_name (h kv.2)) <$> column_dict.

(** Two fields of the dictionary resolve to the same wire name. *)
Definition shares_wire_name (h : loc -> Column) (column_dict : list (string * loc))
    : Prop :=
  exists i j f1 c1 f2 c2,
    i <> j /\ column_dict !! i = Some (f1, c1) /\ column_dict !! j = Some (f2, c2) /\
    db_field_name (h c1) = db_field_name (h c2).

Definition is_duplicate_column_error (e : exn) : Prop :=
  match e with ModelException _ _ => True | _ => False end.

(** The discriminator a class statement computes, and the registry it is
    entered in. *)
Definition discriminator (d : declaration) : string :=
  match d with
  | DeclareVertex name _ _ m | DeclareEdge name _ _ m =>
      match m with
      | Some s => if String.eqb s "" then lower (ccase name) else lower s
      | None => lower (ccase name)
      end
  end.





(** A row's tag names a class of the registry. *)
Definition registered (reg : gmap string klass) (tag : option json) : Prop :=
  exists t cls, tag = Some (JStr t) /\ reg !! t = Some cls.

(** The exceptions [Element.deserialize] signals a bad row with. *)
Definition is_deserialization_error (e : exn) : Prop :=
  match e with
  | TypeError _ | KeyError _ => True
  | _ => False
  end.

Definition is_vertex (e : element) : Prop :=
  match e with VertexObj _ _ _ => True | _ => False end.

Definition is_edge (e : element) : Prop :=
  match e with EdgeObj _ _ _ _ _ => True | _ => False end.

(** The script and parameters of the batched fetch for [vids]. *)
Definition fetch_call (vids : list string) : call :=
  ("g.stopTransaction(FAILURE)" +:+ nl +:+
   "vids.collect{g.V(" +:+ dq +:+ "vid" +:+ dq +:+ ", it).toList()[0]}",
   {[ "vids" := JList (JStr <$> vids) ]}).

Definition non_null (rows : list json) : list json :=
  List.filter (fun r => negb (is_None r)) rows.

(** An entry of the signature sequence is a parsed signature. *)
Definition is_signature (p : parsed) : Prop :=
  match p with Function _ => True | EmptyDict => False end.

(** A name the grammar's [VarName] can produce. *)
Definition is_var_name (s : string) : Prop :=
  match s with
  | String c rest => is_alnum c = true /\ (span_word rest).1 = rest
  | EmptyString => False
  end.

(** The blocks the line scan captures from a file. *)
Definition captured_blocks (data : string) : list string :=
  scan (split_lines data) EmptyString [].

(** The arguments of a call as Python would bind them: keywords over
    positionals over defaults. *)
Definition merged_params (self : BaseGremlinMethod) (args : list json)
    (kwargs : list (string * json)) : gmap string json :=
  list_to_map kwargs ∪ list_to_map (zip (arg_list self) args) ∪ default_args self.

Definition positional (self : BaseGremlinMethod) (eid : json) (args : list json)
    : list json :=
  if classmethod self then args else eid :: args.

(* ===================================================================== *)
(** * Sample data                                                         *)
(* ===================================================================== *)

Module samples.

Definition text (db : option string) (pos : nat) : Column :=
  {| db_field := db; column_name := None; position := pos; can_delete := true;
     to_python := fun v => inr v; to_database := fun v => inr v;
     validate := fun v => inr v |}.

(** The columns of the test classes: [vid] at 0, [words] at 1 and
    [content], stored as [words], at 2; any other place holds a plain text
    column. *)
Definition heap0 : loc -> Column :=
  fun l => match l with
           | 0 => set_column_name (text None 0) "vid"
           | 2 => text (Some "words") 2
           | 4 => text (Some "words_and_whatnot") 4
           | 5 => text (Some "integers_etc") 5
           | n => text None n
           end.

Definition rt0 : runtime :=
  {| heap := heap0; vertex_types := ∅; edge_types := ∅ |}.

(** The base class [Vertex], as its own class statement leaves it. *)
Definition Vertex_cls : klass :=
  {| __name__ := "Vertex"; manual_name := None; _columns := [("vid", 0)];
     _db_map := {[ Some "vid" := "vid" ]}; _gremlin_methods := [] |}.

(** [class BadNames(Vertex): words = Text(); content = Text(db_field='words')] *)
Definition BadNames_attrs : list (string * attr) :=
  [("content", AColumn 2); ("words", AColumn 1)].

(** [class WildDBNames(Vertex)] of the test suite, its attributes in an
    order the dictionary might yield them. *)
Definition WildDBNames_attrs : list (string * attr) :=
  [("numbers", AColumn 5); ("__module__", AOther (JStr "tests")); ("content", AColumn 4)].

(** [class Stuff(Vertex): num = Integer()] *)
Definition Stuff_attrs : list (string * attr) := [("num", AColumn 3)].

Definition person : klass :=
  {| __name__ := "Person"; manual_name := None; _columns := [("vid", 0)];
     _db_map := {[ Some "vid" := "vid" ]}; _gremlin_methods := [] |}.

Definition knows : klass :=
  {| __name__ := "Knows"; manual_name := None; _columns := [];
     _db_map := ∅; _gremlin_methods := [] |}.

Definition rt1 : runtime :=
  {| heap := heap0; vertex_types := {[ "person" := person ]};
     edge_types := {[ "knows" := knows ]} |}.

Definition person_fields (id : Z) : gmap string json :=
  <["_id" := JNum id]> (<["_type" := JStr "vertex"]>
    {[ "element_type" := JStr "person" ]}).

Definition person_row (id : Z) : json := JObj (person_fields id).

(** A vertex row whose element type no class has claimed. *)
Definition ghost_fields : gmap string json :=
  <["_id" := JNum 9]> (<["_type" := JStr "vertex"]>
    {[ "element_type" := JStr "ghost" ]}).

(** An edge row labelled [knows] between the elements 1 and 2. *)
Definition knows_fields : gmap string json :=
  <["_id" := JNum 5]> (<["_type" := JStr "edge"]> (<["_label" := JStr "knows"]>
    (<["_inV" := JNum 1]> {[ "_outV" := JNum 2 ]}))).

(** A row that is neither a vertex nor an edge. *)
Definition hyperedge_fields : gmap string json :=
  {[ "_type" := JStr "hyperedge" ]}.

(** A service that answers every script with the same rows. *)
Definition constant_world (rows : list json) : world :=
  {| remote := fun _ _ => Status200 rows; calls := [] |}.

Definition unsaved_vertex : element := VertexObj person JNull ∅.
Definition saved_vertex (id : Z) : element := VertexObj person (JNum id) ∅.
Definition unsaved_edge (a b : endpoint) : element := EdgeObj knows JNull ∅ a b.

(** A source file with one function the grammar rejects (no parameter) and
    one it accepts. *)
Definition source_with_bad_block : string :=
  "def ping() {" +:+ nl +:+ "  g.V.count()" +:+ nl +:+ "}" +:+ nl +:+
  "def greet(name, times) {" +:+ nl +:+ "  g.V(name)" +:+ nl +:+ "}" +:+ nl.

Definition ping_block : string :=
  "def ping() {" +:+ nl +:+ "  g.V.count()" +:+ nl +:+ "}" +:+ nl.

Definition greet_block : string :=
  "def greet(name, times) {" +:+ nl +:+ "  g.V(name)" +:+ nl +:+ "}" +:+ nl.

Definition greet_signature : GroovyFunction :=
  {| name := "greet"; args := ["name"; "times"];
     body := nl +:+ "  g.V(name)" +:+ nl +:+ nl; defn := greet_block |}.

Definition greet : BaseGremlinMethod :=
  {| is_configured := false; method_name := Some "greet"; classmethod := true;
     default_args := ∅; attr_name := Some "greet";
     arg_list := ["name"; "times"]; function_body := Some "g.V(name)";
     function_def := None |}.

(** A method object as [BaseGremlinMethod(classmethod=True)] creates it. *)
Definition fresh_method : BaseGremlinMethod :=
  {| is_configured := false; method_name := None; classmethod := true;
     default_args := ∅; attr_name := None; arg_list := [];
     function_body := None; function_def := None |}.

(** A class statement that binds a Groovy function:
    [class Tagged(Vertex): friends = GremlinMethod()]. *)
Definition Tagged_attrs : list (string * attr) :=
  [("friends", AGremlinMethod false); ("num", AColumn 3)].

(** A person that was built but not saved yet. *)
Definition new_person : element := VertexObj person JNull {[ "vid" := JNull ]}.

(** A function whose body holds a nested block. *)
Definition nested_block : string :=
  "def pick(x) {" +:+ nl +:+ "  if (x) { g.v(x) }" +:+ nl +:+ "}" +:+ nl.

(** [greet] bound with a default for a name that is not a parameter:
    [GremlinMethod(classmethod=True, default_args={'loud': True})]. *)
Definition greet_loud : BaseGremlinMethod :=
  {| is_configured := false; method_name := Some "greet"; classmethod := true;
     default_args := {[ "loud" := JBool true ]}; attr_name := Some "greet";
     arg_list := ["name"; "times"]; function_body := Some "g.V(name)";
     function_def := None |}.

(** [class WildDBNames(Vertex)] of the test suite, declared first in a
    program, and a row of it as the service stores it: under the wire names
    of its fields. *)
Definition wild_declaration : declaration :=
  DeclareVertex "WildDBNames" [Vertex_cls] WildDBNames_attrs None.

Definition rt_wild : runtime := (declare wild_declaration rt0).2.

Definition wild_fields : gmap string json :=
  <["_id" := JNum 3]> (<["_type" := JStr "vertex"]>
    (<["element_type" := JStr "wild_dbnames"]>
      (<["words_and_whatnot" := JStr "hi"]> {[ "integers_etc" := JNum 5 ]}))).

(** A type specification that names the primary key of an edge before it
    declares the property. *)
Definition knows_since_spec : list json :=
  [JObj (<["type" := JStr "edge"]> (<["label" := JStr "knows"]>
           {[ "primary_key" := JStr "since" ]}));
   JObj (<["type" := JStr "property"]> (<["name" := JStr "since"]>
           {[ "data_type" := JStr "Integer" ]}))].

End samples.

(* ===================================================================== *)
(** * Vocabulary of the further properties                                *)
(* ===================================================================== *)

(** Some character of the string is an ASCII capital. *)
Fixpoint has_upper (s : string) : bool :=
  match s with
  | EmptyString => false
  | String c rest => is_upper c || has_upper rest
  end.


Definition declares_gremlin_method (attrs : list (string * attr)) : Prop :=
  exists k b, (k, AGremlinMethod b) ∈ attrs.

(** The parameter names the field loop of [save] binds. *)
Definition value_names (cols : list (string * loc)) : list string :=
  (fun kv => kv.1 +:+ "_val") <$> cols.

(** The answer of the service to the next call. *)
Definition answer (w : world) (c : call) : response := remote w (calls w) c.

(** The call [execute_query] posts for a script and its parameters. *)
Definition posted (query : string) (params : gmap string json) : call :=
  ("g.stopTransaction(FAILURE)" +:+ nl +:+ query, params).

(** The [setProperty] lines of the field loop of [Vertex.save]. *)
Definition vertex_field_lines (h : loc -> Column) (cols : list (string * loc))
    : list string :=
  (fun kv => "v.setProperty(" +:+ dq +:+ format_opt (db_field_name (h kv.2)) +:+ dq
             +:+ ", " +:+ (kv.1 +:+ "_val") +:+ ")") <$> cols.

(** The text of some lines, each followed by a newline. *)
Definition text_of (lines : list string) : string :=
  foldr (fun l acc => l +:+ nl +:+ acc) EmptyString lines.

(** A stretch of the file's lines from a line that opens a definition to
    the first line after it that is a lone closing brace. *)
Definition is_block (file_lines : list string) (b : string) : Prop :=
  exists pre first middle post,
    file_lines = pre ++ first :: middle ++ "}" :: post /\
    b = text_of (first :: middle ++ ["}"]) /\
    FuncDefnRegexp first = true /\
    Forall (fun l => l <> "}") middle.

(** Pieces of text, an opening brace after each, and a tail. *)
Definition heads (segs : list string) (tail : string) : string :=
  foldr (fun s acc => s +:+ "{" +:+ acc) tail segs.

Definition brace_free (s : string) : Prop := contains_char "{" s = false.

(** The string holds no newline. *)
Fixpoint one_line (s : string) : bool :=
  match s with
  | EmptyString => true
  | String c rest => negb (is_newline c) && one_line rest
  end.

(** The two calls of [create_key_index]: the first asks for the indexed
    keys inside a transaction, the second creates the index as it is
    written. *)
Definition index_lookup : call := posted "g.getIndexedKeys(Vertex.class)" ∅.

Definition index_creation (name : string) : call :=
  ("g.createKeyIndex(keyname, Vertex.class); g.stopTransaction(SUCCESS)",
   {[ "keyname" := JStr name ]}).

(** The string has at most one colon once it is stripped. *)
Definition parses_as_host (host : string) : Prop :=
  length (split ":" (strip host)) <= 2.

(* ===================================================================== *)
(** * Properties                                                          *)
(* ===================================================================== *)

Ltac unfold_monad :=
  unfold bind, ret, ST_monad, result_monad, raiseST, raise, lift, try_except in *;
  simpl in *.

(** ** Deleting an element that was never saved *)

Lemma delete_saved_posts_once (self : element) (w : world) :
  is_None (element_eid self) = false ->
  calls (Vertex.delete self w).2 =
    calls w ++ [("g.stopTransaction(FAILURE)" +:+ nl +:+ Vertex.delete_query,
                 {[ "eid" := element_eid self ]})].
Proof.
  intros Hid. unfold Vertex.delete. rewrite Hid.
  unfold_monad. unfold execute_query.
  destruct (remote w (calls w) _); reflexivity.
Qed.

(** C5: [delete] on a vertex or an edge whose [eid] is [None] raises
    [ThunderdomeQueryError] and leaves the world as it was: nothing is
    handed to [execute_query]. *)
Theorem delete_unsaved_raises (self : element) (w : world) :
  element_eid self = JNull ->
  Vertex.delete self w =
    (inl (ThunderdomeQueryError "Can't delete vertices that haven't been saved"), w) /\
  Edge.delete self w =
    (inl (ThunderdomeQueryError "Can't delete vertices that haven't been saved"), w).
Proof.
  intros Hid. unfold Vertex.delete, Edge.delete. rewrite Hid. simpl.
  split; reflexivity.
Qed.

Lemma delete_unsaved_raises_witness :
  Vertex.delete samples.unsaved_vertex (samples.constant_world []) =
    (inl (ThunderdomeQueryError "Can't delete vertices that haven't been saved"),
     samples.constant_world []) /\
  Edge.delete (samples.unsaved_edge (EpVal JNull) (EpVal JNull))
              (samples.constant_world []) =
    (inl (ThunderdomeQueryError "Can't delete vertices that haven't been saved"),
     samples.constant_world []).
Proof.
  split.
  - apply (delete_unsaved_raises samples.unsaved_vertex (samples.constant_world [])).
    reflexivity.
  - apply (delete_unsaved_raises (samples.unsaved_edge (EpVal JNull) (EpVal JNull))
                                 (samples.constant_world [])).
    reflexivity.
Defined.

(** ** Duplicate wire names *)

Lemma check_duplicates_error (h : loc -> Column) (name : string) (vs : list loc)
    (seen : gset (option string)) (e : exn) :
  check_duplicates h name vs seen = inl e -> exists wire, e = ModelException name wire.
Proof.
  revert seen. induction vs as [|v vs IH]; intros seen; simpl.
  - discriminate.
  - case_bool_decide.
    + intros [= <-]. eauto.
    + apply IH.
Qed.

Lemma check_duplicates_passes (h : loc -> Column) (name : string) (vs : list loc)
    (seen : gset (option string)) :
  check_duplicates h name vs seen = inr tt <->
  NoDup ((fun v => db_field_name (h v)) <$> vs) /\
  (forall x, x ∈ (fun v => db_field_name (h v)) <$> vs -> x ∉ seen).
Proof.
  revert seen. induction vs as [|v vs IH]; intros seen; simpl.
  - split; [intros _|reflexivity]. split; [constructor|]. intros x Hx. inversion Hx.
  - case_bool_decide as Hin.
    + split; [discriminate|]. intros [_ Hseen]. exfalso.
      apply (Hseen (db_field_name (h v))); [left|exact Hin].
    + rewrite IH. rewrite NoDup_cons. split.
      * intros [Hnd Hseen]. split; [split; [|exact Hnd]|].
        -- intros Hv. apply (Hseen _ Hv). set_solver.
        -- intros x Hx. apply elem_of_cons in Hx as [->|Hx]; [exact Hin|].
           specialize (Hseen x Hx). set_solver.
      * intros [[Hv Hnd] Hseen]. split; [exact Hnd|].
        intros x Hx. rewrite elem_of_union, elem_of_singleton.
        intros [->|Hs]; [contradiction|]. apply (Hseen x); [by right|exact Hs].
Qed.

Lemma not_NoDup_repeats {A} `{EqDecision A} (l : list A) :
  ~ NoDup l -> exists i j x, i <> j /\ l !! i = Some x /\ l !! j = Some x.
Proof.
  induction l as [|a l IH]; intros Hnd.
  - destruct Hnd. constructor.
  - destruct (decide (a ∈ l)) as [Hin|Hnin].
    + apply list_elem_of_lookup in Hin as [j Hj].
      exists 0, (S j), a. repeat split; [lia|exact Hj].
    + destruct IH as (i & j & x & Hij & Hi & Hj).
      { intros H. apply Hnd. by constructor. }
      exists (S i), (S j), x. repeat split; [lia|exact Hi|exact Hj].
Qed.

Lemma shares_wire_name_NoDup (h : loc -> Column) (column_dict : list (string * loc)) :
  shares_wire_name h column_dict <-> ~ NoDup (wire_names h column_dict).
Proof.
  unfold shares_wire_name, wire_names. split.
  - intros (i & j & f1 & c1 & f2 & c2 & Hij & Hi & Hj & Heq) Hnd.
    apply Hij. eapply NoDup_lookup; [exact Hnd| |].
    + rewrite list_lookup_fmap, Hi. reflexivity.
    + rewrite list_lookup_fmap, Hj. simpl. by rewrite Heq.
  - intros Hnd. apply not_NoDup_repeats in Hnd as (i & j & x & Hij & Hi & Hj).
    rewrite list_lookup_fmap in Hi, Hj.
    destruct (column_dict !! i) as [[f1 c1]|] eqn:Ei; [|discriminate].
    destruct (column_dict !! j) as [[f2 c2]|] eqn:Ej; [|discriminate].
    simpl in Hi, Hj. exists i, j, f1, c1, f2, c2.
    repeat split; try done. congruence.
Qed.

Lemma wire_names_values (h : loc -> Column) (column_dict : list (string * loc)) :
  (fun v => db_field_name (h v)) <$> column_dict.*2 = wire_names h column_dict.
Proof. unfold wire_names. rewrite <- list_fmap_compose. reflexivity. Qed.

(** The schema builder raises [ModelException] exactly when two fields of
    the effective field set share a wire name. *)
Lemma ElementMetaClass_new_duplicates (name : string) (bases : list klass)
    (attrs : list (string * attr)) (manual : option string) (rt : runtime) :
  let eff := effective_columns (heap rt) bases attrs in
  (shares_wire_name eff.1 eff.2 ->
   exists wire, ElementMetaClass_new name bases attrs manual rt =
                  (inl (ModelException name wire), set_heap rt eff.1)) /\
  (~ shares_wire_name eff.1 eff.2 ->
   forall e, (ElementMetaClass_new name bases attrs manual rt).1 = inl e ->
             ~ is_duplicate_column_error e).
Proof.
  unfold ElementMetaClass_new.
  destruct (effective_columns (heap rt) bases attrs) as [h column_dict]. simpl.
  split.
  - intros Hs. apply shares_wire_name_NoDup in Hs.
    destruct (check_duplicates h name column_dict.*2 ∅) as [e|[]] eqn:Hc.
    + apply check_duplicates_error in Hc as [wire ->]. eauto.
    + apply check_duplicates_passes in Hc as [Hnd _].
      rewrite wire_names_values in Hnd. contradiction.
  - intros Hs e. rewrite shares_wire_name_NoDup in Hs.
    destruct (check_duplicates h name column_dict.*2 ∅) as [e'|[]] eqn:Hc.
    + exfalso. apply Hs. intros Hnd.
      assert (check_duplicates h name column_dict.*2 ∅ = inr tt) as Hok.
      { apply check_duplicates_passes. rewrite wire_names_values.
        split; [exact Hnd|]. intros x _. set_solver. }
      congruence.
    + destruct (own_gremlin_methods attrs (inherit _gremlin_methods bases)); simpl.
      * discriminate.
      * intros [= <-]. simpl. tauto.
Qed.

Lemma ElementMetaClass_new_registries (name : string) (bases : list klass)
    (attrs : list (string * attr)) (manual : option string) (rt : runtime) :
  vertex_types (ElementMetaClass_new name bases attrs manual rt).2 = vertex_types rt /\
  edge_types (ElementMetaClass_new name bases attrs manual rt).2 = edge_types rt.
Proof.
  unfold ElementMetaClass_new.
  destruct (effective_columns (heap rt) bases attrs) as [h column_dict].
  destruct (check_duplicates h name column_dict.*2 ∅) as [e|[]]; [done|].
  destruct (configure_methods _); done.
Qed.


(** C1: a class statement whose effective field set (inherited fields,
    then the declared ones) has two fields with the same wire name raises
    [ModelException], from the schema builder and so from the vertex and
    edge metaclasses that start with it, and no class is returned or
    registered; a statement with pairwise distinct wire names never raises
    that error. *)
Theorem duplicate_wire_names_rejected (name : string) (bases : list klass)
    (attrs : list (string * attr)) (manual : option string) (rt : runtime) :
  let eff := effective_columns (heap rt) bases attrs in
  (shares_wire_name eff.1 eff.2 ->
   exists wire,
     ElementMetaClass_new name bases attrs manual rt =
       (inl (ModelException name wire), set_heap rt eff.1) /\
     VertexMetaClass_new name bases attrs manual rt =
       (inl (ModelException name wire), set_heap rt eff.1) /\
     EdgeMetaClass_new name bases attrs manual rt =
       (inl (ModelException name wire), set_heap rt eff.1)) /\
  (~ shares_wire_name eff.1 eff.2 ->
   forall e,
     ((ElementMetaClass_new name bases attrs manual rt).1 = inl e \/
      (VertexMetaClass_new name bases attrs manual rt).1 = inl e \/
      (EdgeMetaClass_new name bases attrs manual rt).1 = inl e) ->
     ~ is_duplicate_column_error e).
Proof.
  intros eff.
  destruct (ElementMetaClass_new_duplicates name bases attrs manual rt) as [Hdup Hok].
  fold eff in Hdup, Hok. split.
  - intros Hs. destruct (Hdup Hs) as [wire Hw]. exists wire.
    unfold VertexMetaClass_new, EdgeMetaClass_new. unfold_monad.
    rewrite Hw. done.
  - intros Hs e. specialize (Hok Hs).
    unfold VertexMetaClass_new, EdgeMetaClass_new. unfold_monad.
    destruct (ElementMetaClass_new name bases attrs manual rt) as [[e'|cls] rt'].
    + simpl in *. intros [H|[H|H]]; apply Hok; exact H.
    + simpl. intros [H|[H|H]]; [discriminate| |].
      * destruct (vertex_types rt' !! get_element_type cls); simpl in H;
          [injection H as <-; simpl; tauto|discriminate].
      * destruct (edge_types rt' !! get_label cls); simpl in H;
          [injection H as <-; simpl; tauto|discriminate].
Qed.

Lemma duplicate_wire_names_rejected_witness :
  (exists wire,
     VertexMetaClass_new "BadNames" [samples.Vertex_cls] samples.BadNames_attrs None
                         samples.rt0 =
       (inl (ModelException "BadNames" wire),
        set_heap samples.rt0
          (effective_columns samples.heap0 [samples.Vertex_cls] samples.BadNames_attrs).1)) /\
  (forall e,
     (ElementMetaClass_new "Stuff" [samples.Vertex_cls] samples.Stuff_attrs None
                           samples.rt0).1 = inl e ->
     ~ is_duplicate_column_error e).
Proof.
  split.
  - destruct (proj1 (duplicate_wire_names_rejected "BadNames" [samples.Vertex_cls]
                       samples.BadNames_attrs None samples.rt0)) as (wire & _ & H & _).
    + exists 1, 2, "words", 1, "content", 2. repeat split; try reflexivity. lia.
    + exists wire. exact H.
  - intros e He.
    apply (proj2 (duplicate_wire_names_rejected "Stuff" [samples.Vertex_cls]
                    samples.Stuff_attrs None samples.rt0)).
    + rewrite shares_wire_name_NoDup. intros H. apply H. vm_compute.
      repeat (constructor; [set_solver|]). constructor.
    + left. exact He.
Defined.

(** The test [test_attempting_to_make_duplicate_column_names_fails]. *)
Example BadNames_fails :
  (VertexMetaClass_new "BadNames" [samples.Vertex_cls] samples.BadNames_attrs None
                       samples.rt0).1 = inl (ModelException "BadNames" (Some "words")).
Proof. reflexivity. Qed.

(** The tests [test_db_map] and [test_proper_table_naming], and the
    discriminators computed from class names. *)
Example WildDBNames_db_map :
  match (VertexMetaClass_new "WildDBNames" [samples.Vertex_cls] samples.WildDBNames_attrs
                             None samples.rt0).1 with
  | inr cls =>
      _db_map cls !! Some "words_and_whatnot" = Some "content" /\
      _db_map cls !! Some "integers_etc" = Some "numbers" /\
      (_columns cls).*1 = ["vid"; "content"; "numbers"] /\
      get_element_type cls = "wild_dbnames"
  | inl _ => False
  end.
Proof. vm_compute. repeat split. Qed.

Example type_names :
  _type_name samples.person None = "person" /\
  _type_name samples.person (Some "Manual_Name") = "manual_name" /\
  lower (ccase "TestModel") = "test_model" /\
  lower (ccase "OtherTestModel") = "other_test_model".
Proof. repeat split. Qed.

(** ** The registries *)











(** ** Polymorphic deserialization *)

Lemma deserialize_vertex_row (rt : runtime) (data : gmap string json) :
  data !! "_type" = Some (JStr "vertex") ->
  Element.deserialize rt (JObj data) =
    (vertex_type <- getitem data "element_type" ;;
     cls <- registry_getitem (vertex_types rt) vertex_type ;;
     Element.new_vertex rt cls data).
Proof. intros H. unfold Element.deserialize. rewrite H. reflexivity. Qed.

Lemma deserialize_edge_row (rt : runtime) (data : gmap string json) :
  data !! "_type" = Some (JStr "edge") ->
  Element.deserialize rt (JObj data) =
    (edge_type <- getitem data "_label" ;;
     cls <- registry_getitem (edge_types rt) edge_type ;;
     inV <- getitem data "_inV" ;;
     outV <- getitem data "_outV" ;;
     Element.new_edge rt cls inV outV data).
Proof. intros H. unfold Element.deserialize. rewrite H. reflexivity. Qed.

Lemma new_vertex_class (rt : runtime) (cls : klass) (data : gmap string json)
    (e : element) :
  Element.new_vertex rt cls data = inr e -> element_cls e = cls /\ is_vertex e.
Proof.
  unfold Element.new_vertex. unfold_monad.
  destruct (BaseElement.init rt cls data) as [err|p]; [discriminate|].
  intros [= <-]. done.
Qed.

Lemma new_edge_class (rt : runtime) (cls : klass) (inV outV : json)
    (data : gmap string json) (e : element) :
  Element.new_edge rt cls inV outV data = inr e -> element_cls e = cls /\ is_edge e.
Proof.
  unfold Element.new_edge. unfold_monad.
  destruct (data !! "inV"), (data !! "outV"); try discriminate.
  destruct (BaseElement.init rt cls data) as [err|p]; [discriminate|].
  intros [= <-]. done.
Qed.

Lemma registry_getitem_unregistered (reg : gmap string klass) (tag : json) :
  ~ registered reg (Some tag) ->
  exists e, registry_getitem reg tag = inl e /\ is_deserialization_error e.
Proof.
  intros Hu. destruct tag as [| | |s| |]; simpl; try (eexists; split; [reflexivity|done]).
  destruct (reg !! s) as [c|] eqn:Hs.
  - exfalso. apply Hu. exists s, c. done.
  - eexists; split; [reflexivity|done].
Qed.

Lemma deserialize_unregistered_vertex (rt : runtime) (data : gmap string json) :
  data !! "_type" = Some (JStr "vertex") ->
  ~ registered (vertex_types rt) (data !! "element_type") ->
  exists e, Element.deserialize rt (JObj data) = inl e /\ is_deserialization_error e.
Proof.
  intros Ht Hu. rewrite deserialize_vertex_row by exact Ht.
  unfold getitem. unfold_monad.
  destruct (data !! "element_type") as [tag|].
  - destruct (registry_getitem_unregistered _ tag Hu) as (e & -> & He). eauto.
  - eexists; split; [reflexivity|done].
Qed.

Lemma deserialize_unregistered_edge (rt : runtime) (data : gmap string json) :
  data !! "_type" = Some (JStr "edge") ->
  ~ registered (edge_types rt) (data !! "_label") ->
  exists e, Element.deserialize rt (JObj data) = inl e /\ is_deserialization_error e.
Proof.
  intros Ht Hu. rewrite deserialize_edge_row by exact Ht.
  unfold getitem. unfold_monad.
  destruct (data !! "_label") as [tag|].
  - destruct (registry_getitem_unregistered _ tag Hu) as (e & -> & He). eauto.
  - eexists; split; [reflexivity|done].
Qed.

Lemma deserialize_unknown_type (rt : runtime) (data : gmap string json) :
  data !! "_type" <> Some (JStr "vertex") ->
  data !! "_type" <> Some (JStr "edge") ->
  Element.deserialize rt (JObj data) = inl (TypeError (CantDeserialize (data !! "_type"))).
Proof.
  intros Hv He. unfold Element.deserialize.
  destruct (data !! "_type") as [[| | |t| |]|] eqn:Ht; try reflexivity.
  destruct (String.eqb t "vertex") eqn:E1.
  { apply String.eqb_eq in E1. congruence. }
  destruct (String.eqb t "edge") eqn:E2.
  { apply String.eqb_eq in E2. congruence. }
  reflexivity.
Qed.

Lemma deserialize_registered_vertex (rt : runtime) (data : gmap string json)
    (t : string) (cls : klass) :
  data !! "_type" = Some (JStr "vertex") ->
  data !! "element_type" = Some (JStr t) ->
  vertex_types rt !! t = Some cls ->
  Element.deserialize rt (JObj data) = Element.new_vertex rt cls data.
Proof.
  intros Ht Htag Hreg. rewrite deserialize_vertex_row by exact Ht.
  unfold getitem. rewrite Htag. unfold_monad. rewrite Hreg. reflexivity.
Qed.

Lemma deserialize_registered_edge (rt : runtime) (data : gmap string json)
    (t : string) (cls : klass) (inV outV : json) :
  data !! "_type" = Some (JStr "edge") ->
  data !! "_label" = Some (JStr t) ->
  edge_types rt !! t = Some cls ->
  data !! "_inV" = Some inV ->
  data !! "_outV" = Some outV ->
  Element.deserialize rt (JObj data) = Element.new_edge rt cls inV outV data.
Proof.
  intros Ht Htag Hreg Hin Hout. rewrite deserialize_edge_row by exact Ht.
  unfold getitem. rewrite Htag, Hin, Hout. unfold_monad. rewrite Hreg. reflexivity.
Qed.

(** [Element.deserialize] picks the class by the row's discriminator
    and hands the row to it: a ['vertex'] row whose
    [element_type] is registered is handed to that vertex class, an
    ['edge'] row whose [_label] is registered to that edge class, and what
    comes back, when the construction does not raise, is an instance of
    that class.  A row with another [_type], or whose tag names no
    registered class, raises [TypeError] or [KeyError]; no element is
    returned for it. *)
Theorem deserialize_by_discriminator (rt : runtime) (data : gmap string json) :
  (forall t cls,
     data !! "_type" = Some (JStr "vertex") ->
     data !! "element_type" = Some (JStr t) ->
     vertex_types rt !! t = Some cls ->
     Element.deserialize rt (JObj data) = Element.new_vertex rt cls data /\
     (forall e, Element.deserialize rt (JObj data) = inr e ->
                element_cls e = cls /\ is_vertex e)) /\
  (forall t cls inV outV,
     data !! "_type" = Some (JStr "edge") ->
     data !! "_label" = Some (JStr t) ->
     edge_types rt !! t = Some cls ->
     data !! "_inV" = Some inV ->
     data !! "_outV" = Some outV ->
     Element.deserialize rt (JObj data) = Element.new_edge rt cls inV outV data /\
     (forall e, Element.deserialize rt (JObj data) = inr e ->
                element_cls e = cls /\ is_edge e)) /\
  (data !! "_type" <> Some (JStr "vertex") ->
   data !! "_type" <> Some (JStr "edge") ->
   Element.deserialize rt (JObj data) =
     inl (TypeError (CantDeserialize (data !! "_type")))) /\
  (data !! "_type" = Some (JStr "vertex") ->
   ~ registered (vertex_types rt) (data !! "element_type") ->
   exists e, Element.deserialize rt (JObj data) = inl e /\ is_deserialization_error e) /\
  (data !! "_type" = Some (JStr "edge") ->
   ~ registered (edge_types rt) (data !! "_label") ->
   exists e, Element.deserialize rt (JObj data) = inl e /\ is_deserialization_error e).
Proof.
  split; [|split; [|split; [|split]]].
  - intros t cls Ht Htag Hreg.
    pose proof (deserialize_registered_vertex rt data t cls Ht Htag Hreg) as Heq.
    split; [exact Heq|]. intros e. rewrite Heq. apply new_vertex_class.
  - intros t cls inV outV Ht Htag Hreg Hin Hout.
    pose proof (deserialize_registered_edge rt data t cls inV outV Ht Htag Hreg Hin Hout)
      as Heq.
    split; [exact Heq|]. intros e. rewrite Heq. apply new_edge_class.
  - apply deserialize_unknown_type.
  - apply deserialize_unregistered_vertex.
  - apply deserialize_unregistered_edge.
Qed.

Lemma deserialize_by_discriminator_witness :
  Element.deserialize samples.rt1 (samples.person_row 7) =
    inr (VertexObj samples.person (JNum 7) {[ "vid" := JNull ]}) /\
  Element.deserialize samples.rt1 (JObj samples.knows_fields) =
    inr (EdgeObj samples.knows (JNum 5) ∅ (EpVal (JNum 1)) (EpVal (JNum 2))) /\
  Element.deserialize samples.rt1 (JObj samples.hyperedge_fields) =
    inl (TypeError (CantDeserialize (Some (JStr "hyperedge")))) /\
  (exists e, Element.deserialize samples.rt1 (JObj samples.ghost_fields) = inl e /\
             is_deserialization_error e) /\
  (exists e, Element.deserialize (set_edge_types samples.rt1 ∅)
               (JObj samples.knows_fields) = inl e /\
             is_deserialization_error e).
Proof.
  split; [|split; [|split; [|split]]].
  - pose proof (proj1 (deserialize_by_discriminator samples.rt1 (samples.person_fields 7))
                  "person" samples.person eq_refl eq_refl eq_refl) as [H _].
    unfold samples.person_row. rewrite H. reflexivity.
  - pose proof (proj1 (proj2 (deserialize_by_discriminator samples.rt1 samples.knows_fields))
                  "knows" samples.knows (JNum 1) (JNum 2)
                  eq_refl eq_refl eq_refl eq_refl eq_refl) as [H _].
    rewrite H. reflexivity.
  - apply (proj1 (proj2 (proj2 (deserialize_by_discriminator samples.rt1
                                  samples.hyperedge_fields)))); discriminate.
  - apply (proj1 (proj2 (proj2 (proj2 (deserialize_by_discriminator samples.rt1
                                         samples.ghost_fields))))).
    + reflexivity.
    + intros (t & cls & Ht & Hreg). vm_compute in Ht. injection Ht as <-.
      vm_compute in Hreg. discriminate.
  - apply (proj2 (proj2 (proj2 (proj2 (deserialize_by_discriminator
                                         (set_edge_types samples.rt1 ∅)
                                         samples.knows_fields))))).
    + reflexivity.
    + intros (t & cls & Ht & Hreg). vm_compute in Ht. injection Ht as <-.
      vm_compute in Hreg. discriminate.
Defined.

(** ** Two registries *)





(** ** The batched fetch *)

Lemma for_each_lift {S A B} (f : A -> result B) (l : list A) (s : S) :
  for_each (fun x => lift (f x)) l s = (for_each f l, s).
Proof.
  induction l as [|x l IH]; [reflexivity|].
  simpl. unfold_monad. destruct (f x) as [e|y]; [reflexivity|].
  rewrite IH. destruct (for_each f l); reflexivity.
Qed.

Lemma for_each_result {A B} (f : A -> result B) (l : list A) (ys : list B) :
  for_each f l = inr ys <-> Forall2 (fun x y => f x = inr y) l ys.
Proof.
  revert ys. induction l as [|x l IH]; intros ys; simpl.
  - split.
    + intros [= <-]. constructor.
    + intros H. inversion H. reflexivity.
  - unfold_monad. split.
    + destruct (f x) as [e|y] eqn:Hx; [discriminate|].
      destruct (for_each f l) as [e|ys'] eqn:Hl; [discriminate|].
      intros [= <-]. constructor; [exact Hx|]. apply IH. reflexivity.
    + intros H. inversion H as [|x' y l' ys' Hx Hl]; subst.
      rewrite Hx. apply IH in Hl. rewrite Hl. reflexivity.
Qed.

Lemma deserialize_row_ok (rt : runtime) (r : json) (o : element) :
  Vertex.deserialize_row rt r = inr o <-> Element.deserialize rt r = inr o.
Proof.
  unfold Vertex.deserialize_row.
  destruct (Element.deserialize rt r) as [[]|]; simpl; split; intros H;
    try discriminate; exact H.
Qed.

Lemma truthy_not_None (r : json) : truthy r = true -> is_None r = false.
Proof. destruct r; simpl; congruence. Qed.

Lemma truthy_le_non_null (rows : list json) :
  length (List.filter truthy rows) <= length (non_null rows).
Proof.
  unfold non_null. induction rows as [|r rows IH]; simpl; [lia|].
  destruct (truthy r) eqn:Ht.
  - rewrite (truthy_not_None r Ht). simpl. lia.
  - destruct (negb (is_None r)); simpl; lia.
Qed.

(** A row that deserializes is a non-empty mapping, so the filter keeps it. *)
Lemma deserialize_truthy (rt : runtime) (r : json) (o : element) :
  Element.deserialize rt r = inr o -> truthy r = true.
Proof.
  destruct r as [| | | | |data]; simpl; try discriminate.
  destruct (data !! "_type") as [v|] eqn:Ht; [|discriminate].
  intros _. destruct (size data) eqn:Hs; [|reflexivity].
  apply map_size_empty_iff in Hs. subst data. rewrite lookup_empty in Ht. discriminate.
Qed.

Lemma filter_all_truthy (rt : runtime) (rows : list json) (objs : list element) :
  Forall2 (fun r o => Element.deserialize rt r = inr o) rows objs ->
  List.filter truthy rows = rows.
Proof.
  induction 1 as [|r o rows objs Hr _ IH]; simpl; [reflexivity|].
  rewrite (deserialize_truthy rt r o Hr), IH. reflexivity.
Qed.

(** [all] once the service has answered the batched script. *)
Lemma all_unfold (rt : runtime) (vids : list string) (w : world) (results : list json) :
  remote w (calls w) (fetch_call vids) = Status200 results ->
  (Vertex.all rt (Some vids) w).1 =
    if negb (length (List.filter truthy results) =? length vids)%nat
    then inl (ThunderdomeQueryError
                "the number of results don't match the number of vids requested")
    else for_each (Vertex.deserialize_row rt) (List.filter truthy results).
Proof.
  intros Hr. unfold Vertex.all, execute_query. cbn [bind ret ST_monad].
  unfold fetch_call in Hr. cbn [join_lines]. rewrite Hr.
  destruct (negb _); [reflexivity|].
  rewrite for_each_lift. reflexivity.
Qed.

Lemma all_posts_once (rt : runtime) (vids : list string) (w : world) :
  calls (Vertex.all rt (Some vids) w).2 = calls w ++ [fetch_call vids].
Proof.
  unfold Vertex.all, execute_query. cbn [bind ret ST_monad join_lines].
  fold (fetch_call vids).
  destruct (remote w (calls w) (fetch_call vids)); [|reflexivity].
  destruct (negb _); [reflexivity|].
  rewrite for_each_lift. reflexivity.
Qed.

(** C4: the batched fetch never returns a short sequence.  When the
    service answers with fewer non-null rows than identifiers were
    requested, [all] raises [ThunderdomeQueryError]; whatever list it
    returns has one element per requested identifier, each the
    deserialization of a returned row; and when the service returns one row
    per identifier and each deserializes, [all] returns those elements. *)
Theorem all_checks_every_identifier (rt : runtime) (vids : list string) (w : world)
    (results : list json) :
  remote w (calls w) (fetch_call vids) = Status200 results ->
  (length (non_null results) < length vids ->
   (Vertex.all rt (Some vids) w).1 =
     inl (ThunderdomeQueryError
            "the number of results don't match the number of vids requested")) /\
  (forall objs,
     (Vertex.all rt (Some vids) w).1 = inr objs ->
     length objs = length vids /\
     Forall2 (fun r o => Element.deserialize rt r = inr o)
             (List.filter truthy results) objs) /\
  (forall objs,
     length results = length vids ->
     Forall2 (fun r o => Element.deserialize rt r = inr o) results objs ->
     (Vertex.all rt (Some vids) w).1 = inr objs).
Proof.
  intros Hr. rewrite (all_unfold rt vids w results Hr). split; [|split].
  - intros Hlt. pose proof (truthy_le_non_null results) as Hle.
    destruct (Nat.eqb_spec (length (List.filter truthy results)) (length vids)) as [E|E];
      [lia|reflexivity].
  - intros objs.
    destruct (Nat.eqb_spec (length (List.filter truthy results)) (length vids)) as [E|E];
      simpl; [|discriminate].
    intros H. apply for_each_result in H.
    split.
    + apply Forall2_length in H. lia.
    + eapply Forall2_impl; [exact H|]. intros r o. apply deserialize_row_ok.
  - intros objs Hlen H. rewrite (filter_all_truthy rt results objs H).
    rewrite Hlen, Nat.eqb_refl. simpl.
    apply for_each_result. eapply Forall2_impl; [exact H|].
    intros r o. apply deserialize_row_ok.
Qed.

Lemma all_checks_every_identifier_witness :
  (Vertex.all samples.rt1 (Some ["x"; "y"])
     (samples.constant_world [samples.person_row 1; JNull])).1 =
    inl (ThunderdomeQueryError
           "the number of results don't match the number of vids requested") /\
  (Vertex.all samples.rt1 (Some ["x"; "y"])
     (samples.constant_world [samples.person_row 1; samples.person_row 2])).1 =
    inr [VertexObj samples.person (JNum 1) {[ "vid" := JNull ]};
         VertexObj samples.person (JNum 2) {[ "vid" := JNull ]}].
Proof.
  split.
  - apply (proj1 (all_checks_every_identifier samples.rt1 ["x"; "y"]
                    (samples.constant_world [samples.person_row 1; JNull])
                    [samples.person_row 1; JNull] eq_refl)).
    simpl. lia.
  - apply (proj2 (proj2 (all_checks_every_identifier samples.rt1 ["x"; "y"]
                    (samples.constant_world [samples.person_row 1; samples.person_row 2])
                    [samples.person_row 1; samples.person_row 2] eq_refl))).
    + reflexivity.
    + repeat constructor.
Defined.

(** ** The singular fetch *)

(** [get] hands the one-element sequence to [all]; when the number of rows
    [all] keeps is not one, [all] raises [ThunderdomeQueryError] and [get]
    turns it into [DoesNotExist], whether there were no rows or several. *)
Lemma get_count_mismatch (rt : runtime) (vid : string) (w : world)
    (results : list json) :
  remote w (calls w) (fetch_call [vid]) = Status200 results ->
  length (List.filter truthy results) <> 1 ->
  (Vertex.get rt vid w).1 = inl DoesNotExist.
Proof.
  intros Hr Hn. pose proof (all_unfold rt [vid] w results Hr) as Ha.
  unfold Vertex.get, try_except. cbn [bind ret ST_monad].
  destruct (Vertex.all rt (Some [vid]) w) as [[e|objs] w']; simpl in Ha.
  - destruct (Nat.eqb_spec (length (List.filter truthy results)) 1) as [E|E];
      [contradiction|].
    simpl in Ha. injection Ha as ->. reflexivity.
  - destruct (Nat.eqb_spec (length (List.filter truthy results)) 1) as [E|E];
      [contradiction|discriminate].
Qed.

(** When [all] returns, it returns one element and [get] returns it: the
    branch that raises [MultipleObjectsReturned] is never taken. *)
Lemma get_returns_the_element (rt : runtime) (vid : string) (w : world)
    (results : list json) (objs : list element) :
  remote w (calls w) (fetch_call [vid]) = Status200 results ->
  (Vertex.all rt (Some [vid]) w).1 = inr objs ->
  exists o, objs = [o] /\ (Vertex.get rt vid w).1 = inr o.
Proof.
  intros Hr Ho. pose proof (all_unfold rt [vid] w results Hr) as Ha.
  rewrite Ho in Ha. simpl in Ha.
  destruct (Nat.eqb_spec (length (List.filter truthy results)) 1) as [E|E];
    simpl in Ha; [|discriminate].
  symmetry in Ha. apply for_each_result in Ha. apply Forall2_length in Ha.
  destruct objs as [|o [|o' objs]]; simpl in Ha; try lia.
  exists o. split; [reflexivity|].
  unfold Vertex.get, try_except. cbn [bind ret ST_monad].
  destruct (Vertex.all rt (Some [vid]) w) as [[e|objs] w']; simpl in Ho;
    [discriminate|].
  injection Ho as ->. reflexivity.
Qed.

(** C3: [get] on an identifier for which the service returns two rows
    raises [DoesNotExist], not [MultipleObjectsReturned]: the count check
    of [all] turns the surplus into [ThunderdomeQueryError] before the
    multiplicity check of [get] can see it. *)
Theorem get_two_matches_raises_DoesNotExist :
  (Vertex.get samples.rt1 "x"
     (samples.constant_world [samples.person_row 1; samples.person_row 2])).1 =
    inl DoesNotExist /\
  (Vertex.all samples.rt1 (Some ["x"])
     (samples.constant_world [samples.person_row 1; samples.person_row 2])).1 =
    inl (ThunderdomeQueryError
           "the number of results don't match the number of vids requested").
Proof. split; reflexivity. Qed.

(** C8: two rows the deserialization gets wrong.  A vertex row whose
    element type no class has claimed makes [Element.deserialize] raise
    [KeyError]; the handler [all] has for it fails while it formats the
    message of its [ThunderdomeQueryError], so [all], and [get] with it,
    raise [IndexError] instead.  And a row of a registered class that holds
    the fields under their wire names, where [save] puts them and where the
    reverse map of the class finds them, gives an instance of that class
    with the identifier of the row and every field [None]: the constructor
    looks the fields up under their attribute names. *)
Theorem all_unknown_type_raises_IndexError :
  Element.deserialize samples.rt1 (JObj samples.ghost_fields) =
    inl (KeyError (JStr "ghost")) /\
  (Vertex.all samples.rt1 (Some ["x"])
     (samples.constant_world [JObj samples.ghost_fields])).1 = inl IndexError /\
  (Vertex.get samples.rt1 "x"
     (samples.constant_world [JObj samples.ghost_fields])).1 = inl IndexError /\
  exists cls,
    vertex_types samples.rt_wild !! "wild_dbnames" = Some cls /\
    _columns cls = [("vid", 0); ("content", 4); ("numbers", 5)] /\
    db_field_name (heap samples.rt_wild 4) = Some "words_and_whatnot" /\
    db_field_name (heap samples.rt_wild 5) = Some "integers_etc" /\
    _db_map cls !! Some "words_and_whatnot" = Some "content" /\
    _db_map cls !! Some "integers_etc" = Some "numbers" /\
    Element.deserialize samples.rt_wild (JObj samples.wild_fields) =
      inr (VertexObj cls (JNum 3)
             (<["vid" := JNull]> (<["content" := JNull]> {[ "numbers" := JNull ]}))).
Proof.
  split; [reflexivity|]. split; [reflexivity|]. split; [reflexivity|].
  eexists. split; [reflexivity|]. repeat split; reflexivity.
Qed.

(** With no row for the identifier, [get] raises [DoesNotExist]. *)
Example get_no_match :
  (Vertex.get samples.rt1 "x" (samples.constant_world [JNull])).1 = inl DoesNotExist.
Proof. reflexivity. Qed.

Example get_one_match :
  (Vertex.get samples.rt1 "x" (samples.constant_world [samples.person_row 1])).1 =
    inr (VertexObj samples.person (JNum 1) {[ "vid" := JNull ]}).
Proof. reflexivity. Qed.

(** ** Saving a new edge *)

Lemma append_length (a b : string) :
  String.length (a +:+ b) = String.length a + String.length b.
Proof. induction a as [|c a IH]; simpl; [reflexivity|]. rewrite IH. reflexivity. Qed.

(** The parameter names of the field loop end in [_val]; the names the
    head of the script binds do not. *)
Lemma val_suffix_ne (name k : string) :
  String.length k = 5 ->
  (forall c, k <> String c "_val") ->
  name +:+ "_val" <> k.
Proof.
  intros Hlen Hk Heq. pose proof (f_equal String.length Heq) as Hl.
  rewrite append_length, Hlen in Hl. simpl in Hl.
  destruct name as [|c [|c' name]]; simpl in Hl; try lia.
  apply (Hk c). symmetry. exact Heq.
Qed.

Lemma save_fields_spec (h : loc -> Column) (values : gmap string json)
    (cols : list (string * loc)) (qs : list string) (params : gmap string json) :
  (exists more, (Edge.save_fields h values cols qs params).1 = qs ++ more) /\
  (forall k, (forall name, name +:+ "_val" <> k) ->
             (Edge.save_fields h values cols qs params).2 !! k = params !! k).
Proof.
  unfold Edge.save_fields. revert qs params.
  induction cols as [|[name col] cols IH]; intros qs params; simpl.
  - split; [exists []; rewrite app_nil_r; reflexivity|reflexivity].
  - destruct (IH (qs ++ ["e.setProperty(" +:+ dq +:+ format_opt (db_field_name (h col))
                           +:+ dq +:+ ", " +:+ (name +:+ "_val") +:+ ")"])
                 (<[name +:+ "_val" := dict_get values name]> params))
      as [[more Hm] Hp].
    split.
    + eexists. rewrite Hm, <- app_assoc. reflexivity.
    + intros k Hk. rewrite Hp by exact Hk. apply lookup_insert_ne. apply Hk.
Qed.




Lemma validate_shape (rt : runtime) (cls : klass) (eid : json)
    (vals : gmap string json) (i o : endpoint) (self1 : element) :
  Edge.validate rt (EdgeObj cls eid vals i o) = inr self1 ->
  exists vals', self1 = EdgeObj cls eid vals' i o.
Proof.
  unfold Edge.validate, BaseElement.validate. unfold_monad.
  destruct (if is_None eid then _ else _) as [e|[]]; [discriminate|].
  destruct (BaseElement.validate_loop _ _ _) as [e|vals']; [discriminate|].
  intros [= <-]. eauto.
Qed.



(** A new edge whose endpoints are identifiers resolves them through the
    boundary first and then addresses what it fetched. *)
Example edge_save_resolves_identifiers :
  (fun out => (out.1, fst <$> calls out.2))
    (Edge.save samples.rt1 (samples.unsaved_edge (EpVal (JNum 1)) (EpVal (JNum 2)))
       (samples.constant_world [samples.person_row 7])) =
  (inr (EdgeObj samples.knows (JNum 7) ∅
          (EpObj (VertexObj samples.person (JNum 7) {[ "vid" := JNull ]}))
          (EpObj (VertexObj samples.person (JNum 7) {[ "vid" := JNull ]}))),
   ["g.stopTransaction(FAILURE)" +:+ nl +:+ "g.v(eid)";
    "g.stopTransaction(FAILURE)" +:+ nl +:+ "g.v(eid)";
    "g.stopTransaction(FAILURE)" +:+ nl +:+
    join_lines ["v1 = g.v(v1eid)"; "v2 = g.v(v2eid)"; "e = g.addEdge(v1, v2, label)";
                "g.stopTransaction(SUCCESS)"; "g.e(e.id)"]]).
Proof. reflexivity. Qed.

(** An endpoint given as an identifier the service does not know is not a
    validation error: the fetch of the endpoint is posted and raises
    [DoesNotExist]; the creation script is not. *)
Example edge_save_unknown_identifier :
  (fun out => (out.1, fst <$> calls out.2))
    (Edge.save samples.rt1 (samples.unsaved_edge (EpVal (JNum 1)) (EpVal (JNum 2)))
       (samples.constant_world [])) =
  (inl DoesNotExist, ["g.stopTransaction(FAILURE)" +:+ nl +:+ "g.v(eid)"]).
Proof. reflexivity. Qed.

(** ** Scanning a source file *)

Lemma snoc_fold_map {A B} (f : A -> B) (l : list A) (acc : list B) :
  fold_left (fun r x => r ++ [f x]) l acc = acc ++ (f <$> l).
Proof.
  revert acc. induction l as [|x l IH]; intros acc; simpl.
  - rewrite app_nil_r. reflexivity.
  - rewrite IH, <- app_assoc. reflexivity.
Qed.

Lemma span_word_idem (s : string) : (span_word (span_word s).1).1 = (span_word s).1.
Proof.
  induction s as [|c s IH]; simpl; [reflexivity|].
  destruct (is_word c) eqn:Hc; [|reflexivity].
  destruct (span_word s) as [w r]. simpl in *. rewrite Hc.
  destruct (span_word w) as [w' r']. simpl in *. rewrite IH. reflexivity.
Qed.

Lemma VarName_is_var_name (s v rest : string) :
  VarName s = Some (v, rest) -> is_var_name v.
Proof.
  unfold VarName. destruct (skip_ws s) as [|c t]; [discriminate|].
  destruct (is_alnum c) eqn:Hc; [|discriminate].
  pose proof (span_word_idem t) as Hi.
  destruct (span_word t) as [w r]. intros [= <- <-]. simpl. split; [exact Hc|exact Hi].
Qed.

Lemma more_names_var_names (fuel : nat) (s : string) :
  Forall is_var_name (more_names fuel s).1.
Proof.
  revert s. induction fuel as [|fuel IH]; intros s; simpl; [constructor|].
  destruct (Literal "," s) as [s1|]; [|constructor].
  destruct (VarName s1) as [[a s2]|] eqn:Ha; [|constructor].
  specialize (IH s2). destruct (more_names fuel s2) as [l r]. simpl in *.
  constructor; [|exact IH]. eapply VarName_is_var_name. exact Ha.
Qed.

Lemma skip_ws_length (s : string) : String.length (skip_ws s) <= String.length s.
Proof.
  induction s as [|c s IH]; simpl; [lia|].
  destruct (is_ws c); simpl; lia.
Qed.

Lemma strip_prefix_length (p s r : string) :
  strip_prefix p s = Some r -> String.length r + String.length p = String.length s.
Proof.
  revert s. induction p as [|a p IH]; intros [|b s]; simpl; try discriminate.
  - intros [= <-]. reflexivity.
  - intros [= <-]. simpl. lia.
  - destruct (Ascii.eqb a b); [|discriminate]. intros H. apply IH in H. lia.
Qed.

Lemma span_word_length (s : string) :
  String.length (span_word s).2 <= String.length s.
Proof.
  induction s as [|c s IH]; simpl; [lia|].
  destruct (is_word c); [|simpl; lia].
  destruct (span_word s) as [w r]. simpl in *. lia.
Qed.

Lemma Literal_length (lit s r : string) :
  Literal lit s = Some r -> String.length r + String.length lit <= String.length s.
Proof.
  unfold Literal. intros H. apply strip_prefix_length in H.
  pose proof (skip_ws_length s). lia.
Qed.

Lemma VarName_length (s v r : string) :
  VarName s = Some (v, r) -> String.length r < String.length s.
Proof.
  unfold VarName. pose proof (skip_ws_length s) as Hs.
  destruct (skip_ws s) as [|c t]; [discriminate|].
  destruct (is_alnum c); [|discriminate].
  pose proof (span_word_length t) as Ht.
  destruct (span_word t) as [w r']. intros [= _ <-]. simpl in *. lia.
Qed.

(** The repetition of the delimited list is given the length of its input
    as fuel; any fuel that large gives the same answer, so the repetition
    always ends because the input does, not because the fuel does. *)
Lemma more_names_fuel (f1 f2 : nat) (s : string) :
  String.length s <= f1 -> String.length s <= f2 ->
  more_names f1 s = more_names f2 s.
Proof.
  revert f2 s. induction f1 as [|f1 IH]; intros [|f2] s H1 H2; simpl; try reflexivity.
  - destruct s; [reflexivity|simpl in H1; lia].
  - destruct s; [reflexivity|simpl in H2; lia].
  - destruct (Literal "," s) as [s1|] eqn:Hl; [|reflexivity].
    apply Literal_length in Hl. simpl in Hl.
    destruct (VarName s1) as [[a s2]|] eqn:Hv; [|reflexivity].
    apply VarName_length in Hv.
    rewrite (IH f2 s2) by lia. reflexivity.
Qed.

Lemma FuncDefn_well_formed (data fname : string) (fargs : list string) :
  FuncDefn data = Some (fname, fargs) ->
  is_var_name fname /\ fargs <> [] /\ Forall is_var_name fargs.
Proof.
  unfold FuncDefn, delimitedList.
  destruct (KeywordDef data) as [s0|]; [|discriminate]. simpl.
  destruct (VarName s0) as [[n s1]|] eqn:Hn; [|discriminate]. simpl.
  destruct (Literal "(" s1) as [s2|]; [|discriminate]. simpl.
  destruct (VarName s2) as [[a s3]|] eqn:Ha; [|discriminate].
  pose proof (more_names_var_names (String.length s3) s3) as Hm.
  destruct (more_names (String.length s3) s3) as [l r]. simpl in *.
  destruct (Literal ")" r) as [s4|]; [|discriminate]. simpl.
  destruct (Literal "{" s4) as [s5|]; [|discriminate]. simpl.
  intros [= <- <-]. split; [eapply VarName_is_var_name; exact Hn|].
  split; [discriminate|]. constructor; [|exact Hm].
  eapply VarName_is_var_name. exact Ha.
Qed.

(** C6: a block the grammar rejects is not skipped.  For a file that
    defines [ping] without parameters, which the grammar rejects, and then
    [greet] with two, the scan captures both blocks and [parse] returns the
    empty dictionary of its [except] branch at the place of the first: the
    block is not excluded, and not every entry of the sequence is a
    signature.  The binder, which takes every entry for a signature and
    reads its name, raises [AttributeError] on that file when asked for
    [greet]; on a file with [greet] alone it binds it. *)
Theorem parse_keeps_rejected_block :
  captured_blocks samples.source_with_bad_block =
    [samples.ping_block; samples.greet_block] /\
  FuncDefn samples.ping_block = None /\
  groovy.parse samples.source_with_bad_block =
    [EmptyDict; Function samples.greet_signature] /\
  ~ Forall is_signature (groovy.parse samples.source_with_bad_block) /\
  (configure_method "/gremlin.groovy" samples.source_with_bad_block "greet"
                    samples.fresh_method).1 = inl AttributeError /\
  groovy.parse samples.greet_block = [Function samples.greet_signature] /\
  (configure_method "/gremlin.groovy" samples.greet_block "greet"
                    samples.fresh_method).1 = inr tt.
Proof.
  split; [reflexivity|]. split; [reflexivity|]. split; [reflexivity|].
  split; [|repeat split; reflexivity].
  intros H. apply Forall_inv in H. exact H.
Qed.

(** [parse] returns one entry per captured block, in order; the entry of
    a block the grammar rejects is the empty dictionary, and every other
    entry is a parsed signature with a name and at least one parameter, all
    of them names of the grammar, the body cut out of the block, and the
    block itself as definition text. *)
Lemma parse_one_entry_per_block (data : string) :
  groovy.parse data = GroovyFunctionParser.parse <$> captured_blocks data /\
  length (groovy.parse data) = length (captured_blocks data) /\
  (forall block,
     FuncDefn block = None <-> GroovyFunctionParser.parse block = EmptyDict) /\
  (forall block f,
     GroovyFunctionParser.parse block = Function f ->
     FuncDefn block = Some (name f, args f) /\
     is_var_name (name f) /\ args f <> [] /\ Forall is_var_name (args f) /\
     body f = strip_closing (strip_heads block EmptyString) /\
     defn f = block).
Proof.
  assert (groovy.parse data = GroovyFunctionParser.parse <$> captured_blocks data) as Hp.
  { unfold groovy.parse, captured_blocks.
    apply (snoc_fold_map GroovyFunctionParser.parse _ []). }
  split; [exact Hp|]. split; [rewrite Hp; apply length_fmap|]. split.
  - intros block. unfold GroovyFunctionParser.parse.
    destruct (FuncDefn block) as [[n a]|]; split; try done.
  - intros block f. unfold GroovyFunctionParser.parse.
    destruct (FuncDefn block) as [[n a]|] eqn:Hf; [|discriminate].
    intros [= <-]. simpl. split; [reflexivity|].
    destruct (FuncDefn_well_formed block n a Hf) as (H1 & H2 & H3). done.
Qed.

Lemma parse_one_entry_per_block_witness :
  GroovyFunctionParser.parse samples.ping_block = EmptyDict /\
  is_var_name (name samples.greet_signature) /\
  defn samples.greet_signature = samples.greet_block.
Proof.
  split.
  - apply (proj1 (proj2 (proj2 (parse_one_entry_per_block samples.source_with_bad_block)))
             samples.ping_block).
    reflexivity.
  - destruct (proj2 (proj2 (proj2 (parse_one_entry_per_block
                                     samples.source_with_bad_block)))
                samples.greet_block samples.greet_signature eq_refl)
      as (_ & H1 & _ & _ & _ & H2).
    split; [exact H1|exact H2].
Defined.

(** ** Binding a Groovy function *)

Lemma append_args_spec (fargs : list string) (self self' : BaseGremlinMethod) :
  append_args fargs self = (inr tt, self') ->
  NoDup (arg_list self) ->
  NoDup (arg_list self') /\ arg_list self' = arg_list self ++ fargs.
Proof.
  revert self. induction fargs as [|arg fargs IH]; intros self; simpl.
  - intros [= <-] Hnd. rewrite app_nil_r. done.
  - case_bool_decide as Hin; [discriminate|]. intros H Hnd.
    apply IH in H as [H1 H2]; simpl in *.
    + split; [exact H1|]. rewrite H2, <- app_assoc. reflexivity.
    + apply NoDup_app. split; [exact Hnd|]. split.
      * intros x Hx Hx'. apply list_elem_of_singleton in Hx'. subst x. contradiction.
      * apply NoDup_singleton.
Qed.

(** A method configured from scratch has a parameter list without
    duplicates and a function body. *)
Lemma configure_method_binds (path source attr : string) (self self' : BaseGremlinMethod) :
  is_configured self = false ->
  arg_list self = [] ->
  configure_method path source attr self = (inr tt, self') ->
  NoDup (arg_list self') /\ is_Some (function_body self') /\
  exists f, Function f ∈ groovy.parse source /\
            name f = method_name_or self attr /\
            arg_list self' = args f /\ function_body self' = Some (body f).
Proof.
  intros Hc Ha. unfold configure_method. simpl. rewrite Hc.
  destruct (find_method (groovy.parse source) (method_name_or self attr))
    as [e|[f|]] eqn:Hf; try discriminate.
  destruct (append_args (args f) _) as [[e|[]] self1] eqn:Happ; [discriminate|].
  intros [= <-]. simpl.
  apply append_args_spec in Happ as [Hnd Hl]; [|simpl; rewrite Ha; constructor].
  simpl in Hl. rewrite Ha in Hl. simpl in Hl.
  split; [exact Hnd|]. split; [by eexists|].
  exists f. split; [|split; [|split; [exact Hl|reflexivity]]].
  - clear -Hf. induction (groovy.parse source) as [|[g|] l IH]; simpl in Hf;
      try discriminate.
    destruct (String.eqb (name g) (method_name_or self attr)) eqn:E.
    + injection Hf as ->. left.
    + right. apply IH. exact Hf.
  - clear -Hf. induction (groovy.parse source) as [|[g|] l IH]; simpl in Hf;
      try discriminate.
    destruct (String.eqb_spec (name g) (method_name_or self attr)) as [E|E].
    + injection Hf as <-. exact E.
    + apply IH. exact Hf.
Qed.

(** The empty dictionary of a rejected block is visible to the binder: a
    function defined after such a block cannot be bound. *)
Example configure_after_rejected_block :
  (configure_method "/gremlin.groovy" samples.source_with_bad_block "greet"
                    samples.fresh_method).1 = inl AttributeError /\
  (configure_method "/gremlin.groovy" samples.greet_block "greet"
                    samples.fresh_method).1 = inr tt /\
  arg_list (configure_method "/gremlin.groovy" samples.greet_block "greet"
                             samples.fresh_method).2 = ["name"; "times"].
Proof. repeat split; reflexivity. Qed.

(** ** Calling a bound Groovy function *)

Lemma insert_all_union (l : list (string * json)) (params : gmap string json) :
  NoDup l.*1 ->
  fold_left (fun p kv => <[kv.1 := kv.2]> p) l params = list_to_map l ∪ params.
Proof.
  revert params. induction l as [|[k v] l IH]; intros params Hnd; simpl.
  - rewrite (left_id_L ∅ (∪)). reflexivity.
  - apply NoDup_cons in Hnd as [Hk Hnd]. rewrite IH by exact Hnd.
    rewrite <- insert_union_l. symmetry. apply insert_union_r.
    apply not_elem_of_list_to_map_1. exact Hk.
Qed.

Lemma fst_zip_take (P : list string) (pos : list json) :
  length pos <= length P -> (zip P pos).*1 = take (length pos) P.
Proof.
  revert pos. induction P as [|a P IH]; intros [|x pos] Hl; simpl in *; try reflexivity.
  rewrite IH by lia. reflexivity.
Qed.

Lemma bind_positional_ok (pos : list json) (arglist : list string)
    (params : gmap string json) :
  length pos <= length arglist ->
  bind_positional pos arglist params =
    inr (drop (length pos) arglist,
         fold_left (fun p kv => <[kv.1 := kv.2]> p) (zip arglist pos) params).
Proof.
  revert arglist params. induction pos as [|x pos IH]; intros arglist params Hl; simpl.
  - destruct arglist; reflexivity.
  - destruct arglist as [|a arglist]; simpl in *; [lia|].
    rewrite IH by lia. reflexivity.
Qed.

Lemma pop_name_other (k k' : string) (arglist : list string) :
  k' <> k -> (k' ∈ pop_name k arglist <-> k' ∈ arglist).
Proof.
  intros Hne. induction arglist as [|a arglist IH]; simpl; [reflexivity|].
  destruct (String.eqb_spec a k) as [->|Hak].
  - rewrite elem_of_cons. split; [tauto|]. intros [H|H]; [contradiction|exact H].
  - rewrite !elem_of_cons, IH. reflexivity.
Qed.

Lemma bind_keywords_ok (an : option string) (kwargs : list (string * json))
    (arglist : list string) (params : gmap string json) :
  NoDup kwargs.*1 ->
  (forall k, k ∈ kwargs.*1 -> k ∈ arglist) ->
  bind_keywords an kwargs arglist params =
    inr (fold_left (fun p kv => <[kv.1 := kv.2]> p) kwargs params).
Proof.
  revert arglist params. induction kwargs as [|[k v] kwargs IH];
    intros arglist params Hnd Hin; simpl; [reflexivity|].
  apply NoDup_cons in Hnd as [Hk Hnd].
  rewrite bool_decide_true by (apply Hin; left).
  apply IH; [exact Hnd|]. intros k' Hk'.
  apply pop_name_other; [intros ->; contradiction|]. apply Hin. by right.
Qed.

(** The first keyword that is not among the parameters still open decides
    the error: a name that already has a value is a duplicate, any other is
    unexpected. *)
Lemma bind_keywords_error (an : option string) (kwargs : list (string * json))
    (arglist : list string) (params : gmap string json) :
  NoDup kwargs.*1 ->
  (exists k, k ∈ kwargs.*1 /\ (k ∉ arglist)) ->
  exists k, k ∈ kwargs.*1 /\ (k ∉ arglist) /\
    bind_keywords an kwargs arglist params =
      inl (TypeError (if bool_decide (is_Some (params !! k))
                      then MultipleValues an k else UnexpectedKeyword an k)).
Proof.
  revert arglist params. induction kwargs as [|[k v] kwargs IH];
    intros arglist params Hnd (k0 & Hk0 & Hout); simpl in *.
  - inversion Hk0.
  - apply NoDup_cons in Hnd as [Hk Hnd].
    case_bool_decide as Hin.
    + assert (k0 <> k) as Hne by (intros ->; contradiction).
      apply elem_of_cons in Hk0 as [->|Hk0]; [contradiction|].
      destruct (IH (pop_name k arglist) (<[k := v]> params) Hnd) as (k' & Hk' & Hout' & Hr).
      { exists k0. split; [exact Hk0|]. rewrite pop_name_other by exact Hne. exact Hout. }
      assert (k' <> k) as Hne' by (intros ->; contradiction).
      exists k'. split; [by right|]. split.
      * rewrite <- (pop_name_other k k') by exact Hne'. exact Hout'.
      * rewrite Hr. rewrite lookup_insert_ne by congruence. reflexivity.
    + exists k. split; [left|]. split; [exact Hin|].
      case_bool_decide; reflexivity.
Qed.

Lemma call_unfold (self : BaseGremlinMethod) (eid : json) (args : list json)
    (kwargs : list (string * json)) (w : world) :
  __call__ self eid args kwargs w =
    match bind_arguments self eid args kwargs with
    | inl e => (inl e, w)
    | inr params =>
        match function_body self with
        | Some body => execute_query body params true w
        | None => (inl (TypeError NoneConcat), w)
        end
    end.
Proof.
  unfold __call__. unfold_monad.
  destruct (bind_arguments self eid args kwargs); [reflexivity|].
  destruct (function_body self); reflexivity.
Qed.

Lemma bind_arguments_arity_ok (self : BaseGremlinMethod) (eid : json)
    (args : list json) (kwargs : list (string * json)) :
  length (positional self eid args) + length kwargs <= length (arg_list self) ->
  bind_arguments self eid args kwargs =
    bind_keywords (attr_name self) kwargs
      (drop (length (positional self eid args)) (arg_list self))
      (fold_left (fun p kv => <[kv.1 := kv.2]> p)
                 (zip (arg_list self) (positional self eid args)) (default_args self)).
Proof.
  intros Hl. unfold bind_arguments. fold (positional self eid args).
  rewrite length_app, length_fmap.
  destruct (Nat.ltb_spec (length (arg_list self))
              (length (positional self eid args) + length kwargs)) as [H|H]; [lia|].
  rewrite bind_positional_ok by lia. reflexivity.
Qed.

Lemma positional_params (self : BaseGremlinMethod) (pos : list json) (k : string) :
  NoDup (arg_list self) ->
  length pos <= length (arg_list self) ->
  let params := fold_left (fun p kv => <[kv.1 := kv.2]> p)
                          (zip (arg_list self) pos) (default_args self) in
  params = list_to_map (zip (arg_list self) pos) ∪ default_args self /\
  (k ∈ take (length pos) (arg_list self) -> is_Some (params !! k)) /\
  (k ∉ take (length pos) (arg_list self) -> params !! k = default_args self !! k).
Proof.
  intros Hnd Hl params.
  assert (NoDup (zip (arg_list self) pos).*1) as Hz.
  { rewrite fst_zip_take by exact Hl.
    eapply sublist_NoDup; [exact Hnd|apply sublist_take]. }
  assert (params = list_to_map (zip (arg_list self) pos) ∪ default_args self) as Hp.
  { apply insert_all_union. exact Hz. }
  split; [exact Hp|]. rewrite Hp. split.
  - intros Hk. rewrite <- fst_zip_take in Hk by exact Hl.
    destruct ((list_to_map (zip (arg_list self) pos) : gmap string json) !! k)
      as [v|] eqn:Hv.
    + exists v. apply lookup_union_Some_l. exact Hv.
    + apply not_elem_of_list_to_map in Hv. contradiction.
  - intros Hk. rewrite <- fst_zip_take in Hk by exact Hl.
    apply lookup_union_r. apply not_elem_of_list_to_map_1. exact Hk.
Qed.

Lemma not_in_drop (P : list string) (n : nat) (k : string) :
  NoDup P -> (k ∉ drop n P <-> k ∉ P \/ k ∈ take n P).
Proof.
  intros Hnd. rewrite <- (take_drop n P) in Hnd at 1.
  apply NoDup_app in Hnd as (_ & Hdisj & _).
  rewrite <- (take_drop n P) at 2. rewrite elem_of_app. split.
  - intros Hd. destruct (decide (k ∈ take n P)) as [Ht|Ht]; [by right|]. left. tauto.
  - intros [H|H]; [tauto|]. apply Hdisj. exact H.
Qed.

(** The outcome of a call whose arity is fine and one of whose keywords is
    not among the parameters still open. *)
Lemma call_rejects_keyword (self : BaseGremlinMethod) (eid : json)
    (args : list json) (kwargs : list (string * json)) (w : world) :
  NoDup (arg_list self) ->
  NoDup kwargs.*1 ->
  length (positional self eid args) + length kwargs <= length (arg_list self) ->
  (exists k, k ∈ kwargs.*1 /\
             (k ∉ arg_list self \/
              k ∈ take (length (positional self eid args)) (arg_list self))) ->
  exists k,
    k ∈ kwargs.*1 /\
    ((k ∈ take (length (positional self eid args)) (arg_list self) /\
      __call__ self eid args kwargs w =
        (inl (TypeError (MultipleValues (attr_name self) k)), w)) \/
     ((k ∉ arg_list self) /\ is_Some (default_args self !! k) /\
      __call__ self eid args kwargs w =
        (inl (TypeError (MultipleValues (attr_name self) k)), w)) \/
     ((k ∉ arg_list self) /\ default_args self !! k = None /\
      __call__ self eid args kwargs w =
        (inl (TypeError (UnexpectedKeyword (attr_name self) k)), w))).
Proof.
  intros HP Hkw Har (k0 & Hk0 & Hbad).
  rewrite call_unfold, bind_arguments_arity_ok by exact Har.
  set (pos := positional self eid args) in *.
  destruct (positional_params self pos k0 HP ltac:(lia)) as (_ & _ & _).
  destruct (bind_keywords_error (attr_name self) kwargs
              (drop (length pos) (arg_list self))
              (fold_left (fun p kv => <[kv.1 := kv.2]> p)
                         (zip (arg_list self) pos) (default_args self)) Hkw)
    as (k & Hk & Hout & ->).
  { exists k0. split; [exact Hk0|]. apply not_in_drop; assumption. }
  exists k. split; [exact Hk|].
  destruct (positional_params self pos k HP ltac:(lia)) as (_ & Hin & Hnot).
  apply not_in_drop in Hout; [|exact HP].
  destruct (decide (k ∈ take (length pos) (arg_list self))) as [Ht|Ht].
  - left. split; [exact Ht|]. rewrite bool_decide_true by (apply Hin; exact Ht).
    reflexivity.
  - destruct Hout as [Hout|Hout]; [|contradiction].
    right. rewrite (Hnot Ht).
    destruct (default_args self !! k) as [v|] eqn:Hd.
    + left. split; [exact Hout|]. split; [by eexists|].
      rewrite bool_decide_true by (by eexists). reflexivity.
    + right. split; [exact Hout|]. split; [reflexivity|].
      rewrite bool_decide_false by (intros [? ?]; discriminate). reflexivity.
Qed.

(** X25: the argument checks of a bound Groovy function with parameter
    list [P] without duplicates, where the positional arguments are those
    given, preceded by [instance.eid] unless the method is a class method.
    More positional and named arguments than [P] has raise the arity
    [TypeError].  With the arity in order, a named argument that is not in
    [P] or that was already given by position raises a keyword [TypeError]:
    the multiple-values one when every named argument is a parameter and
    some was given by position, the unexpected-keyword one when none was
    given by position and no unknown name has a default.  In each case
    nothing is handed to [execute_query].  Otherwise the function body goes
    to [execute_query] with the named arguments over the positional ones
    over the defaults. *)
Theorem call_checks_arguments (self : BaseGremlinMethod) (eid : json)
    (args : list json) (kwargs : list (string * json)) (w : world) :
  NoDup (arg_list self) ->
  NoDup kwargs.*1 ->
  let P := arg_list self in
  let pos := positional self eid args in
  (length P < length pos + length kwargs ->
   __call__ self eid args kwargs w =
     (inl (TypeError (TakesArgs (attr_name self) (length P) (length pos))), w)) /\
  (length pos + length kwargs <= length P ->
   (exists k, k ∈ kwargs.*1 /\ (k ∉ P \/ k ∈ take (length pos) P)) ->
   exists k e,
     k ∈ kwargs.*1 /\ (k ∉ P \/ k ∈ take (length pos) P) /\
     (e = UnexpectedKeyword (attr_name self) k \/ e = MultipleValues (attr_name self) k) /\
     __call__ self eid args kwargs w = (inl (TypeError e), w)) /\
  (length pos + length kwargs <= length P ->
   (exists k, k ∈ kwargs.*1 /\ (k ∉ P)) ->
   (forall k, k ∈ kwargs.*1 -> k ∉ take (length pos) P) ->
   (forall k, k ∈ kwargs.*1 -> k ∉ P -> default_args self !! k = None) ->
   exists k,
     k ∈ kwargs.*1 /\ (k ∉ P) /\
     __call__ self eid args kwargs w =
       (inl (TypeError (UnexpectedKeyword (attr_name self) k)), w)) /\
  (length pos + length kwargs <= length P ->
   (exists k, k ∈ kwargs.*1 /\ k ∈ take (length pos) P) ->
   (forall k, k ∈ kwargs.*1 -> k ∈ P) ->
   exists k,
     k ∈ kwargs.*1 /\ k ∈ take (length pos) P /\
     __call__ self eid args kwargs w =
       (inl (TypeError (MultipleValues (attr_name self) k)), w)) /\
  (length pos + length kwargs <= length P ->
   (forall k, k ∈ kwargs.*1 -> k ∈ P /\ (k ∉ take (length pos) P)) ->
   forall body, function_body self = Some body ->
     __call__ self eid args kwargs w =
       execute_query body (merged_params self pos kwargs) true w).
Proof.
  intros HP Hkw P pos. split; [|split; [|split; [|split]]].
  - intros Har. rewrite call_unfold. unfold bind_arguments.
    fold (positional self eid args). fold pos. rewrite length_app, length_fmap.
    destruct (Nat.ltb_spec (length (arg_list self)) (length pos + length kwargs))
      as [H|H]; [reflexivity|subst P; lia].
  - intros Har Hbad.
    destruct (call_rejects_keyword self eid args kwargs w HP Hkw Har Hbad)
      as (k & Hk & [(Ht & Hr)|[(Hn & Hd & Hr)|(Hn & Hd & Hr)]]).
    + exists k, (MultipleValues (attr_name self) k). auto.
    + exists k, (MultipleValues (attr_name self) k). auto.
    + exists k, (UnexpectedKeyword (attr_name self) k). auto.
  - intros Har (k0 & Hk0 & Hbad) Hnopos Hnodef.
    destruct (call_rejects_keyword self eid args kwargs w HP Hkw Har)
      as (k & Hk & [(Ht & Hr)|[(Hn & Hd & Hr)|(Hn & Hd & Hr)]]).
    { exists k0. auto. }
    + exfalso. apply (Hnopos k Hk). exact Ht.
    + rewrite (Hnodef k Hk Hn) in Hd. destruct Hd as [? Hd]. discriminate.
    + exists k. auto.
  - intros Har (k0 & Hk0 & Hbad) Hall.
    destruct (call_rejects_keyword self eid args kwargs w HP Hkw Har)
      as (k & Hk & [(Ht & Hr)|[(Hn & Hd & Hr)|(Hn & Hd & Hr)]]).
    { exists k0. auto. }
    + exists k. auto.
    + exfalso. apply Hn. apply Hall. exact Hk.
    + exfalso. apply Hn. apply Hall. exact Hk.
  - intros Har Hall body Hbody.
    rewrite call_unfold, bind_arguments_arity_ok by exact Har. fold pos.
    rewrite bind_keywords_ok; [|exact Hkw|].
    + rewrite Hbody. f_equal.
      rewrite insert_all_union by exact Hkw.
      destruct (positional_params self pos "" HP ltac:(subst P; lia)) as (-> & _).
      unfold merged_params. rewrite (assoc_L (∪)). reflexivity.
    + intros k Hk. destruct (Hall k Hk) as [Hin Hnt].
      destruct (decide (k ∈ drop (length pos) (arg_list self))) as [Hd|Hd];
        [exact Hd|].
      apply not_in_drop in Hd as [Hd|Hd]; [contradiction|contradiction|exact HP].
Qed.

Lemma call_checks_arguments_witness :
  __call__ samples.greet JNull [JStr "a"; JNum 2; JNum 3] [] (samples.constant_world []) =
    (inl (TypeError (TakesArgs (Some "greet") 2 3)), samples.constant_world []) /\
  (exists k,
     __call__ samples.greet JNull [JStr "a"] [("loud", JBool true)]
              (samples.constant_world []) =
       (inl (TypeError (UnexpectedKeyword (Some "greet") k)), samples.constant_world [])) /\
  (exists k,
     __call__ samples.greet JNull [JStr "a"] [("name", JStr "b")]
              (samples.constant_world []) =
       (inl (TypeError (MultipleValues (Some "greet") k)), samples.constant_world [])) /\
  __call__ samples.greet JNull [JStr "a"] [("times", JNum 2)] (samples.constant_world []) =
    execute_query "g.V(name)"
      (merged_params samples.greet [JStr "a"] [("times", JNum 2)]) true
      (samples.constant_world []).
Proof.
  assert (NoDup (arg_list samples.greet)) as HP.
  { simpl. repeat (constructor; [set_solver|]). constructor. }
  assert (forall (k : string) (v : json), NoDup [(k, v)].*1) as H1.
  { intros k v. simpl. repeat (constructor; [set_solver|]). constructor. }
  split; [|split; [|split]].
  - apply (proj1 (call_checks_arguments samples.greet JNull [JStr "a"; JNum 2; JNum 3] []
                    (samples.constant_world []) HP (@NoDup_nil_2 string))).
    simpl. lia.
  - destruct (proj1 (proj2 (proj2 (call_checks_arguments samples.greet JNull [JStr "a"]
                        [("loud", JBool true)] (samples.constant_world []) HP (H1 _ _)))))
      as (k & _ & _ & Hr).
    + simpl. lia.
    + exists "loud". simpl. split; [set_solver|]. set_solver.
    + intros k Hk. simpl in *. set_solver.
    + intros k _ _. reflexivity.
    + exists k. exact Hr.
  - destruct (proj1 (proj2 (proj2 (proj2 (call_checks_arguments samples.greet JNull
                        [JStr "a"] [("name", JStr "b")] (samples.constant_world [])
                        HP (H1 _ _))))))
      as (k & _ & _ & Hr).
    + simpl. lia.
    + exists "name". simpl. split; set_solver.
    + intros k Hk. simpl in *. set_solver.
    + exists k. exact Hr.
  - apply (proj2 (proj2 (proj2 (proj2 (call_checks_arguments samples.greet JNull
                        [JStr "a"] [("times", JNum 2)] (samples.constant_world [])
                        HP (H1 _ _)))))).
    + simpl. lia.
    + intros k Hk. simpl in *. set_solver.
    + reflexivity.
Defined.

(** C7: an unknown named argument is reported as a duplicate when a
    default of that name exists.  [greet(name, times)] is bound as a class
    method with a default for [loud], which is not a parameter, and called
    with one positional argument and [loud] by name.  The positional
    argument binds [name], so [loud] is given once and names no parameter;
    the call raises the [TypeError] of a parameter given twice (multiple
    values), not that of an unknown name, and nothing is handed to
    [execute_query].  Without the default the same call raises the
    unexpected-keyword error. *)
Theorem unknown_keyword_reported_as_duplicate (eid : json) (w : world) :
("loud" ∉ arg_list samples.greet_loud) /\
  zip (arg_list samples.greet_loud) (positional samples.greet_loud eid [JStr "bob"]) =
    [("name", JStr "bob")] /\
  __call__ samples.greet_loud eid [JStr "bob"] [("loud", JBool false)] w =
    (inl (TypeError (MultipleValues (Some "greet") "loud")), w) /\
  __call__ samples.greet eid [JStr "bob"] [("loud", JBool false)] w =
    (inl (TypeError (UnexpectedKeyword (Some "greet") "loud")), w).
Proof.
  split; [|repeat split; reflexivity].
  intros H. repeat (apply elem_of_cons in H as [H|H]; [discriminate|]).
  inversion H.
Qed.


(** The three calls of the [greet] example and a well-formed one. *)
Example greet_calls :
  (__call__ samples.greet JNull [JStr "a"; JNum 2; JNum 3] [] (samples.constant_world [])).1
    = inl (TypeError (TakesArgs (Some "greet") 2 3)) /\
  (__call__ samples.greet JNull [JStr "a"] [("loud", JBool true)]
            (samples.constant_world [])).1
    = inl (TypeError (UnexpectedKeyword (Some "greet") "loud")) /\
  (__call__ samples.greet JNull [JStr "a"] [("name", JStr "b")]
            (samples.constant_world [])).1
    = inl (TypeError (MultipleValues (Some "greet") "name")) /\
  calls (__call__ samples.greet JNull [JStr "a"] [("times", JNum 2)]
                  (samples.constant_world [])).2
    = [("g.stopTransaction(FAILURE)" +:+ nl +:+ "g.V(name)",
        <["times" := JNum 2]> (<["name" := JStr "a"]> ∅))].
Proof. repeat split; reflexivity. Qed.

(* ===================================================================== *)
(** * Further properties                                                  *)
(* ===================================================================== *)

(** ** Discriminators *)

Lemma is_upper_lower_char (c : ascii) : is_upper (lower_char c) = false.
Proof. destruct c as [[] [] [] [] [] [] [] []]; reflexivity. Qed.

Lemma lower_no_upper (s : string) : has_upper (lower s) = false.
Proof.
  induction s as [|c s IH]; simpl; [reflexivity|].
  rewrite is_upper_lower_char, IH. reflexivity.
Qed.

Lemma lower_id (s : string) : has_upper s = false -> lower s = s.
Proof.
  induction s as [|c s IH]; simpl; [reflexivity|].
  intros H. apply orb_false_iff in H as [Hc Hs].
  unfold lower_char. rewrite Hc, (IH Hs). reflexivity.
Qed.

Lemma ccase_id (s : string) : has_upper s = false -> ccase s = s.
Proof.
  induction s as [|a t IH]; [reflexivity|].
  intros H. simpl in H. apply orb_false_iff in H as [Ha Ht].
  destruct t as [|b rest]; [reflexivity|].
  specialize (IH Ht). simpl in Ht. apply orb_false_iff in Ht as [Hb Hr].
  cbn [ccase]. rewrite Hb, andb_false_r.
  cbn [ccase] in IH. rewrite IH. reflexivity.
Qed.

(** X1: a discriminator has no capital letter, and computing the
    discriminator of a class that is named by a discriminator, or that has
    a non-empty one as its manual name, gives that discriminator back. *)
Theorem type_name_lowercase_idempotent (cls : klass) (manual : option string) :
  has_upper (_type_name cls manual) = false /\
  (forall cls', __name__ cls' = _type_name cls manual ->
                _type_name cls' None = _type_name cls manual) /\
  (forall cls', _type_name cls manual <> "" ->
                _type_name cls' (Some (_type_name cls manual)) = _type_name cls manual).
Proof.
  assert (has_upper (_type_name cls manual) = false) as Hu.
  { unfold _type_name. destruct manual as [m|]; [destruct (String.eqb m "")|];
      apply lower_no_upper. }
  split; [exact Hu|]. split.
  - intros cls' Hn. unfold _type_name at 1. rewrite Hn.
    rewrite (ccase_id _ Hu). apply lower_id. exact Hu.
  - intros cls' Hne. unfold _type_name at 1.
    destruct (String.eqb_spec (_type_name cls manual) "") as [E|E]; [contradiction|].
    apply lower_id. exact Hu.
Qed.

Lemma type_name_lowercase_idempotent_witness :
  has_upper (_type_name samples.person (Some "Manual_Name")) = false /\
  _type_name samples.knows (Some (_type_name samples.person None)) = "person".
Proof.
  split.
  - apply (proj1 (type_name_lowercase_idempotent samples.person (Some "Manual_Name"))).
  - apply (proj2 (proj2 (type_name_lowercase_idempotent samples.person None))
             samples.knows).
    discriminate.
Defined.




(** ** The field dictionary of a class *)












Lemma ElementMetaClass_new_columns (name : string) (bases : list klass)
    (attrs : list (string * attr)) (manual : option string) (rt rt' : runtime)
    (cls : klass) :
  ElementMetaClass_new name bases attrs manual rt = (inr cls, rt') ->
  (heap rt', _columns cls) = effective_columns (heap rt) bases attrs /\
  NoDup (wire_names (heap rt') (_columns cls)) /\
  _db_map cls = build_db_map (heap rt') (_columns cls) /\
  _gremlin_methods cls = [].
Proof.
  unfold ElementMetaClass_new.
  destruct (effective_columns (heap rt) bases attrs) as [h column_dict].
  destruct (check_duplicates h name column_dict.*2 ∅) as [e|[]] eqn:Hc; [discriminate|].
  destruct (own_gremlin_methods attrs (inherit _gremlin_methods bases)) eqn:Hg;
    simpl; [|discriminate].
  intros [= <- <-]. simpl. split; [reflexivity|]. split; [|done].
  apply check_duplicates_passes in Hc as [Hnd _].
  rewrite wire_names_values in Hnd. exact Hnd.
Qed.



Lemma build_db_map_spec (h : loc -> Column) (cd : list (string * loc))
    (m0 : gmap (option string) string) :
  NoDup (wire_names h cd) ->
  (forall w, w ∈ wire_names h cd -> m0 !! w = None) ->
  let m := fold_left (fun m kv => <[db_field_name (h kv.2) := kv.1]> m) cd m0 in
  (forall f c, (f, c) ∈ cd -> m !! db_field_name (h c) = Some f) /\
  (forall w, w ∉ wire_names h cd -> m !! w = m0 !! w) /\
  size m = size m0 + length cd.
Proof.
  revert m0. unfold wire_names.
  induction cd as [|[f0 c0] cd IH]; intros m0 Hnd Hfree; simpl in *.
  - repeat split; try done. intros f c H. inversion H.
  - apply NoDup_cons in Hnd as [Hc0 Hnd].
    destruct (IH (<[db_field_name (h c0) := f0]> m0) Hnd) as (H1 & H2 & H3).
    { intros w Hw. rewrite lookup_insert_ne; [apply Hfree; by right|].
      intros Heq. subst w. contradiction. }
    split; [|split].
    + intros f c Hin. apply elem_of_cons in Hin as [[= -> ->]|Hin].
      * rewrite H2 by exact Hc0. apply lookup_insert_eq.
      * apply H1. exact Hin.
    + intros w Hw. apply not_elem_of_cons in Hw as [Hne Hw].
      rewrite H2 by exact Hw. apply lookup_insert_ne. congruence.
    + rewrite H3. rewrite map_size_insert_None by (apply Hfree; left). lia.
Qed.

(** X4: the reverse map of a class the schema builder returns sends the
    wire name of each of its fields back to the field's name, and has
    exactly one entry per field. *)
Theorem db_map_inverts_wire_names (name : string) (bases : list klass)
    (attrs : list (string * attr)) (manual : option string) (rt rt' : runtime)
    (cls : klass) :
  ElementMetaClass_new name bases attrs manual rt = (inr cls, rt') ->
  (forall field col, (field, col) ∈ _columns cls ->
     _db_map cls !! db_field_name (heap rt' col) = Some field) /\
  size (_db_map cls) = length (_columns cls).
Proof.
  intros Hnew. apply ElementMetaClass_new_columns in Hnew as (_ & Hnd & -> & _).
  destruct (build_db_map_spec (heap rt') (_columns cls) ∅ Hnd) as (H1 & _ & H3).
  { intros w _. apply lookup_empty. }
  split; [exact H1|]. unfold build_db_map. rewrite H3, map_size_empty. reflexivity.
Qed.

Lemma db_map_inverts_wire_names_witness :
  exists cls,
    (ElementMetaClass_new "WildDBNames" [samples.Vertex_cls] samples.WildDBNames_attrs
                          None samples.rt0).1 = inr cls /\
    _db_map cls !! Some "integers_etc" = Some "numbers" /\
    size (_db_map cls) = length (_columns cls).
Proof.
  eexists. split; [reflexivity|].
  edestruct (db_map_inverts_wire_names "WildDBNames" [samples.Vertex_cls]
               samples.WildDBNames_attrs None samples.rt0 _ _ eq_refl) as (H1 & H2).
  split; [|exact H2].
  apply (H1 "numbers" 5). apply list_elem_of_lookup. exists 2. reflexivity.
Defined.

(** ** Classes with bound Groovy functions *)

Lemma od_set_not_nil {V} (d : list (string * V)) (k : string) (v : V) :
  od_set d k v <> [].
Proof. destruct d as [|[k' v'] d]; simpl; [|destruct (String.eqb k' k)]; discriminate. Qed.

Lemma own_gremlin_methods_not_nil (attrs : list (string * attr))
    (inherited : list (string * bool)) :
  declares_gremlin_method attrs \/ inherited <> [] ->
  own_gremlin_methods attrs inherited <> [].
Proof.
  unfold own_gremlin_methods, declares_gremlin_method. revert inherited.
  induction attrs as [|[k0 a0] attrs IH]; intros inherited H; simpl.
  - destruct H as [(k & b & H)|H]; [inversion H|exact H].
  - apply IH. destruct H as [(k & b & H)|H].
    + apply elem_of_cons in H as [[= <- <-]|H].
      * right. simpl. apply od_set_not_nil.
      * left. eauto.
    + right. destruct a0; simpl; try exact H. apply od_set_not_nil.
Qed.

(** X5: a class statement with a bound Groovy function among its
    attributes never yields a class.  The schema builder configures each
    such method with one argument more than [configure_method] takes, so
    the statement raises [TypeError] (or the duplicate-column
    [ModelException], when that comes first); the vertex and edge
    metaclasses raise the same and leave both registries as they were. *)
Theorem gremlin_method_blocks_class (name : string) (bases : list klass)
    (attrs : list (string * attr)) (manual : option string) (rt : runtime) :
  declares_gremlin_method attrs ->
  exists e,
    (ElementMetaClass_new name bases attrs manual rt).1 = inl e /\
    (VertexMetaClass_new name bases attrs manual rt).1 = inl e /\
    (EdgeMetaClass_new name bases attrs manual rt).1 = inl e /\
    (e = TypeError WrongArgumentCount \/ is_duplicate_column_error e) /\
    (~ shares_wire_name (effective_columns (heap rt) bases attrs).1
                        (effective_columns (heap rt) bases attrs).2 ->
     e = TypeError WrongArgumentCount) /\
    vertex_types (VertexMetaClass_new name bases attrs manual rt).2 = vertex_types rt /\
    edge_types (EdgeMetaClass_new name bases attrs manual rt).2 = edge_types rt.
Proof.
  intros Hg.
  pose proof (own_gremlin_methods_not_nil attrs (inherit _gremlin_methods bases)
                (or_introl Hg)) as Hne.
  pose proof (ElementMetaClass_new_duplicates name bases attrs manual rt) as [_ Hok].
  pose proof (ElementMetaClass_new_registries name bases attrs manual rt) as [Hv He].
  unfold VertexMetaClass_new, EdgeMetaClass_new. unfold_monad.
  assert (exists e, (ElementMetaClass_new name bases attrs manual rt).1 = inl e /\
                    (e = TypeError WrongArgumentCount \/ is_duplicate_column_error e))
    as (e & He1 & Hkind).
  { unfold ElementMetaClass_new.
    destruct (effective_columns (heap rt) bases attrs) as [h column_dict].
    destruct (check_duplicates h name column_dict.*2 ∅) as [e|[]] eqn:Hc.
    - apply check_duplicates_error in Hc as [wire ->]. eexists. split; [reflexivity|].
      right. exact I.
    - destruct (own_gremlin_methods attrs (inherit _gremlin_methods bases));
        [contradiction|].
      eexists. split; [reflexivity|]. by left. }
  exists e.
  destruct (ElementMetaClass_new name bases attrs manual rt) as [[e'|cls] rt'];
    simpl in *; [|discriminate].
  injection He1 as ->. repeat split; try done.
  intros Hs. destruct Hkind as [Hk|Hk]; [exact Hk|].
  exfalso. apply (Hok Hs e eq_refl Hk).
Qed.

Lemma gremlin_method_blocks_class_witness :
  (VertexMetaClass_new "Tagged" [samples.Vertex_cls] samples.Tagged_attrs None
                       samples.rt0).1 = inl (TypeError WrongArgumentCount).
Proof.
  destruct (gremlin_method_blocks_class "Tagged" [samples.Vertex_cls]
              samples.Tagged_attrs None samples.rt0) as (e & _ & H & _ & _ & Hk & _).
  - exists "friends", false. left.
  - rewrite H. f_equal. apply Hk.
    rewrite shares_wire_name_NoDup. intros Hn. apply Hn. vm_compute.
    repeat (constructor; [set_solver|]). constructor.
Defined.

(** ** Building, validating and converting an instance *)

Lemma init_values_spec (h : loc -> Column) (values : gmap string json)
    (cols : list (string * loc)) (acc vals : gmap string json) :
  NoDup cols.*1 ->
  BaseElement.init_values h values cols acc = inr vals ->
  dom vals = dom acc ∪ list_to_set cols.*1 /\
  (forall k, k ∉ cols.*1 -> vals !! k = acc !! k) /\
  (forall name col, (name, col) ∈ cols ->
     exists v, vals !! name = Some v /\
       if is_None (dict_get values name) then v = JNull
       else to_python (h col) (dict_get values name) = inr v).
Proof.
  revert acc. induction cols as [|[name0 col0] cols IH]; intros acc Hnd.
  - intros [= <-]. split; [set_solver|]. split; [done|].
    intros name col H. inversion H.
  - rewrite fmap_cons in Hnd. apply NoDup_cons in Hnd as [Hn0 Hnd].
    cbn [BaseElement.init_values bind ret result_monad].
    assert (forall v0,
      (if is_None (dict_get values name0) then v0 = JNull
       else to_python (h col0) (dict_get values name0) = inr v0) ->
      BaseElement.init_values h values cols (<[name0 := v0]> acc) = inr vals ->
      dom vals = dom acc ∪ list_to_set ((name0, col0) :: cols).*1 /\
      (forall k, k ∉ ((name0, col0) :: cols).*1 -> vals !! k = acc !! k) /\
      (forall name col, (name, col) ∈ (name0, col0) :: cols ->
         exists v, vals !! name = Some v /\
           if is_None (dict_get values name) then v = JNull
           else to_python (h col) (dict_get values name) = inr v)) as Hstep.
    { intros v0 Hv0 Hrest. destruct (IH _ Hnd Hrest) as (Hdom & Hother & Hin).
      rewrite fmap_cons. cbn [fst]. split; [|split].
      + rewrite Hdom, dom_insert_L. set_solver.
      + intros k Hk. apply not_elem_of_cons in Hk as [Hne Hk].
        rewrite Hother by exact Hk. apply lookup_insert_ne. congruence.
      + intros name col Hc. apply elem_of_cons in Hc as [[= -> ->]|Hc].
        * exists v0. split; [|exact Hv0].
          rewrite Hother by exact Hn0. apply lookup_insert_eq.
        * apply Hin. exact Hc. }
    destruct (is_None (dict_get values name0)) eqn:Hnone.
    + apply Hstep. destruct (dict_get values name0); try discriminate. reflexivity.
    + destruct (to_python (h col0) (dict_get values name0)) as [e|v0] eqn:Hv;
        [discriminate|].
      apply Hstep. reflexivity.
Qed.

(** X6: the constructor fills an instance by field name.  Whenever it
    returns, the instance has a value for exactly the fields of its class;
    the value of a field is [None] when the keyword arguments have no value
    or [None] under the field's name, and the column's [to_python] of the
    given value otherwise; and the identifier is what was passed as [_id]. *)
Theorem init_fills_every_field (rt : runtime) (cls : klass)
    (values vals : gmap string json) (eid : json) :
  NoDup (_columns cls).*1 ->
  BaseElement.init rt cls values = inr (eid, vals) ->
  eid = dict_get values "_id" /\
  dom vals = list_to_set (_columns cls).*1 /\
  (forall name col, (name, col) ∈ _columns cls ->
     exists v, vals !! name = Some v /\
       if is_None (dict_get values name) then v = JNull
       else to_python (heap rt col) (dict_get values name) = inr v).
Proof.
  intros Hnd. unfold BaseElement.init.
  destruct (values !! "self"); [discriminate|]. unfold_monad.
  destruct (BaseElement.init_values (heap rt) values (_columns cls) ∅) as [e|vals0] eqn:Hi;
    [discriminate|].
  intros [= <- <-].
  destruct (init_values_spec _ _ _ _ _ Hnd Hi) as (Hdom & _ & Hin).
  split; [reflexivity|]. split; [|exact Hin].
  rewrite Hdom, dom_empty_L. set_solver.
Qed.

Lemma init_fills_every_field_witness :
  dom ({[ "vid" := JNull ]} : gmap string json) = list_to_set (_columns samples.person).*1.
Proof.
  apply (init_fills_every_field samples.rt1 samples.person (samples.person_fields 7)
           {[ "vid" := JNull ]} (JNum 7)).
  - simpl. repeat (constructor; [set_solver|]). constructor.
  - reflexivity.
Defined.

Lemma validate_loop_spec (h : loc -> Column) (cols : list (string * loc))
    (vals : gmap string json) :
  NoDup cols.*1 ->
  (forall name, name ∈ cols.*1 -> is_Some (vals !! name)) ->
  match BaseElement.validate_loop h cols vals with
  | inr vals' =>
      dom vals' = dom vals /\
      (forall k, k ∉ cols.*1 -> vals' !! k = vals !! k) /\
      (forall name col, (name, col) ∈ cols ->
         exists v v', vals !! name = Some v /\ columns.validate (h col) v = inr v' /\
                      vals' !! name = Some v')
  | inl e =>
      exists name col v, (name, col) ∈ cols /\ vals !! name = Some v /\
                         columns.validate (h col) v = inl e
  end.
Proof.
  revert vals. induction cols as [|[name0 col0] cols IH]; intros vals Hnd Hall; simpl.
  - repeat split; try done. intros name col H. inversion H.
  - apply NoDup_cons in Hnd as [Hn0 Hnd].
    destruct (Hall name0) as [v0 Hv0]; [left|].
    unfold BaseElement.getattr, getitem. rewrite Hv0. unfold_monad.
    destruct (columns.validate (h col0) v0) as [e|v0'] eqn:Hval.
    + exists name0, col0, v0. split; [left|]. done.
    + specialize (IH (<[name0 := v0']> vals) Hnd).
      assert (forall name, name ∈ cols.*1 -> is_Some (<[name0 := v0']> vals !! name))
        as Hall'.
      { intros name Hin. rewrite lookup_insert_ne by (intros ->; contradiction).
        apply Hall. by right. }
      specialize (IH Hall').
      destruct (BaseElement.validate_loop h cols (<[name0 := v0']> vals)) as [e|vals'].
      * destruct IH as (name & col & v & Hin & Hv & He).
        exists name, col, v. split; [by right|]. split; [|exact He].
        rewrite lookup_insert_ne in Hv; [exact Hv|].
        intros ->. apply Hn0. apply list_elem_of_fmap. exists (name, col). done.
      * destruct IH as (Hdom & Hother & Hin). split; [|split].
        -- rewrite Hdom, dom_insert_L.
           assert (name0 ∈ dom vals) by (apply elem_of_dom; by eexists). set_solver.
        -- intros k Hk. apply not_elem_of_cons in Hk as [Hne Hk].
           rewrite Hother by exact Hk. apply lookup_insert_ne. congruence.
        -- intros name col Hc. apply elem_of_cons in Hc as [[= -> ->]|Hc].
           ++ exists v0, v0'. split; [exact Hv0|]. split; [exact Hval|].
              rewrite Hother by exact Hn0. apply lookup_insert_eq.
           ++ destruct (Hin name col Hc) as (v & v' & Hv & Hvv & Hv').
              exists v, v'. split; [|done].
              rewrite lookup_insert_ne in Hv; [exact Hv|].
              intros ->. apply Hn0. apply list_elem_of_fmap. exists (name, col). done.
Qed.

(** X7: [validate] works field by field.  On an instance that has a value
    for each field of its class, it either returns the instance with every
    field's value replaced by its column's [validate] of it, the class, the
    identifier and the set of fields unchanged, or raises what some
    column's [validate] raised on that field's value; it never fails on
    looking a field up. *)
Theorem validate_is_fieldwise (rt : runtime) (self : element) :
  NoDup (_columns (element_cls self)).*1 ->
  (forall name, name ∈ (_columns (element_cls self)).*1 ->
                is_Some (element_values self !! name)) ->
  match BaseElement.validate rt self with
  | inr self' =>
      element_cls self' = element_cls self /\
      element_eid self' = element_eid self /\
      dom (element_values self') = dom (element_values self) /\
      (forall name col, (name, col) ∈ _columns (element_cls self) ->
         exists v v', element_values self !! name = Some v /\
                      columns.validate (heap rt col) v = inr v' /\
                      element_values self' !! name = Some v')
  | inl e =>
      exists name col v,
        (name, col) ∈ _columns (element_cls self) /\
        element_values self !! name = Some v /\
        columns.validate (heap rt col) v = inl e
  end.
Proof.
  intros Hnd Hall. unfold BaseElement.validate. unfold_monad.
  pose proof (validate_loop_spec (heap rt) _ _ Hnd Hall) as H.
  destruct (BaseElement.validate_loop (heap rt) (_columns (element_cls self))
              (element_values self)) as [e|vals']; [exact H|].
  destruct H as (Hdom & _ & Hin).
  destruct self; simpl in *; done.
Qed.

Lemma validate_is_fieldwise_witness :
  match BaseElement.validate samples.rt1
          (VertexObj samples.person (JNum 7) {[ "vid" := JNull ]}) with
  | inr self' =>
      element_cls self' = samples.person /\
      element_eid self' = JNum 7 /\
      dom (element_values self') = dom ({[ "vid" := JNull ]} : gmap string json) /\
      (forall name col, (name, col) ∈ _columns samples.person ->
         exists v v', ({[ "vid" := JNull ]} : gmap string json) !! name = Some v /\
                      columns.validate (heap samples.rt1 col) v = inr v' /\
                      element_values self' !! name = Some v')
  | inl e =>
      exists name col v,
        (name, col) ∈ _columns samples.person /\
        ({[ "vid" := JNull ]} : gmap string json) !! name = Some v /\
        columns.validate (heap samples.rt1 col) v = inl e
  end.
Proof.
  refine (validate_is_fieldwise samples.rt1
            (VertexObj samples.person (JNum 7) {[ "vid" := JNull ]}) _ _).
  - simpl. repeat (constructor; [set_solver|]). constructor.
  - intros name Hin. simpl in Hin. apply list_elem_of_singleton in Hin. subst name.
    by eexists.
Defined.

Lemma as_dict_loop_spec (h : loc -> Column) (cols : list (string * loc))
    (vals acc : gmap string json) :
  NoDup cols.*1 ->
  (forall name, name ∈ cols.*1 -> is_Some (vals !! name)) ->
  match BaseElement.as_dict_loop h cols vals acc with
  | inr d =>
      dom d = dom acc ∪ list_to_set cols.*1 /\
      (forall k, k ∉ cols.*1 -> d !! k = acc !! k) /\
      (forall name col, (name, col) ∈ cols ->
         exists v v', vals !! name = Some v /\ to_database (h col) v = inr v' /\
                      d !! name = Some v')
  | inl e =>
      exists name col v, (name, col) ∈ cols /\ vals !! name = Some v /\
                         to_database (h col) v = inl e
  end.
Proof.
  revert acc. induction cols as [|[name0 col0] cols IH]; intros acc Hnd Hall; simpl.
  - split; [set_solver|]. split; [done|]. intros name col H. inversion H.
  - apply NoDup_cons in Hnd as [Hn0 Hnd].
    destruct (Hall name0) as [v0 Hv0]; [left|].
    unfold BaseElement.getattr, getitem. rewrite Hv0. unfold_monad.
    destruct (to_database (h col0) v0) as [e|v0'] eqn:Hval.
    + exists name0, col0, v0. split; [left|]. done.
    + specialize (IH (<[name0 := v0']> acc) Hnd).
      assert (forall name, name ∈ cols.*1 -> is_Some (vals !! name)) as Hall'.
      { intros name Hin. apply Hall. by right. }
      specialize (IH Hall').
      destruct (BaseElement.as_dict_loop h cols vals (<[name0 := v0']> acc)) as [e|d].
      * destruct IH as (name & col & v & Hin & Hv & He).
        exists name, col, v. split; [by right|]. done.
      * destruct IH as (Hdom & Hother & Hin). split; [|split].
        -- rewrite Hdom, dom_insert_L. set_solver.
        -- intros k Hk. apply not_elem_of_cons in Hk as [Hne Hk].
           rewrite Hother by exact Hk. apply lookup_insert_ne. congruence.
        -- intros name col Hc. apply elem_of_cons in Hc as [[= -> ->]|Hc].
           ++ exists v0, v0'. split; [exact Hv0|]. split; [exact Hval|].
              rewrite Hother by exact Hn0. apply lookup_insert_eq.
           ++ apply Hin. exact Hc.
Qed.

(** X8: [as_dict] works field by field.  On an instance that has a value
    for each field of its class, it either returns a dictionary with
    exactly the field names as keys, each bound to the column's
    [to_database] of the field's value, or raises what some column's
    [to_database] raised on that field's value. *)
Theorem as_dict_is_fieldwise (rt : runtime) (self : element) :
  NoDup (_columns (element_cls self)).*1 ->
  (forall name, name ∈ (_columns (element_cls self)).*1 ->
                is_Some (element_values self !! name)) ->
  match BaseElement.as_dict rt self with
  | inr d =>
      dom d = list_to_set (_columns (element_cls self)).*1 /\
      (forall name col, (name, col) ∈ _columns (element_cls self) ->
         exists v v', element_values self !! name = Some v /\
                      to_database (heap rt col) v = inr v' /\ d !! name = Some v')
  | inl e =>
      exists name col v,
        (name, col) ∈ _columns (element_cls self) /\
        element_values self !! name = Some v /\
        to_database (heap rt col) v = inl e
  end.
Proof.
  intros Hnd Hall. unfold BaseElement.as_dict.
  pose proof (as_dict_loop_spec (heap rt) _ (element_values self) ∅ Hnd Hall) as H.
  destruct (BaseElement.as_dict_loop (heap rt) (_columns (element_cls self))
              (element_values self) ∅) as [e|d]; [exact H|].
  destruct H as (Hdom & _ & Hin). split; [|exact Hin].
  rewrite Hdom, dom_empty_L. set_solver.
Qed.

Lemma as_dict_is_fieldwise_witness :
  match BaseElement.as_dict samples.rt1
          (VertexObj samples.person (JNum 7) {[ "vid" := JStr "u1" ]}) with
  | inr d =>
      dom d = list_to_set (_columns samples.person).*1 /\
      (forall name col, (name, col) ∈ _columns samples.person ->
         exists v v', ({[ "vid" := JStr "u1" ]} : gmap string json) !! name = Some v /\
                      to_database (heap samples.rt1 col) v = inr v' /\ d !! name = Some v')
  | inl e =>
      exists name col v,
        (name, col) ∈ _columns samples.person /\
        ({[ "vid" := JStr "u1" ]} : gmap string json) !! name = Some v /\
        to_database (heap samples.rt1 col) v = inl e
  end.
Proof.
  refine (as_dict_is_fieldwise samples.rt1
            (VertexObj samples.person (JNum 7) {[ "vid" := JStr "u1" ]}) _ _).
  - simpl. repeat (constructor; [set_solver|]). constructor.
  - intros name Hin. simpl in Hin. apply list_elem_of_singleton in Hin. subst name.
    by eexists.
Defined.

(** ** Saving a vertex *)

Lemma append_inj_l (a b s : string) : a +:+ s = b +:+ s -> a = b.
Proof.
  revert b. induction a as [|c a IH]; intros [|c' b] H; simpl in H.
  - reflexivity.
  - exfalso. apply (f_equal String.length) in H.
    rewrite ?append_length in H. simpl in H. rewrite ?append_length in H. lia.
  - exfalso. apply (f_equal String.length) in H.
    rewrite ?append_length in H. simpl in H. rewrite ?append_length in H. lia.
  - injection H as -> H. f_equal. apply IH. exact H.
Qed.

Lemma vertex_save_fields_spec (h : loc -> Column) (values : gmap string json)
    (cols : list (string * loc)) (qs : list string) (params : gmap string json) :
  (Vertex.save_fields h values cols qs params).1 = qs ++ vertex_field_lines h cols /\
  dom (Vertex.save_fields h values cols qs params).2
    = dom params ∪ list_to_set (value_names cols) /\
  (forall k, k ∉ value_names cols ->
     (Vertex.save_fields h values cols qs params).2 !! k = params !! k) /\
  (NoDup cols.*1 -> forall name col, (name, col) ∈ cols ->
     (Vertex.save_fields h values cols qs params).2 !! (name +:+ "_val")
       = Some (dict_get values name)).
Proof.
  unfold Vertex.save_fields, vertex_field_lines, value_names. revert qs params.
  induction cols as [|[name0 col0] cols IH]; intros qs params; simpl.
  - rewrite app_nil_r. repeat split; try done; [set_solver|].
    intros _ name col H. inversion H.
  - specialize (IH (qs ++ ["v.setProperty(" +:+ dq +:+ format_opt (db_field_name (h col0))
                             +:+ dq +:+ ", " +:+ (name0 +:+ "_val") +:+ ")"])
                   (<[name0 +:+ "_val" := dict_get values name0]> params)).
    destruct IH as (H1 & H2 & H3 & H4). split; [|split; [|split]].
    + rewrite H1, <- app_assoc. reflexivity.
    + rewrite H2, dom_insert_L. set_solver.
    + intros k Hk. apply not_elem_of_cons in Hk as [Hne Hk].
      rewrite H3 by exact Hk. apply lookup_insert_ne. congruence.
    + intros Hnd name col Hc. apply NoDup_cons in Hnd as [Hn0 Hnd].
      apply elem_of_cons in Hc as [[= -> ->]|Hc].
      * rewrite H3; [apply lookup_insert_eq|].
        intros Hin. apply list_elem_of_fmap in Hin as ([n c] & Heq & Hin). simpl in Heq.
        apply append_inj_l in Heq. subst n. apply Hn0.
        apply list_elem_of_fmap. exists (name0, c). done.
      * exact (H4 Hnd name col Hc).
Qed.

Lemma value_name_not_reserved (cols : list (string * loc)) :
  ("element_type" ∉ value_names cols) /\ ("eid" ∉ value_names cols).
Proof.
  unfold value_names. split; intros Hin;
    apply list_elem_of_fmap in Hin as ([name c] & Heq & _); simpl in Heq;
    repeat (destruct name as [|? name]; simpl in Heq; try discriminate).
Qed.

(** X9: the parameters [Vertex.save] binds.  The discriminator is bound to
    [element_type]; [eid] is bound to the identifier exactly when the
    vertex has one; each field's converted value is bound to the field's
    name followed by [_val]; and nothing else is bound. *)
Theorem vertex_save_parameters (rt : runtime) (self : element)
    (values : gmap string json) :
  NoDup (_columns (element_cls self)).*1 ->
  let params := (Vertex.save_query rt self values).2 in
  params !! "element_type" = Some (JStr (get_element_type (element_cls self))) /\
  params !! "eid" =
    (if is_None (element_eid self) then None else Some (element_eid self)) /\
  (forall name col, (name, col) ∈ _columns (element_cls self) ->
     params !! (name +:+ "_val") = Some (dict_get values name)) /\
  dom params =
    {[ "element_type" ]} ∪ (if is_None (element_eid self) then ∅ else {[ "eid" ]})
    ∪ list_to_set (value_names (_columns (element_cls self))).
Proof.
  intros Hnd. unfold Vertex.save_query, Vertex.save_head.
  destruct (value_name_not_reserved (_columns (element_cls self))) as [Ht He].
  destruct (is_None (element_eid self)) eqn:Hnew; cbn zeta beta iota.
  - match goal with |- context [Vertex.save_fields ?h ?v ?c ?q ?p] =>
      destruct (vertex_save_fields_spec h v c q p) as (_ & H2 & H3 & H4);
      destruct (Vertex.save_fields h v c q p) as [qs params] end.
    simpl in *. split; [|split; [|split]].
    + rewrite H3 by exact Ht. apply lookup_insert_eq.
    + rewrite H3 by exact He. rewrite lookup_insert_ne by discriminate. apply lookup_empty.
    + apply H4. exact Hnd.
    + rewrite H2, dom_insert_L, dom_empty_L. set_solver.
  - match goal with |- context [Vertex.save_fields ?h ?v ?c ?q ?p] =>
      destruct (vertex_save_fields_spec h v c q p) as (_ & H2 & H3 & H4);
      destruct (Vertex.save_fields h v c q p) as [qs params] end.
    simpl in *. split; [|split; [|split]].
    + rewrite H3 by exact Ht. apply lookup_insert_eq.
    + rewrite H3 by exact He. rewrite lookup_insert_ne by discriminate.
      apply lookup_singleton_eq.
    + apply H4. exact Hnd.
    + rewrite H2, dom_insert_L, dom_singleton_L. set_solver.
Qed.

Lemma vertex_save_parameters_witness :
  (Vertex.save_query samples.rt1
     (VertexObj samples.person (JNum 7) {[ "vid" := JStr "u1" ]})
     {[ "vid" := JStr "u1" ]}).2 !! "vid_val" = Some (JStr "u1").
Proof.
  destruct (vertex_save_parameters samples.rt1
              (VertexObj samples.person (JNum 7) {[ "vid" := JStr "u1" ]})
              {[ "vid" := JStr "u1" ]}) as (_ & _ & H & _).
  - simpl. repeat (constructor; [set_solver|]). constructor.
  - apply (H "vid" 0). set_solver.
Defined.

(** X10: the text of the script [Vertex.save] builds.  It starts with the
    line that adds a vertex or the one that fetches it by identifier, sets
    the element type, has one [setProperty] line per field, in the order of
    the class, and ends with the commit and the read-back; the field values
    and the value of the identifier appear nowhere in it, so two instances
    of one class that are both new, or both saved, get the same text. *)
Theorem vertex_save_script (rt : runtime) (self : element) (values : gmap string json) :
  (Vertex.save_query rt self values).1 =
    (if is_None (element_eid self) then "v = g.addVertex()" else "v = g.v(eid)")
    :: ("v.setProperty(" +:+ dq +:+ "element_type" +:+ dq +:+ ", element_type)")
    :: vertex_field_lines (heap rt) (_columns (element_cls self))
    ++ ["g.stopTransaction(SUCCESS)"; "g.getVertex(v)"] /\
  (forall self' values',
     element_cls self' = element_cls self ->
     is_None (element_eid self') = is_None (element_eid self) ->
     (Vertex.save_query rt self' values').1 = (Vertex.save_query rt self values).1).
Proof.
  assert (forall s v,
    (Vertex.save_query rt s v).1 =
      (if is_None (element_eid s) then "v = g.addVertex()" else "v = g.v(eid)")
      :: ("v.setProperty(" +:+ dq +:+ "element_type" +:+ dq +:+ ", element_type)")
      :: vertex_field_lines (heap rt) (_columns (element_cls s))
      ++ ["g.stopTransaction(SUCCESS)"; "g.getVertex(v)"]) as Hshape.
  { intros s v. unfold Vertex.save_query, Vertex.save_head.
    destruct (is_None (element_eid s)); cbn zeta beta iota;
      match goal with |- context [Vertex.save_fields ?h ?v ?c ?q ?p] =>
        destruct (vertex_save_fields_spec h v c q p) as (H1 & _);
        destruct (Vertex.save_fields h v c q p) as [qs params] end;
      simpl in *; subst qs; rewrite <- !app_assoc; reflexivity. }
  split; [apply Hshape|].
  intros self' values' Hc Hn. rewrite !Hshape, Hc, Hn. reflexivity.
Qed.

Lemma vertex_save_script_witness :
  (Vertex.save_query samples.rt1 (VertexObj samples.person (JNum 7) {[ "vid" := JStr "a" ]})
     {[ "vid" := JStr "a" ]}).1 =
  (Vertex.save_query samples.rt1 (VertexObj samples.person (JNum 8) {[ "vid" := JStr "b" ]})
     {[ "vid" := JStr "b" ]}).1.
Proof.
  apply (proj2 (vertex_save_script samples.rt1
                  (VertexObj samples.person (JNum 8) {[ "vid" := JStr "b" ]})
                  {[ "vid" := JStr "b" ]})
           (VertexObj samples.person (JNum 7) {[ "vid" := JStr "a" ]})
           {[ "vid" := JStr "a" ]}); reflexivity.
Defined.

Lemma execute_query_spec (query : string) (params : gmap string json) (w : world) :
  calls (execute_query query params true w).2 = calls w ++ [posted query params] /\
  remote (execute_query query params true w).2 = remote w /\
  (execute_query query params true w).1 =
    match answer w (posted query params) with
    | Status200 results => inr results
    | StatusError error => inl (ThunderdomeQueryError error)
    end.
Proof.
  unfold execute_query, answer, posted.
  destruct (remote w (calls w) _); done.
Qed.

(** X11: [Vertex.save] makes at most one round trip.  When validation or
    the conversion of a field fails, it raises that error and posts
    nothing.  Otherwise it posts the one script it built; a failure the
    service reports is raised as [ThunderdomeQueryError]; an answer of
    exactly one row that is a mapping gives back the validated instance
    with the row's [_id] as its identifier; and an answer with any other
    number of rows raises [AssertionError]. *)
Theorem vertex_save_round_trip (rt : runtime) (self : element) (w : world) :
  (forall e, BaseElement.validate rt self = inl e ->
             Vertex.save rt self w = (inl e, w)) /\
  (forall self1 e,
     BaseElement.validate rt self = inr self1 ->
     BaseElement.as_dict rt self1 = inl e ->
     Vertex.save rt self w = (inl e, w)) /\
  (forall self1 values,
     BaseElement.validate rt self = inr self1 ->
     BaseElement.as_dict rt self1 = inr values ->
     let c := posted (join_lines (Vertex.save_query rt self1 values).1)
                     (Vertex.save_query rt self1 values).2 in
     calls (Vertex.save rt self w).2 = calls w ++ [c] /\
     (forall d, answer w c = Status200 [JObj d] ->
        (Vertex.save rt self w).1 = inr (set_eid self1 (dict_get d "_id"))) /\
     (forall rows, answer w c = Status200 rows -> length rows <> 1 ->
        (Vertex.save rt self w).1 = inl AssertionError) /\
     (forall msg, answer w c = StatusError msg ->
        (Vertex.save rt self w).1 = inl (ThunderdomeQueryError msg))).
Proof.
  unfold Vertex.save. split; [|split].
  - intros e He. unfold_monad. rewrite He. reflexivity.
  - intros self1 e Hv Hd. unfold_monad. rewrite Hv. simpl. rewrite Hd. reflexivity.
  - intros self1 values Hv Hd. cbn [bind ret ST_monad]. unfold lift.
    rewrite Hv, Hd.
    destruct (Vertex.save_query rt self1 values) as [qs params] eqn:Hq.
    cbn [fst snd].
    destruct (execute_query_spec (join_lines qs) params w) as (Hc & _ & Hr).
    set (c := posted (join_lines qs) params) in *.
    destruct (execute_query (join_lines qs) params true w) as [[e|results] w1].
    + simpl in *. split; [exact Hc|]. split; [|split].
      * intros d Ha. rewrite Ha in Hr. discriminate.
      * intros rows Ha. rewrite Ha in Hr. discriminate.
      * intros msg Ha. rewrite Ha in Hr. injection Hr as ->. reflexivity.
    + simpl in *. split; [|split; [|split]].
      * destruct results as [|r [|r' rs]]; try exact Hc. destruct r; exact Hc.
      * intros d Ha. rewrite Ha in Hr. injection Hr as ->. reflexivity.
      * intros rows Ha Hl. rewrite Ha in Hr. injection Hr as ->.
        destruct rows as [|r [|r' rs]]; try reflexivity. simpl in Hl. lia.
      * intros msg Ha. rewrite Ha in Hr. discriminate.
Qed.

Lemma vertex_save_round_trip_witness :
  (Vertex.save samples.rt1 samples.new_person
     (samples.constant_world [samples.person_row 7])).1 =
    inr (VertexObj samples.person (JNum 7) {[ "vid" := JNull ]}) /\
  (Vertex.save samples.rt1 samples.new_person (samples.constant_world [])).1 =
    inl AssertionError.
Proof.
  split.
  - apply (proj1 (proj2 (proj2 (proj2 (vertex_save_round_trip samples.rt1
             samples.new_person (samples.constant_world [samples.person_row 7])))
             samples.new_person {[ "vid" := JNull ]} eq_refl eq_refl))
             (samples.person_fields 7)).
    reflexivity.
  - apply (proj1 (proj2 (proj2 (proj2 (proj2 (vertex_save_round_trip samples.rt1
             samples.new_person (samples.constant_world [])))
             samples.new_person {[ "vid" := JNull ]} eq_refl eq_refl))) []).
    + reflexivity.
    + simpl. lia.
Defined.

(** ** Traversals *)

(** X12: a traversal from a vertex posts exactly one script, addressed to
    the vertex's identifier whatever it is; the label is bound, as [lbl],
    exactly when it is truthy, so [None] and the empty string both mean an
    unfiltered step; and what comes back is one element per row the
    service returned, in the rows' order, or the error of the first row
    that does not deserialize. *)
Theorem vertex_traversal (rt : runtime) (self : element) (operation : string)
    (label : json) (w : world) :
  exists c,
    calls (Vertex._simple_traversal rt self operation label w).2 = calls w ++ [c] /\
    c.1 = "g.stopTransaction(FAILURE)" +:+ nl +:+ "g.v(eid)." +:+ operation +:+
          (if truthy label then "(lbl)" else "()") /\
    c.2 !! "eid" = Some (element_eid self) /\
    c.2 !! "lbl" = (if truthy label then Some label else None) /\
    (forall rows, answer w c = Status200 rows ->
       (Vertex._simple_traversal rt self operation label w).1
         = for_each (Element.deserialize rt) rows /\
       (forall objs, (Vertex._simple_traversal rt self operation label w).1 = inr objs ->
          length objs = length rows /\
          Forall2 (fun r o => Element.deserialize rt r = inr o) rows objs)) /\
    (forall msg, answer w c = StatusError msg ->
       (Vertex._simple_traversal rt self operation label w).1
         = inl (ThunderdomeQueryError msg)).
Proof.
  unfold Vertex._simple_traversal.
  set (q := "g.v(eid)." +:+ operation +:+ (if truthy label then "(lbl)" else "()")).
  set (ps := if truthy label
             then <["lbl" := label]> ({[ "eid" := element_eid self ]} : gmap string json)
             else {[ "eid" := element_eid self ]}).
  assert ((if truthy label
           then execute_query ("g.v(eid)." +:+ operation +:+ "(lbl)")
                  (<["lbl" := label]> {[ "eid" := element_eid self ]}) true
           else execute_query ("g.v(eid)." +:+ operation +:+ "()")
                  {[ "eid" := element_eid self ]} true)
          = execute_query q ps true) as ->.
  { subst q ps. destruct (truthy label); reflexivity. }
  exists (posted q ps).
  destruct (execute_query_spec q ps w) as (Hc & _ & Hr).
  cbn [bind ST_monad].
  assert ((posted q ps).2 !! "eid" = Some (element_eid self)) as Heid.
  { unfold posted. cbn [snd]. subst ps.
    destruct (truthy label); [rewrite lookup_insert_ne by discriminate|];
      apply lookup_singleton_eq. }
  assert ((posted q ps).2 !! "lbl" = (if truthy label then Some label else None)) as Hlbl.
  { unfold posted. cbn [snd]. subst ps.
    destruct (truthy label); [apply lookup_insert_eq|].
    apply lookup_singleton_ne. discriminate. }
  destruct (execute_query q ps true w) as [[e|results] w1]; simpl in Hc, Hr.
  - split; [exact Hc|]. split; [reflexivity|]. split; [exact Heid|].
    split; [exact Hlbl|]. split.
    + intros rows Ha. rewrite Ha in Hr. discriminate.
    + intros msg Ha. rewrite Ha in Hr. injection Hr as ->. reflexivity.
  - rewrite for_each_lift. split; [exact Hc|]. split; [reflexivity|].
    split; [exact Heid|]. split; [exact Hlbl|]. split.
    + intros rows Ha. rewrite Ha in Hr. injection Hr as ->. split; [reflexivity|].
      intros objs Ho. simpl in Ho. apply for_each_result in Ho.
      split; [|exact Ho]. apply Forall2_length in Ho. lia.
    + intros msg Ha. rewrite Ha in Hr. discriminate.
Qed.

Lemma vertex_traversal_witness :
  (Vertex.outV samples.rt1 (samples.saved_vertex 1) (JStr "")
     (samples.constant_world [samples.person_row 7; samples.person_row 8])).1 =
    inr [VertexObj samples.person (JNum 7) {[ "vid" := JNull ]};
         VertexObj samples.person (JNum 8) {[ "vid" := JNull ]}].
Proof.
  destruct (vertex_traversal samples.rt1 (samples.saved_vertex 1) "out" (JStr "")
              (samples.constant_world [samples.person_row 7; samples.person_row 8]))
    as (c & _ & _ & _ & _ & H & _).
  destruct (H [samples.person_row 7; samples.person_row 8] eq_refl) as [Hr _].
  unfold Vertex.outV. rewrite Hr. reflexivity.
Defined.

(** ** The endpoints of an edge *)



(** ** Saving an edge that has an identifier *)

(** X14: an edge that already has an identifier is saved without its
    endpoints.  [validate] asks nothing of them, even when they are
    [None]; and once the fields validate and convert, [save] makes exactly
    one call, whose script starts by fetching the edge by [eid], with [eid]
    bound to the identifier and neither [v1eid] nor [v2eid] bound. *)
Theorem saved_edge_save_ignores_endpoints (rt : runtime) (cls : klass) (eid : json)
    (vals : gmap string json) (i o : endpoint) (w : world) :
  is_None eid = false ->
  Edge.validate rt (EdgeObj cls eid vals i o)
    = BaseElement.validate rt (EdgeObj cls eid vals i o) /\
  (forall self1 values,
     Edge.validate rt (EdgeObj cls eid vals i o) = inr self1 ->
     BaseElement.as_dict rt self1 = inr values ->
     exists more params,
       calls (Edge.save rt (EdgeObj cls eid vals i o) w).2 =
         calls w ++ [posted (join_lines ("e = g.e(eid)" :: more)) params] /\
       params !! "eid" = Some eid /\
       params !! "label" = Some (JStr (get_label cls)) /\
       params !! "v1eid" = None /\ params !! "v2eid" = None).
Proof.
  intros Hsaved. split.
  - unfold Edge.validate. rewrite Hsaved. reflexivity.
  - intros self1 values Hval Hdict.
    destruct (validate_shape rt cls eid vals i o self1 Hval) as [vals' ->].
    unfold Edge.save, Edge.save_head. remember join_lines as jl eqn:Hjl.
    cbn [bind ret ST_monad]. unfold lift. rewrite Hval.
    cbn [element_eid element_cls]. rewrite Hsaved. cbn [bind ret ST_monad].
    rewrite Hdict.
    destruct (save_fields_spec (heap rt) values (_columns cls) ["e = g.e(eid)"]
                (<["eid" := eid]> {[ "label" := JStr (get_label cls) ]}))
      as [[more Hm] Hp].
    destruct (Edge.save_fields _ _ _ _ _) as [qs params]. simpl in Hm, Hp. subst qs.
    exists (more ++ ["g.stopTransaction(SUCCESS)"; "g.e(e.id)"]), params.
    assert (((("e = g.e(eid)" :: more) ++ ["g.stopTransaction(SUCCESS)"]) ++ ["g.e(e.id)"])
            = "e = g.e(eid)" :: more ++ ["g.stopTransaction(SUCCESS)"; "g.e(e.id)"])
      as Hqs.
    { simpl. rewrite <- app_assoc. reflexivity. }
    split; [|split; [|split; [|split]]].
    + rewrite Hqs.
      match goal with |- context [execute_query ?q ?ps true w] =>
        destruct (execute_query_spec q ps w) as (Hc & _ & _);
        destruct (execute_query q ps true w) as [[e|[|r [|r' rs]]] w1] end;
        try exact Hc.
      destruct r; exact Hc.
    + rewrite Hp; [apply lookup_insert_eq|].
      intros name Heq. repeat (destruct name as [|? name]; simpl in Heq; try discriminate).
    + rewrite Hp; [rewrite lookup_insert_ne by discriminate; apply lookup_singleton_eq|].
      intros name. apply val_suffix_ne; [reflexivity|]. intros c; discriminate.
    + rewrite Hp; [rewrite lookup_insert_ne by discriminate;
                   apply lookup_singleton_ne; discriminate|].
      intros name. apply val_suffix_ne; [reflexivity|]. intros c; discriminate.
    + rewrite Hp; [rewrite lookup_insert_ne by discriminate;
                   apply lookup_singleton_ne; discriminate|].
      intros name. apply val_suffix_ne; [reflexivity|]. intros c; discriminate.
Qed.

Lemma saved_edge_save_ignores_endpoints_witness :
  exists more params,
    calls (Edge.save samples.rt1 (EdgeObj samples.knows (JNum 5) ∅ (EpVal JNull) (EpVal JNull))
             (samples.constant_world [JObj {[ "_id" := JNum 5 ]}])).2 =
      [posted (join_lines ("e = g.e(eid)" :: more)) params] /\
    params !! "eid" = Some (JNum 5).
Proof.
  destruct (proj2 (saved_edge_save_ignores_endpoints samples.rt1 samples.knows (JNum 5) ∅
                     (EpVal JNull) (EpVal JNull)
                     (samples.constant_world [JObj {[ "_id" := JNum 5 ]}]) eq_refl)
              (EdgeObj samples.knows (JNum 5) ∅ (EpVal JNull) (EpVal JNull)) ∅
              eq_refl eq_refl)
    as (more & params & Hc & He & _).
  exists more, params. split; [exact Hc|exact He].
Defined.

(** ** Fetching *)

(** X15: [get_by_eid] posts one script with the identifier bound to [eid];
    an empty answer raises [DoesNotExist]; otherwise the first row alone
    decides the result, which is its deserialization. *)
Theorem get_by_eid_first_row (rt : runtime) (eid : json) (w : world) :
  calls (Vertex.get_by_eid rt eid w).2 = calls w ++ [posted "g.v(eid)" {[ "eid" := eid ]}] /\
  (answer w (posted "g.v(eid)" {[ "eid" := eid ]}) = Status200 [] ->
   (Vertex.get_by_eid rt eid w).1 = inl DoesNotExist) /\
  (forall r rest,
     answer w (posted "g.v(eid)" {[ "eid" := eid ]}) = Status200 (r :: rest) ->
     (Vertex.get_by_eid rt eid w).1 = Element.deserialize rt r) /\
  (forall msg,
     answer w (posted "g.v(eid)" {[ "eid" := eid ]}) = StatusError msg ->
     (Vertex.get_by_eid rt eid w).1 = inl (ThunderdomeQueryError msg)).
Proof.
  unfold Vertex.get_by_eid. cbn [bind ST_monad].
  destruct (execute_query_spec "g.v(eid)" {[ "eid" := eid ]} w) as (Hc & _ & Hr).
  destruct (execute_query "g.v(eid)" {[ "eid" := eid ]} true w) as [res w1].
  cbn [fst snd] in Hc, Hr. subst res. split.
  { destruct (answer w _) as [[|r rs]|msg]; exact Hc. }
  split; [|split].
  - intros ->. reflexivity.
  - intros r rest ->. reflexivity.
  - intros msg ->. reflexivity.
Qed.

Lemma get_by_eid_first_row_witness :
  (Vertex.get_by_eid samples.rt1 (JNum 3) (samples.constant_world [])).1 = inl DoesNotExist /\
  (Vertex.get_by_eid samples.rt1 (JNum 3)
     (samples.constant_world [samples.person_row 7; JNull])).1 =
    Element.deserialize samples.rt1 (samples.person_row 7).
Proof.
  split.
  - apply (proj1 (proj2 (get_by_eid_first_row samples.rt1 (JNum 3)
                           (samples.constant_world [])))).
    reflexivity.
  - apply (proj1 (proj2 (proj2 (get_by_eid_first_row samples.rt1 (JNum 3)
                           (samples.constant_world [samples.person_row 7; JNull]))))
             (samples.person_row 7) [JNull]).
    reflexivity.
Defined.

(** X16: the outcomes of [get], whatever the service does.  It makes one
    call, asking for the one identifier.  A failure of the service, and any
    number of non-empty rows other than one, give [DoesNotExist].  With
    exactly one non-empty row the result is what the loop of [all] makes of
    that row, except that a [ThunderdomeQueryError] raised there is turned
    into [DoesNotExist] as well. *)
Theorem get_outcomes (rt : runtime) (vid : string) (w : world) :
  calls (Vertex.get rt vid w).2 = calls w ++ [fetch_call [vid]] /\
  (forall msg, answer w (fetch_call [vid]) = StatusError msg ->
               (Vertex.get rt vid w).1 = inl DoesNotExist) /\
  (forall results, answer w (fetch_call [vid]) = Status200 results ->
     length (List.filter truthy results) <> 1 ->
     (Vertex.get rt vid w).1 = inl DoesNotExist) /\
  (forall results r, answer w (fetch_call [vid]) = Status200 results ->
     List.filter truthy results = [r] ->
     (Vertex.get rt vid w).1 =
       match Vertex.deserialize_row rt r with
       | inl (ThunderdomeQueryError _) => inl DoesNotExist
       | other => other
       end).
Proof.
  split; [|split; [|split]].
  - pose proof (all_posts_once rt [vid] w) as Hc.
    unfold Vertex.get, try_except. cbn [bind ret ST_monad].
    destruct (Vertex.all rt (Some [vid]) w) as [[e|[|o [|o' objs]]] w'];
      simpl in Hc |- *; try exact Hc.
    destruct e; exact Hc.
  - intros msg Hr. unfold answer, fetch_call in Hr.
    unfold Vertex.get, try_except, Vertex.all, execute_query.
    cbn [bind ret ST_monad join_lines]. rewrite Hr. reflexivity.
  - intros results Hr Hn. exact (get_count_mismatch rt vid w results Hr Hn).
  - intros results r Hr Hf. pose proof (all_unfold rt [vid] w results Hr) as Ha.
    rewrite Hf in Ha.
    unfold Vertex.get, try_except. cbn [bind ret ST_monad].
    destruct (Vertex.all rt (Some [vid]) w) as [res w']. simpl in Ha.
    rewrite Ha. unfold bind, ret, result_monad.
    destruct (Vertex.deserialize_row rt r) as [[]|o]; reflexivity.
Qed.

Lemma get_outcomes_witness :
  (Vertex.get samples.rt1 "x" (samples.constant_world [JNull; JNull])).1 = inl DoesNotExist /\
  (Vertex.get samples.rt1 "x"
     (samples.constant_world [JNull; JObj samples.ghost_fields])).1 = inl IndexError.
Proof.
  split.
  - apply (proj1 (proj2 (proj2 (get_outcomes samples.rt1 "x"
                                  (samples.constant_world [JNull; JNull]))))
             [JNull; JNull]); [reflexivity|].
    simpl. lia.
  - apply (proj2 (proj2 (proj2 (get_outcomes samples.rt1 "x"
                                  (samples.constant_world [JNull; JObj samples.ghost_fields]))))
             [JNull; JObj samples.ghost_fields] (JObj samples.ghost_fields));
      reflexivity.
Defined.

(** X17: what [all] hands to the service.  An argument that is not a
    sequence is refused before anything is posted.  A sequence costs
    exactly one call, whatever comes of it, binding [vids] to the
    identifiers in the order given; a failure of the service is passed on
    as it is; and rows that are empty are skipped, so that surplus nulls
    around the right number of rows do no harm. *)
Theorem all_boundary (rt : runtime) (vids : list string) (w : world) :
  Vertex.all rt None w =
    (inl (ThunderdomeQueryError "vids must be of type list or tuple"), w) /\
  calls (Vertex.all rt (Some vids) w).2 = calls w ++ [fetch_call vids] /\
  (fetch_call vids).2 !! "vids" = Some (JList (JStr <$> vids)) /\
  (forall msg, answer w (fetch_call vids) = StatusError msg ->
     (Vertex.all rt (Some vids) w).1 = inl (ThunderdomeQueryError msg)) /\
  (forall results w', answer w (fetch_call vids) = Status200 results ->
     answer w' (fetch_call vids) = Status200 (List.filter truthy results) ->
     (Vertex.all rt (Some vids) w).1 = (Vertex.all rt (Some vids) w').1).
Proof.
  split; [reflexivity|]. split; [apply all_posts_once|].
  split; [apply lookup_singleton_eq|]. split.
  - intros msg Hr. unfold answer, fetch_call in Hr.
    unfold Vertex.all, execute_query. cbn [bind ret ST_monad join_lines].
    rewrite Hr. reflexivity.
  - intros results w' Hr Hr'.
    rewrite (all_unfold rt vids w results Hr).
    rewrite (all_unfold rt vids w' _ Hr').
    assert (List.filter truthy (List.filter truthy results) = List.filter truthy results)
      as ->; [|reflexivity].
    clear. induction results as [|r rs IH]; [reflexivity|].
    simpl. destruct (truthy r) eqn:Ht; simpl; rewrite ?Ht, IH; reflexivity.
Qed.

Lemma all_boundary_witness :
  (Vertex.all samples.rt1 (Some ["x"])
     (samples.constant_world [JNull; samples.person_row 1; JNull])).1 =
  (Vertex.all samples.rt1 (Some ["x"]) (samples.constant_world [samples.person_row 1])).1.
Proof.
  apply (proj2 (proj2 (proj2 (proj2 (all_boundary samples.rt1 ["x"]
           (samples.constant_world [JNull; samples.person_row 1; JNull])))))
           [JNull; samples.person_row 1; JNull]
           (samples.constant_world [samples.person_row 1]));
    reflexivity.
Defined.

(** ** Deleting a saved element *)

(** X18: [delete] on an element that has an identifier makes exactly one
    call, the removal script of its kind with [eid] bound to the
    identifier.  The rows the service returns are not looked at: any answer
    but a failure completes the call, and a failure is passed on. *)
Theorem delete_saved (self : element) (w : world) :
  is_None (element_eid self) = false ->
  calls (Vertex.delete self w).2 =
    calls w ++ [posted Vertex.delete_query {[ "eid" := element_eid self ]}] /\
  calls (Edge.delete self w).2 =
    calls w ++ [posted Edge.delete_query {[ "eid" := element_eid self ]}] /\
  (Vertex.delete self w).1 =
    match answer w (posted Vertex.delete_query {[ "eid" := element_eid self ]}) with
    | Status200 _ => inr tt
    | StatusError msg => inl (ThunderdomeQueryError msg)
    end /\
  (Edge.delete self w).1 =
    match answer w (posted Edge.delete_query {[ "eid" := element_eid self ]}) with
    | Status200 _ => inr tt
    | StatusError msg => inl (ThunderdomeQueryError msg)
    end.
Proof.
  intros Hid. unfold Vertex.delete, Edge.delete. rewrite Hid.
  cbn [bind ret ST_monad].
  destruct (execute_query_spec Vertex.delete_query {[ "eid" := element_eid self ]} w)
    as (Hc & _ & Hr).
  destruct (execute_query_spec Edge.delete_query {[ "eid" := element_eid self ]} w)
    as (Hc' & _ & Hr').
  destruct (execute_query Vertex.delete_query _ true w) as [res w1].
  destruct (execute_query Edge.delete_query _ true w) as [res' w1'].
  cbn [fst snd] in *. subst res res'.
  split; [|split; [|split]].
  - destruct (answer w (posted Vertex.delete_query _)); exact Hc.
  - destruct (answer w (posted Edge.delete_query _)); exact Hc'.
  - destruct (answer w (posted Vertex.delete_query _)); reflexivity.
  - destruct (answer w (posted Edge.delete_query _)); reflexivity.
Qed.

Lemma delete_saved_witness :
  (Vertex.delete (samples.saved_vertex 4) (samples.constant_world [JNum 1; JNum 2])).1 = inr tt.
Proof.
  apply (proj1 (proj2 (proj2 (delete_saved (samples.saved_vertex 4)
                                (samples.constant_world [JNum 1; JNum 2]) eq_refl)))).
Defined.

(** ** The blocks the line scan captures *)

Lemma append_nil_r (s : string) : s +:+ "" = s.
Proof.
  induction s as [|c s IH]; [reflexivity|].
  change (String c (s +:+ "") = String c s). rewrite IH. reflexivity.
Qed.

Lemma append_assoc (a b c : string) : (a +:+ b) +:+ c = a +:+ b +:+ c.
Proof.
  induction a as [|x a IH]; [reflexivity|].
  change (String x ((a +:+ b) +:+ c) = String x (a +:+ b +:+ c)).
  rewrite IH. reflexivity.
Qed.

Lemma text_of_app (l1 l2 : list string) :
  text_of (l1 ++ l2) = text_of l1 +:+ text_of l2.
Proof.
  induction l1 as [|l l1 IH]; simpl; [reflexivity|].
  rewrite IH, !append_assoc. reflexivity.
Qed.

Lemma text_of_snoc (ls : list string) (line : string) :
  text_of ls +:+ line +:+ nl = text_of (ls ++ [line]).
Proof. rewrite text_of_app. simpl. rewrite append_nil_r. reflexivity. Qed.

Lemma text_of_cons_length (l : string) (ls : list string) :
  (0 <? String.length (text_of (l :: ls)))%nat = true.
Proof.
  apply Nat.ltb_lt. simpl. rewrite !append_length. simpl. lia.
Qed.

Lemma scan_blocks (file_lines done rest : list string) (fn_lines : string)
    (all_fns : list string) :
  file_lines = done ++ rest ->
  Forall (is_block file_lines) all_fns ->
  (fn_lines = "" \/
   exists pre first middle,
     done = pre ++ first :: middle /\ fn_lines = text_of (first :: middle) /\
     FuncDefnRegexp first = true /\ Forall (fun l => l <> "}") middle) ->
  Forall (is_block file_lines) (scan rest fn_lines all_fns).
Proof.
  revert done fn_lines all_fns.
  induction rest as [|line rest IH]; intros done fn_lines all_fns Hall Hacc Hfn;
    [exact Hacc|].
  assert (file_lines = (done ++ [line]) ++ rest) as Hall'.
  { rewrite <- app_assoc. exact Hall. }
  cbn [scan]. destruct Hfn as [->|(pre & first & middle & Hd & -> & Hf & Hm)].
  - cbn [String.length Nat.ltb Nat.leb]. destruct (FuncDefnRegexp line) eqn:Hdef.
    + apply (IH (done ++ [line])); [exact Hall'|exact Hacc|].
      right. exists done, line, []. split; [reflexivity|]. split.
      * simpl. rewrite append_nil_r. reflexivity.
      * split; [exact Hdef|constructor].
    + apply (IH (done ++ [line])); [exact Hall'|exact Hacc|left; reflexivity].
  - rewrite text_of_cons_length. rewrite text_of_snoc.
    unfold FuncEndRegexp. destruct (String.eqb_spec line "}") as [->|Hne].
    + apply (IH (done ++ ["}"])); [exact Hall'| |left; reflexivity].
      apply Forall_app. split; [exact Hacc|]. constructor; [|constructor].
      exists pre, first, middle, rest. split.
      * rewrite Hall, Hd, <- app_assoc. reflexivity.
      * split; [reflexivity|]. split; [exact Hf|exact Hm].
    + apply (IH (done ++ [line])); [exact Hall'|exact Hacc|].
      right. exists pre, first, (middle ++ [line]). split.
      * rewrite Hd, <- app_assoc. reflexivity.
      * split; [reflexivity|]. split; [exact Hf|].
        apply Forall_app. split; [exact Hm|]. constructor; [exact Hne|constructor].
Qed.

Lemma scan_count_ends (rest : list string) (fn_lines : string) (all_fns : list string) :
  length (scan rest fn_lines all_fns) <=
    length all_fns + length (List.filter FuncEndRegexp rest).
Proof.
  revert fn_lines all_fns. induction rest as [|line rest IH]; intros fn_lines all_fns;
    simpl; [lia|].
  destruct (0 <? String.length fn_lines)%nat.
  - destruct (FuncEndRegexp line); simpl.
    + etransitivity; [apply IH|]. rewrite length_app. simpl. lia.
    + apply IH.
  - destruct (FuncDefnRegexp line); (etransitivity; [apply IH|]);
      destruct (FuncEndRegexp line); simpl; lia.
Qed.

Lemma scan_count_defs (rest : list string) (fn_lines : string) (all_fns : list string) :
  length (scan rest fn_lines all_fns) <=
    length all_fns + (if (0 <? String.length fn_lines)%nat then 1 else 0)
    + length (List.filter FuncDefnRegexp rest).
Proof.
  revert fn_lines all_fns. induction rest as [|line rest IH]; intros fn_lines all_fns;
    simpl; [lia|].
  destruct (0 <? String.length fn_lines)%nat eqn:Hopen.
  - destruct (FuncEndRegexp line); simpl.
    + etransitivity; [apply IH|]. rewrite length_app. simpl.
      destruct (FuncDefnRegexp line); simpl; lia.
    + etransitivity; [apply IH|].
      match goal with |- context [if ?b then 1 else 0] => destruct b end;
        destruct (FuncDefnRegexp line); simpl; lia.
  - destruct (FuncDefnRegexp line); simpl.
    + etransitivity; [apply IH|].
      match goal with |- context [if ?b then 1 else 0] => destruct b end; lia.
    + etransitivity; [apply IH|]. rewrite Hopen. lia.
Qed.

(** X19: the blocks the scan of a file captures.  Each is a stretch of
    consecutive lines of the file, newline after each: a line that starts
    with [def] and has an opening brace later on, then lines none of which
    is a lone closing brace, then a lone closing brace.  There are no more
    blocks than lines that open a definition, and no more than lines that
    are a lone closing brace: text outside a definition and a definition
    that is never closed leave nothing. *)
Theorem captured_blocks_shape (data : string) :
  Forall (is_block (split_lines data)) (captured_blocks data) /\
  length (captured_blocks data) <= length (List.filter FuncDefnRegexp (split_lines data)) /\
  length (captured_blocks data) <= length (List.filter FuncEndRegexp (split_lines data)).
Proof.
  unfold captured_blocks. split; [|split].
  - apply (scan_blocks _ []); [reflexivity|constructor|left; reflexivity].
  - apply (scan_count_defs (split_lines data) "" []).
  - apply (scan_count_ends (split_lines data) "" []).
Qed.

(** ** The body cut out of a block *)

Lemma append_cons (c : ascii) (s t : string) : String c s +:+ t = String c (s +:+ t).
Proof. reflexivity. Qed.

Lemma brace_free_cons (c : ascii) (s : string) :
  brace_free (String c s) -> Ascii.eqb c "{" = false /\ brace_free s.
Proof.
  unfold brace_free. cbn [contains_char]. rewrite (Ascii.eqb_sym "{" c).
  destruct (Ascii.eqb c "{"); [discriminate|]. done.
Qed.

Lemma strip_heads_free (s run : string) :
  brace_free s -> strip_heads s run = run +:+ s.
Proof.
  revert run. induction s as [|c s IH]; intros run Hs.
  - simpl. rewrite append_nil_r. reflexivity.
  - apply brace_free_cons in Hs as [Hc Hs]. simpl. rewrite Hc.
    rewrite (IH _ Hs), append_assoc. reflexivity.
Qed.

Lemma strip_heads_seg (seg rest run : string) :
  brace_free seg -> run +:+ seg <> "" ->
  strip_heads (seg +:+ "{" +:+ rest) run = strip_heads rest "".
Proof.
  revert run. induction seg as [|c seg IH]; intros run Hs Hne.
  - rewrite append_nil_r in Hne. destruct run; [contradiction|]. reflexivity.
  - apply brace_free_cons in Hs as [Hc Hs]. rewrite (append_cons c seg).
    cbn [strip_heads]. rewrite Hc. apply IH; [exact Hs|].
    rewrite append_assoc. intros H. apply (f_equal String.length) in H.
    rewrite append_length in H. simpl in H. lia.
Qed.

Lemma strip_heads_heads (segs : list string) (tail : string) :
  Forall (fun s => s <> "" /\ brace_free s) segs ->
  strip_heads (heads segs tail) "" = strip_heads tail "".
Proof.
  induction 1 as [|s segs [Hne Hs] _ IH]; [reflexivity|].
  cbn [heads foldr]. rewrite strip_heads_seg; [exact IH|exact Hs|exact Hne].
Qed.

Lemma strip_closing_last (inner : string) :
  strip_closing (inner +:+ "}" +:+ nl) = inner +:+ nl.
Proof.
  induction inner as [|c inner IH]; [reflexivity|].
  rewrite !(append_cons c inner). cbn [strip_closing]. rewrite IH.
  assert (String.eqb (inner +:+ "}" +:+ nl) "" = false) as ->.
  { apply String.eqb_neq. intros H. apply (f_equal String.length) in H.
    rewrite append_length in H. simpl in H. lia. }
  assert (String.eqb (inner +:+ "}" +:+ nl) nl = false) as ->.
  { apply String.eqb_neq. intros H. apply (f_equal String.length) in H.
    rewrite append_length in H. simpl in H. lia. }
  rewrite andb_false_r. reflexivity.
Qed.

(** X20: the body kept for a block is the text after its last opening
    brace, up to the closing brace of the last line, followed by the
    newline of that line: whatever stands before a nested opening brace is
    lost with the head of the definition.  (Every opening brace here has
    some text other than a brace before it.) *)
Theorem body_after_last_brace (segs : list string) (inner : string)
    (f : GroovyFunction) :
  Forall (fun s => s <> "" /\ brace_free s) segs ->
  brace_free inner ->
  GroovyFunctionParser.parse (heads segs (inner +:+ "}" +:+ nl)) = Function f ->
  body f = inner +:+ nl.
Proof.
  intros Hsegs Hinner. unfold GroovyFunctionParser.parse.
  destruct (FuncDefn _) as [[fname fargs]|]; [|discriminate].
  intros [= <-]. cbn [body].
  rewrite (strip_heads_heads segs _ Hsegs).
  assert (brace_free (inner +:+ "}" +:+ nl)) as Hfree.
  { clear -Hinner. induction inner as [|c inner IH]; [reflexivity|].
    apply brace_free_cons in Hinner as [Hc Hi]. rewrite (append_cons c inner).
    unfold brace_free in *. cbn [contains_char].
    rewrite (Ascii.eqb_sym "{" c), Hc. apply IH, Hi. }
  rewrite (strip_heads_free _ "" Hfree). apply strip_closing_last.
Qed.

Lemma body_after_last_brace_witness :
  exists f, GroovyFunctionParser.parse samples.nested_block = Function f /\
            body f = " g.v(x) }" +:+ nl +:+ nl.
Proof.
  eexists. split; [reflexivity|].
  apply (body_after_last_brace ["def pick(x) "; nl +:+ "  if (x) "] (" g.v(x) }" +:+ nl)).
  - repeat constructor; discriminate.
  - reflexivity.
  - reflexivity.
Defined.

(** ** Functions the grammar rejects *)

Lemma alnum_not_ws (c : ascii) : is_alnum c = true -> is_ws c = false.
Proof.
  unfold is_alnum, is_lower, is_upper, is_digit, is_ws.
  generalize (nat_of_ascii c). intros n H.
  repeat match goal with
         | |- context [(?a =? ?b)%nat] => destruct (Nat.eqb_spec a b)
         end; try reflexivity; subst; discriminate.
Qed.

Lemma span_word_app (w : string) (c : ascii) (t : string) :
  (span_word w).1 = w -> is_word c = false ->
  span_word (w +:+ String c t) = (w, String c t).
Proof.
  intros Hw Hc. induction w as [|x w IH].
  - simpl. rewrite Hc. reflexivity.
  - rewrite (append_cons x w). simpl in Hw |- *.
    destruct (is_word x); [|discriminate].
    destruct (span_word w) as [w' r] eqn:Hs. simpl in Hw. injection Hw as Hw.
    rewrite IH by exact Hw. reflexivity.
Qed.

Lemma VarName_after_blank (fname : string) (c : ascii) (t : string) :
  is_var_name fname -> is_word c = false ->
  VarName (" " +:+ fname +:+ String c t) = Some (fname, String c t).
Proof.
  intros Hname Hc. unfold VarName.
  change (skip_ws (" " +:+ fname +:+ String c t)) with (skip_ws (fname +:+ String c t)).
  destruct fname as [|a w]; [contradiction|]. destruct Hname as [Ha Hw].
  rewrite (append_cons a w). cbn [skip_ws].
  rewrite (alnum_not_ws a Ha), Ha, (span_word_app w c t Hw Hc). reflexivity.
Qed.

(** X21: a function without parameters does not parse.  After the name and
    the opening parenthesis the grammar wants one name at least, so a text
    that goes on with a closing parenthesis, blanks apart, is rejected, and
    the entry of its block is the empty dictionary, not a signature. *)
Theorem parameterless_function_is_rejected (fname rest tail : string) :
  is_var_name fname ->
  skip_ws rest = String ")" tail ->
  FuncDefn ("def " +:+ fname +:+ "(" +:+ rest) = None /\
  GroovyFunctionParser.parse ("def " +:+ fname +:+ "(" +:+ rest) = EmptyDict.
Proof.
  intros Hname Hrest.
  assert (FuncDefn ("def " +:+ fname +:+ "(" +:+ rest) = None) as Hf.
  { unfold FuncDefn.
    change (KeywordDef ("def " +:+ fname +:+ "(" +:+ rest))
      with (Some (" " +:+ fname +:+ "(" +:+ rest)).
    cbn [mbind option_bind].
    change ("(" +:+ rest) with (String "(" rest).
    rewrite (VarName_after_blank fname "(" rest Hname eq_refl).
    cbn [mbind option_bind snd].
    change (Literal "(" (String "(" rest)) with (Some rest).
    cbn [mbind option_bind].
    unfold delimitedList, VarName. rewrite Hrest. reflexivity. }
  split; [exact Hf|]. unfold GroovyFunctionParser.parse. rewrite Hf. reflexivity.
Qed.

Lemma parameterless_function_is_rejected_witness :
  GroovyFunctionParser.parse samples.ping_block = EmptyDict.
Proof.
  apply (proj2 (parameterless_function_is_rejected "ping"
                  (") {" +:+ nl +:+ "  g.V.count()" +:+ nl +:+ "}" +:+ nl)
                  (" {" +:+ nl +:+ "  g.V.count()" +:+ nl +:+ "}" +:+ nl)
                  (conj eq_refl eq_refl) eq_refl)).
Defined.

(** ** Scanning a file piece by piece *)

Lemma split_lines_line (l data : string) :
  one_line l = true -> split_lines (l +:+ nl +:+ data) = l :: split_lines data.
Proof.
  induction l as [|c l IH]; intros Hl; [reflexivity|].
  rewrite (append_cons c l). cbn [one_line] in Hl. apply andb_true_iff in Hl as [Hc Hl].
  cbn [split_lines]. apply negb_true_iff in Hc. rewrite Hc, (IH Hl). reflexivity.
Qed.

Lemma split_lines_text (ls : list string) (data : string) :
  Forall (fun l => one_line l = true) ls ->
  split_lines (text_of ls +:+ data) = ls ++ split_lines data.
Proof.
  induction 1 as [|l ls Hl _ IH]; [reflexivity|].
  cbn [text_of foldr]. fold (text_of ls). rewrite !append_assoc.
  rewrite (split_lines_line l _ Hl), IH. reflexivity.
Qed.

Lemma scan_acc (rest : list string) (fn_lines : string) (all_fns : list string) :
  scan rest fn_lines all_fns = all_fns ++ scan rest fn_lines [].
Proof.
  revert fn_lines all_fns. induction rest as [|line rest IH]; intros fn_lines all_fns.
  - simpl. rewrite app_nil_r. reflexivity.
  - cbn [scan]. destruct (0 <? String.length fn_lines)%nat.
    + destruct (FuncEndRegexp line); [|apply IH].
      rewrite (IH _ (all_fns ++ _)), (IH _ ([] ++ _)), <- app_assoc. reflexivity.
    + destruct (FuncDefnRegexp line); apply IH.
Qed.

Lemma scan_to_end (middle rest : list string) (fn_lines : string)
    (all_fns : list string) :
  (0 <? String.length fn_lines)%nat = true ->
  Forall (fun l => l <> "}") middle ->
  scan (middle ++ "}" :: rest) fn_lines all_fns =
    scan rest "" (all_fns ++ [fn_lines +:+ text_of (middle ++ ["}"])]).
Proof.
  intros Hopen Hm. revert fn_lines Hopen.
  induction Hm as [|line middle Hne _ IH]; intros fn_lines Hopen.
  - cbn [app scan]. rewrite Hopen. cbn [text_of foldr]. rewrite append_nil_r.
    reflexivity.
  - cbn [app scan]. rewrite Hopen. unfold FuncEndRegexp.
    destruct (String.eqb_spec line "}") as [E|_]; [contradiction|].
    rewrite IH.
    + cbn [text_of foldr app]. rewrite !append_assoc. reflexivity.
    + apply Nat.ltb_lt. rewrite !append_length. simpl. lia.
Qed.

(** X22: the scan goes through a file piece by piece.  A line outside a
    definition that does not open one is skipped; a complete definition (an
    opening line, lines none of which is a lone closing brace, a lone
    closing brace) is captured as it stands; either way what follows is
    scanned as if the file started there. *)
Theorem captured_blocks_compose (data : string) :
  (forall line,
     one_line line = true -> FuncDefnRegexp line = false ->
     captured_blocks (line +:+ nl +:+ data) = captured_blocks data) /\
  (forall first middle,
     Forall (fun l => one_line l = true) (first :: middle) ->
     FuncDefnRegexp first = true ->
     Forall (fun l => l <> "}") middle ->
     captured_blocks (text_of (first :: middle ++ ["}"]) +:+ data) =
       text_of (first :: middle ++ ["}"]) :: captured_blocks data).
Proof.
  unfold captured_blocks. split.
  - intros line Hl Hd. rewrite (split_lines_line line data Hl).
    cbn [scan String.length Nat.ltb Nat.leb]. rewrite Hd. reflexivity.
  - intros first middle Hone Hd Hm. rewrite split_lines_text.
    + cbn [app scan String.length Nat.ltb Nat.leb]. rewrite Hd.
      rewrite <- app_assoc. cbn [app].
      rewrite (scan_to_end middle _ _ [] (text_of_cons_length first []) Hm).
      rewrite scan_acc. cbn [app]. f_equal.
      cbn [text_of foldr]. rewrite append_nil_r, !append_assoc. reflexivity.
    + change (first :: middle ++ ["}"]) with ((first :: middle) ++ ["}"]).
      apply Forall_app. split; [exact Hone|]. repeat constructor.
Qed.

Lemma captured_blocks_compose_witness :
  captured_blocks ("// helpers" +:+ nl +:+ samples.source_with_bad_block) =
    captured_blocks samples.source_with_bad_block /\
  captured_blocks samples.source_with_bad_block =
    samples.ping_block :: captured_blocks samples.greet_block.
Proof.
  split.
  - apply (proj1 (captured_blocks_compose samples.source_with_bad_block) "// helpers");
      reflexivity.
  - apply (proj2 (captured_blocks_compose samples.greet_block)
             "def ping() {" ["  g.V.count()"]).
    + repeat constructor.
    + reflexivity.
    + repeat constructor. discriminate.
Defined.

(** ** Binding a method to its function *)

Lemma append_args_keeps (fargs : list string) (self : BaseGremlinMethod) :
  is_configured (append_args fargs self).2 = is_configured self /\
  method_name (append_args fargs self).2 = method_name self /\
  attr_name (append_args fargs self).2 = attr_name self.
Proof.
  revert self. induction fargs as [|arg fargs IH]; intros self; [done|].
  cbn [append_args]. case_bool_decide; [done|].
  destruct (IH {| is_configured := is_configured self; method_name := method_name self;
                  classmethod := classmethod self; default_args := default_args self;
                  attr_name := attr_name self; arg_list := arg_list self ++ [arg];
                  function_body := function_body self;
                  function_def := function_def self |}) as (H1 & H2 & H3).
  done.
Qed.

Lemma append_args_fresh (fargs : list string) (self : BaseGremlinMethod) :
  NoDup (arg_list self ++ fargs) ->
  append_args fargs self =
    (inr tt,
     {| is_configured := is_configured self; method_name := method_name self;
        classmethod := classmethod self; default_args := default_args self;
        attr_name := attr_name self; arg_list := arg_list self ++ fargs;
        function_body := function_body self; function_def := function_def self |}).
Proof.
  revert self. induction fargs as [|arg fargs IH]; intros self Hnd.
  - cbn [append_args]. rewrite app_nil_r. destruct self; reflexivity.
  - cbn [append_args]. apply NoDup_app in Hnd as Hnd'. destruct Hnd' as (_ & Hd & _).
    rewrite bool_decide_false by (intros Hin; apply (Hd arg Hin); left).
    rewrite IH; cbn [arg_list]; rewrite <- app_assoc; [reflexivity|exact Hnd].
Qed.

Lemma find_method_rejected (pre : list GroovyFunction) (post : list parsed)
    (mname : string) :
  Forall (fun f => name f <> mname) pre ->
  find_method ((Function <$> pre) ++ EmptyDict :: post) mname = inl AttributeError.
Proof.
  induction 1 as [|f pre Hf _ IH]; [reflexivity|].
  cbn [fmap list_fmap app find_method]. apply String.eqb_neq in Hf. rewrite Hf. exact IH.
Qed.

Lemma find_method_missing (fs : list GroovyFunction) (mname : string) :
  Forall (fun f => name f <> mname) fs ->
  find_method (Function <$> fs) mname = inr None.
Proof.
  induction 1 as [|f fs Hf _ IH]; [reflexivity|].
  cbn [fmap list_fmap find_method]. apply String.eqb_neq in Hf. rewrite Hf. exact IH.
Qed.

Lemma find_method_first (pre : list GroovyFunction) (f : GroovyFunction)
    (post : list parsed) :
  Forall (fun g => name g <> name f) pre ->
  find_method ((Function <$> pre) ++ Function f :: post) (name f) = inr (Some f).
Proof.
  induction 1 as [|g pre Hg _ IH].
  - cbn [fmap list_fmap app find_method]. rewrite String.eqb_refl. reflexivity.
  - cbn [fmap list_fmap app find_method]. apply String.eqb_neq in Hg. rewrite Hg.
    exact IH.
Qed.

(** X23: how binding a method fails.  The entries of the file are read in
    order up to the first whose name is the one looked for.  If an entry
    before it is the empty dictionary of a rejected block, reading its name
    raises [AttributeError]; if all entries are signatures and none has the
    name, [ThunderdomeGremlinException] says so; a later entry of the same
    name is never looked at.  Whatever happens, the method object has its
    attribute name and method name set by then, and is still not marked as
    configured. *)
Theorem configure_method_failures (path source attr : string) (self : BaseGremlinMethod) :
  is_configured self = false ->
  (forall pre post,
     groovy.parse source = (Function <$> pre) ++ EmptyDict :: post ->
     Forall (fun f => name f <> method_name_or self attr) pre ->
     (configure_method path source attr self).1 = inl AttributeError) /\
  (forall fs,
     groovy.parse source = Function <$> fs ->
     Forall (fun f => name f <> method_name_or self attr) fs ->
     (configure_method path source attr self).1 =
       inl (ThunderdomeGremlinException
              ("The method'" +:+ method_name_or self attr +:+ "' wasnt found in " +:+ path))) /\
  (forall pre f post,
     groovy.parse source = (Function <$> pre) ++ Function f :: post ->
     name f = method_name_or self attr ->
     Forall (fun g => name g <> name f) pre ->
     arg_list self = [] -> NoDup (args f) ->
     (configure_method path source attr self).1 = inr tt /\
     arg_list (configure_method path source attr self).2 = args f /\
     function_body (configure_method path source attr self).2 = Some (body f)) /\
  is_configured (configure_method path source attr self).2 = false /\
  method_name (configure_method path source attr self).2 = Some (method_name_or self attr) /\
  attr_name (configure_method path source attr self).2 = Some attr.
Proof.
  intros Hc. split; [|split; [|split]].
  - intros pre post Hp Hpre. unfold configure_method. cbn [is_configured].
    rewrite Hc, Hp, (find_method_rejected pre post _ Hpre). reflexivity.
  - intros fs Hp Hfs. unfold configure_method. cbn [is_configured].
    rewrite Hc, Hp, (find_method_missing fs _ Hfs). reflexivity.
  - intros pre f post Hp Hn Hpre Ha Hnd. unfold configure_method. cbn [is_configured].
    rewrite Hc, Hp, <- Hn, (find_method_first pre f post Hpre).
    match goal with |- context [append_args (args f) ?s] =>
      assert (append_args (args f) s =
                (inr tt,
                 {| is_configured := is_configured s; method_name := method_name s;
                    classmethod := classmethod s; default_args := default_args s;
                    attr_name := attr_name s; arg_list := arg_list s ++ args f;
                    function_body := function_body s;
                    function_def := function_def s |})) as ->; [|cbn; rewrite Ha; done]
    end.
    apply append_args_fresh. cbn [arg_list]. rewrite Ha, app_nil_l. exact Hnd.
  - unfold configure_method. cbn [is_configured]. rewrite Hc.
    destruct (find_method _ _) as [e|[f|]]; [done| |done].
    match goal with |- context [append_args (args f) ?s] =>
      destruct (append_args_keeps (args f) s) as (H1 & H2 & H3);
      destruct (append_args (args f) s) as [[e|[]] s'] end;
      cbn in H1, H2, H3 |- *; rewrite ?H1, ?H2, ?H3; done.
Qed.

Lemma configure_method_failures_witness :
  (configure_method "/gremlin.groovy" samples.source_with_bad_block "greet"
                    samples.fresh_method).1 = inl AttributeError /\
  (configure_method "/gremlin.groovy" samples.greet_block "hello"
                    samples.fresh_method).1 =
    inl (ThunderdomeGremlinException "The method'hello' wasnt found in /gremlin.groovy").
Proof.
  split.
  - apply (proj1 (configure_method_failures "/gremlin.groovy" samples.source_with_bad_block
                    "greet" samples.fresh_method eq_refl)
             [] [Function samples.greet_signature]); [reflexivity|constructor].
  - apply (proj1 (proj2 (configure_method_failures "/gremlin.groovy" samples.greet_block
                    "hello" samples.fresh_method eq_refl))
             [samples.greet_signature]); [reflexivity|].
    repeat constructor. discriminate.
Defined.

Lemma method_name_or_again (self self' : BaseGremlinMethod) (attr : string) :
  method_name self' = Some (method_name_or self attr) ->
  method_name_or self' attr = method_name_or self attr.
Proof.
  intros H. unfold method_name_or at 1. rewrite H.
  destruct (String.eqb_spec (method_name_or self attr) "") as [E|E]; [|reflexivity].
  revert E. unfold method_name_or. destruct (method_name self) as [m|]; [|congruence].
  destruct (String.eqb_spec m ""); congruence.
Qed.

Lemma find_method_found (entries : list parsed) (mname : string) (f : GroovyFunction) :
  find_method entries mname = inr (Some f) -> Function f ∈ entries.
Proof.
  induction entries as [|[g|] l IH]; cbn [find_method]; try discriminate.
  destruct (String.eqb (name g) mname).
  - intros [= ->]. left.
  - intros H. right. apply IH, H.
Qed.

Lemma parsed_function_has_args (source : string) (f : GroovyFunction) :
  Function f ∈ groovy.parse source -> args f <> [].
Proof.
  unfold groovy.parse. rewrite (snoc_fold_map GroovyFunctionParser.parse _ []).
  cbn [app]. intros Hin. apply list_elem_of_fmap in Hin as (block & Hb & _).
  unfold GroovyFunctionParser.parse in Hb.
  destruct (FuncDefn block) as [[fname fargs]|] eqn:Hf; [|discriminate].
  injection Hb as ->. cbn [args].
  apply (FuncDefn_well_formed block fname fargs Hf).
Qed.

Lemma configure_method_outcome (path source attr : string)
    (self self' : BaseGremlinMethod) :
  is_configured self = false ->
  arg_list self = [] ->
  configure_method path source attr self = (inr tt, self') ->
  exists f,
    find_method (groovy.parse source) (method_name_or self attr) = inr (Some f) /\
    arg_list self' = args f /\
    is_configured self' = false /\
    method_name self' = Some (method_name_or self attr) /\
    attr_name self' = Some attr.
Proof.
  intros Hc Ha. unfold configure_method. cbn [is_configured]. rewrite Hc.
  destruct (find_method (groovy.parse source) (method_name_or self attr))
    as [e|[f|]] eqn:Hf; try discriminate.
  match goal with |- context [append_args (args f) ?s] =>
    destruct (append_args_keeps (args f) s) as (H1 & H2 & H3);
    destruct (append_args (args f) s) as [[e|[]] s1] eqn:Happ end; [discriminate|].
  intros [= <-]. exists f. split; [reflexivity|].
  apply append_args_spec in Happ as [_ Hl]; [|cbn [arg_list]; rewrite Ha; constructor].
  cbn [arg_list] in Hl. rewrite Ha in Hl.
  cbn in H1, H2, H3 |- *. done.
Qed.

(** X24: binding is not repeatable.  The guard on [is_configured] never
    closes, because the flag is never set; so binding a method that was
    bound before reads the file again and stops at the first parameter,
    which is in the parameter list already, with
    [ThunderdomeGremlinException]. *)
Theorem configure_method_twice (path source attr : string)
    (self self' : BaseGremlinMethod) :
  is_configured self = false ->
  arg_list self = [] ->
  configure_method path source attr self = (inr tt, self') ->
  exists arg rest,
    arg_list self' = arg :: rest /\
    configure_method path source attr self' =
      (inl (ThunderdomeGremlinException
              ("'" +:+ arg +:+ "' defined more than once in gremlin method arguments")),
       self').
Proof.
  intros Hc Ha Hfirst.
  destruct (configure_method_outcome path source attr self self' Hc Ha Hfirst)
    as (f & Hfind & Hargs & Hflag & Hname & Hattr).
  pose proof (parsed_function_has_args source f (find_method_found _ _ f Hfind)) as Hne.
  destruct (args f) as [|arg rest] eqn:Hf; [contradiction|].
  exists arg, rest. split; [exact Hargs|].
  unfold configure_method. cbn [is_configured]. rewrite Hflag.
  rewrite (method_name_or_again self self' attr Hname), Hfind, Hf.
  cbn [append_args arg_list]. rewrite Hargs.
  rewrite bool_decide_true by left.
  f_equal. destruct self'. cbn in *. subst. reflexivity.
Qed.

Lemma configure_method_twice_witness :
  exists self',
    configure_method "/gremlin.groovy" samples.greet_block "greet" samples.fresh_method =
      (inr tt, self') /\
    (configure_method "/gremlin.groovy" samples.greet_block "greet" self').1 =
      inl (ThunderdomeGremlinException
             "'name' defined more than once in gremlin method arguments").
Proof.
  eexists. split; [reflexivity|].
  destruct (configure_method_twice "/gremlin.groovy" samples.greet_block "greet"
              samples.fresh_method _ eq_refl eq_refl eq_refl)
    as (arg & rest & Hargs & Hagain).
  rewrite Hagain. injection Hargs as <- _. reflexivity.
Defined.

(** ** What deserialization makes of a row *)






(** ** Key indices and hosts *)

Lemma existsb_is_str (name : string) (existing : list json) :
  existsb (is_str name) existing = true <-> JStr name ∈ existing.
Proof.
  rewrite existsb_exists. split.
  - intros (v & Hin & Hv). destruct v; try discriminate.
    apply String.eqb_eq in Hv. subst. apply list_elem_of_In. exact Hin.
  - intros Hin. exists (JStr name). split; [apply list_elem_of_In, Hin|].
    apply String.eqb_refl.
Qed.

(** X27: [create_key_index] asks before it creates.  Its first call asks
    for the indexed keys; when that fails, the error is passed on and
    nothing else is posted; when the name is among the keys returned,
    nothing else is posted either; otherwise exactly one more call creates
    the index, with the name bound to [keyname] and the script sent as
    written, and its rows are ignored. *)
Theorem create_key_index_calls (name : string) (w : world) :
  (forall msg, answer w index_lookup = StatusError msg ->
     (create_key_index name w).1 = inl (ThunderdomeQueryError msg) /\
     calls (create_key_index name w).2 = calls w ++ [index_lookup]) /\
  (forall existing, answer w index_lookup = Status200 existing ->
     JStr name ∈ existing ->
     (create_key_index name w).1 = inr tt /\
     calls (create_key_index name w).2 = calls w ++ [index_lookup]) /\
  (forall existing, answer w index_lookup = Status200 existing ->
     JStr name ∉ existing ->
     calls (create_key_index name w).2 = calls w ++ [index_lookup; index_creation name] /\
     (create_key_index name w).1 =
       match remote w (calls w ++ [index_lookup]) (index_creation name) with
       | Status200 _ => inr tt
       | StatusError msg => inl (ThunderdomeQueryError msg)
       end).
Proof.
  unfold create_key_index, answer, index_lookup, index_creation, posted, execute_query.
  cbn [bind ret ST_monad]. split; [|split].
  - intros msg ->. done.
  - intros existing -> Hin. apply existsb_is_str in Hin. rewrite Hin. done.
  - intros existing -> Hin.
    destruct (existsb (is_str name) existing) eqn:He.
    { apply existsb_is_str in He. contradiction. }
    cbn [negb calls remote].
    destruct (remote w _ _); cbn [fst snd calls]; rewrite <- app_assoc; done.
Qed.

Lemma create_key_index_calls_witness :
  (create_key_index "vid" (samples.constant_world [JStr "element_type"; JStr "vid"])).1
    = inr tt /\
  calls (create_key_index "vid" (samples.constant_world [JStr "element_type"])).2
    = [index_lookup; index_creation "vid"].
Proof.
  split.
  - apply (proj1 (proj2 (create_key_index_calls "vid"
                           (samples.constant_world [JStr "element_type"; JStr "vid"])))
             [JStr "element_type"; JStr "vid"]); [reflexivity|].
    right. left.
  - apply (proj2 (proj2 (create_key_index_calls "vid"
                           (samples.constant_world [JStr "element_type"])))
             [JStr "element_type"]); [reflexivity|].
    intros H. apply list_elem_of_singleton in H. discriminate.
Defined.

Lemma split_not_nil (sep : ascii) (s : string) : split sep s <> [].
Proof.
  destruct s as [|c s]; [discriminate|]. cbn [split].
  destruct (Ascii.eqb c sep); [discriminate|].
  destruct (split sep s); discriminate.
Qed.

Lemma split_without_separator (sep : ascii) (s : string) :
  contains_char sep s = false -> split sep s = [s].
Proof.
  induction s as [|c s IH]; [reflexivity|]. cbn [contains_char split].
  rewrite (Ascii.eqb_sym sep c). destruct (Ascii.eqb c sep); [discriminate|].
  cbn [orb]. intros H. rewrite (IH H). reflexivity.
Qed.

Lemma add_hosts_spec (hosts : list string) (_hosts : list Host) :
  exists added,
    (add_hosts hosts _hosts).2 = _hosts ++ added /\
    length added <= length hosts /\
    ((add_hosts hosts _hosts).1 = None <-> Forall parses_as_host hosts) /\
    ((add_hosts hosts _hosts).1 = None -> length added = length hosts).
Proof.
  revert _hosts. induction hosts as [|host hosts IH]; intros _hosts.
  - exists []. rewrite app_nil_r. repeat split; try done; constructor.
  - cbn [add_hosts]. unfold parses_as_host in *.
    pose proof (split_not_nil ":" (strip host)) as Hne.
    destruct (split ":" (strip host)) as [|h [|p [|q parts]]] eqn:Hs; [contradiction| | |].
    + destruct (IH (_hosts ++ [Host_ h (JNum 8182)])) as (added & Ha & Hl & Hi & Hn).
      exists (Host_ h (JNum 8182) :: added). rewrite Ha, <- app_assoc.
      split; [reflexivity|]. split; [simpl; lia|]. split.
      * rewrite Hi. split.
        -- intros H. constructor; [rewrite Hs; simpl; lia|exact H].
        -- intros H. apply Forall_cons in H as [_ H]. exact H.
      * intros H. simpl. rewrite (Hn H). reflexivity.
    + destruct (IH (_hosts ++ [Host_ h (JStr p)])) as (added & Ha & Hl & Hi & Hn).
      exists (Host_ h (JStr p) :: added). rewrite Ha, <- app_assoc.
      split; [reflexivity|]. split; [simpl; lia|]. split.
      * rewrite Hi. split.
        -- intros H. constructor; [rewrite Hs; simpl; lia|exact H].
        -- intros H. apply Forall_cons in H as [_ H]. exact H.
      * intros H. simpl. rewrite (Hn H). reflexivity.
    + exists []. rewrite app_nil_r. cbn [fst snd].
      split; [reflexivity|]. split; [simpl; lia|]. split; [|discriminate].
      split; [discriminate|]. intros H. apply Forall_cons in H as [H _].
      rewrite Hs in H. simpl in H. lia.
Qed.

Lemma setup_single_host (_hosts : list Host) (host : string) :
  contains_char ":" (strip host) = false ->
  setup_hosts [host] _hosts = (None, _hosts ++ [Host_ (strip host) (JNum 8182)]).
Proof.
  intros H. unfold setup_hosts. cbn [add_hosts].
  rewrite (split_without_separator ":" _ H).
  destruct _hosts; reflexivity.
Qed.

(** X28: the host list of [setup].  The hosts it reads are appended to the
    hosts the module already has, which are never dropped; the loop gets
    through exactly when every entry, stripped, has at most one colon, and
    then adds one host per entry; an entry without a colon gets the port
    8182.  The test for an empty list looks at the whole list: with hosts
    left from an earlier call, no entry at all is accepted, and only when
    the list ends up empty is "At least one host required" raised. *)
Theorem setup_hosts_accumulate (hosts : list string) (_hosts : list Host) :
  (exists added,
     (setup_hosts hosts _hosts).2 = _hosts ++ added /\
     length added <= length hosts /\
     (Forall parses_as_host hosts -> length added = length hosts)) /\
  ((setup_hosts hosts _hosts).1 = None <->
   Forall parses_as_host hosts /\ (hosts <> [] \/ _hosts <> [])) /\
  (Forall parses_as_host hosts -> hosts = [] -> _hosts = [] ->
   (setup_hosts hosts _hosts).1 = Some "At least one host required") /\
  (forall host, contains_char ":" (strip host) = false ->
     setup_hosts [host] _hosts = (None, _hosts ++ [Host_ (strip host) (JNum 8182)])).
Proof.
  destruct (add_hosts_spec hosts _hosts) as (added & Ha & Hl & Hi & Hn).
  unfold setup_hosts. destruct (add_hosts hosts _hosts) as [[msg|] new] eqn:Hadd;
    cbn [fst snd] in *.
  - split; [|split; [|split]].
    + exists added. split; [exact Ha|]. split; [exact Hl|].
      intros H. apply Hi in H. discriminate.
    + split; [discriminate|]. intros [H _]. apply Hi in H. discriminate.
    + intros H. apply Hi in H. discriminate.
    + apply setup_single_host.
  - assert (length added = length hosts) as Hlen by (apply Hn; reflexivity).
    assert (Forall parses_as_host hosts) as Hall by (apply Hi; reflexivity).
    split; [|split; [|split]].
    + exists added. destruct new; subst; done.
    + destruct new as [|n new]; cbn [fst].
      * split; [discriminate|]. intros [_ [H|H]].
        -- symmetry in Ha. apply app_eq_nil in Ha as [_ ->]. destruct hosts; done.
        -- symmetry in Ha. apply app_eq_nil in Ha as [-> _]. done.
      * split; [|reflexivity]. intros _. split; [exact Hall|].
        destruct hosts as [|h hs]; [|left; discriminate]. right.
        destruct added; [|discriminate]. rewrite app_nil_r in Ha. subst. discriminate.
    + intros _ -> ->. destruct added; [|discriminate]. cbn in Ha. subst. reflexivity.
    + apply setup_single_host.
Qed.

Lemma setup_hosts_accumulate_witness :
  (setup_hosts [] []).1 = Some "At least one host required" /\
  setup_hosts [" localhost "] [Host_ "db" (JStr "8183")] =
    (None, [Host_ "db" (JStr "8183"); Host_ "localhost" (JNum 8182)]).
Proof.
  split.
  - apply (proj1 (proj2 (proj2 (setup_hosts_accumulate [] []))));
      [constructor|reflexivity|reflexivity].
  - apply (proj2 (proj2 (proj2 (setup_hosts_accumulate [" localhost "]
                                  [Host_ "db" (JStr "8183")]))) " localhost ").
    reflexivity.
Defined.

(** ** Parsing a type specification *)

Lemma parse_statement_keys (x : json) (P P' : list spec.key) (s : spec.statement) :
  spec.parse_statement x P = inr (s, P') ->
  (exists p k, s = spec.PropertyStmt p /\ spec.key_of (spec.name p) = Some k /\
               (k ∉ P) /\ P' = k :: P) \/
  (exists e, s = spec.EdgeStmt e /\ P' = P).
Proof.
  unfold spec.parse_statement. destruct x as [| | | | |stmt]; try discriminate.
  destruct (stmt !! "type") as [t|]; [|discriminate].
  destruct (is_str "property" t).
  - unfold spec.parse_property, spec.item. cbn [bind ret spec.res_monad].
    destruct (stmt !! "name") as [n|]; [|discriminate].
    destruct (spec.key_of n) as [k|] eqn:Hk; [|discriminate].
    case_bool_decide as Hin; [discriminate|].
    destruct (stmt !! "data_type") as [dt|]; [|discriminate].
    cbn [fst snd]. intros [= <- <-]. left. eexists _, k. done.
  - destruct (is_str "edge" t); [|discriminate].
    unfold spec.parse_edge, spec.item. cbn [bind ret spec.res_monad].
    destruct (stmt !! "label") as [l|]; [|discriminate].
    intros [= <- <-]. right. eexists. done.
Qed.

Lemma parse_statements_spec (specs : list json) (P : list spec.key)
    (results : list spec.statement) :
  spec.parse_statements specs P = inr results ->
  NoDup P ->
  length results = length specs /\
  exists ks, spec.property_keys results = inr ks /\ NoDup (ks ++ P).
Proof.
  revert P results. induction specs as [|x specs IH]; intros P results.
  - intros [= <-] HP. split; [reflexivity|]. exists []. done.
  - cbn [spec.parse_statements bind ret spec.res_monad].
    destruct (spec.parse_statement x P) as [e|[s P']] eqn:Hx; [discriminate|].
    cbn [fst snd].
    destruct (spec.parse_statements specs P') as [e|l] eqn:Hl; [discriminate|].
    intros [= <-] HP.
    destruct (parse_statement_keys x P P' s Hx)
      as [(p & k & -> & Hk & Hnin & ->)|(ed & -> & ->)].
    + destruct (IH _ _ Hl) as (Hlen & ks & Hks & Hnd); [by constructor|].
      split; [simpl; lia|]. exists (k :: ks).
      cbn [spec.property_keys bind ret spec.res_monad]. rewrite Hk, Hks.
      split; [reflexivity|].
      revert Hnd. rewrite <- !Permutation_middle. done.
    + destruct (IH _ _ Hl HP) as (Hlen & ks & Hks & Hnd).
      split; [simpl; lia|]. exists ks. done.
Qed.

Lemma check_edges_spec (props : list spec.key) (es : list spec.Edge) :
  spec.check_edges props es = inr tt ->
  forall e, e ∈ es -> truthy (spec.primary_key e) = true ->
    exists k, spec.key_of (spec.primary_key e) = Some k /\ k ∈ props.
Proof.
  induction es as [|e0 es IH]; [intros _ e H; inversion H|].
  cbn [spec.check_edges bind ret spec.res_monad].
  destruct (spec.check_edge props e0) as [err|[]] eqn:H0; [discriminate|].
  intros Hrest e He Ht. apply elem_of_cons in He as [->|He]; [|exact (IH Hrest e He Ht)].
  unfold spec.check_edge in H0. rewrite Ht in H0.
  destruct (spec.key_of (spec.primary_key e0)) as [k|]; [|discriminate].
  case_bool_decide; [|discriminate]. exists k. done.
Qed.

(** X29: what [SpecParser.parse] returns when it returns.  There is one
    result per statement of the specification; the names of the properties
    among them are pairwise distinct as dictionary keys; and every edge
    with a truthy primary key names a property of the specification,
    declared before the edge or after it. *)
Theorem spec_parse_result (specs : list json) (results : list spec.statement) :
  spec.parse specs = inr results ->
  length results = length specs /\
  exists ks,
    spec.property_keys results = inr ks /\ NoDup ks /\
    forall e, e ∈ spec.edges results -> truthy (spec.primary_key e) = true ->
      exists k, spec.key_of (spec.primary_key e) = Some k /\ k ∈ ks.
Proof.
  unfold spec.parse, spec.validate. cbn [bind ret spec.res_monad].
  destruct (spec.parse_statements specs []) as [e|res0] eqn:Hp; [discriminate|].
  destruct (parse_statements_spec specs [] res0 Hp (NoDup_nil_2 (A := spec.key)))
    as (Hlen & ks & Hks & Hnd).
  rewrite Hks. destruct (spec.check_edges ks (spec.edges res0)) as [e|[]] eqn:Hc;
    [discriminate|].
  intros [= <-]. split; [exact Hlen|]. exists ks. split; [exact Hks|].
  rewrite app_nil_r in Hnd. split; [exact Hnd|].
  apply check_edges_spec. exact Hc.
Qed.

Lemma spec_parse_result_witness :
  exists results,
    spec.parse samples.knows_since_spec = inr results /\ length results = 2.
Proof.
  eexists. split; [reflexivity|].
  apply (spec_parse_result samples.knows_since_spec). reflexivity.
Defined.
